(** * Candidate-job matching engine: a shallow embedding and its properties

    The development follows the two Python modules that make up the matching
    core: [ai_processor.py] (the scorer [JobMatcher.calculate_match_score_sync])
    and [data_processor.py] (the CSV loader, the cache, the pre-filter and the
    paginating orchestrator of [DataProcessor]).  The other methods of
    [JobMatcher], the line scanners of [ResumeProcessor],
    [DataProcessor.get_skills_distribution] and [allowed_file] of [app.py]
    follow, each next to the code it belongs to.

    Modelling conventions.
    - Python values are the JSON-shaped values of [Py.pyval].  Dictionaries
      are insertion-ordered association lists with unique keys.
    - Python [float]s are idealised as exact rationals ([Q]); every score is
      compared with [Qeq]/[Qle], as Python compares [50] and [50.0] by value.
    - Python [str] is a sequence of code points below 256 (the Latin-1
      range).  On these [lower], [strip], [split], [isdigit] and [int] act
      as in CPython: the blanks include NEL and the no-break space, the
      digits include the superscripts one, two and three, which [int]
      refuses, and [int] refuses a literal of more than 4300 digits (the
      default of [sys.int_max_str_digits]).  Texts with other characters
      are outside the model.
    - A Python [set] of strings is a duplicate-free list; only membership and
      cardinality are ever observed by the scores.
    - An exception is a value [Raise e] of [Py.result]; [try/except Exception]
      is a [match] on it.  [print] and [json.dumps] of a JSON-shaped value have
      no effect on the result and are left out. *)

From Stdlib Require Import List String Ascii Bool Arith ZArith QArith Qminmax Lia Lqa.
From Stdlib Require Import Sorted Permutation.
From Stdlib Require Import Qround DecimalString.
Import ListNotations.

Set Warnings "-register-all".

Local Open Scope string_scope.
Local Open Scope list_scope.

(* ================================================================== *)
(** ** Python strings *)
(* ================================================================== *)

Module PyStr.

(** The characters [str.lower()] changes: the letters A to Z, and the
    accented capitals from 192 to 222 apart from the multiplication sign. *)
Definition is_upper (c : ascii) : bool :=
  let n := nat_of_ascii c in
  ((65 <=? n)%nat && (n <=? 90)%nat)
  || ((192 <=? n)%nat && (n <=? 222)%nat && negb (n =? 215)%nat).

Definition lower_char (c : ascii) : ascii :=
  if is_upper c then ascii_of_nat (nat_of_ascii c + 32) else c.

(** [s.lower()] *)
Fixpoint lower (s : string) : string :=
  match s with
  | EmptyString => EmptyString
  | String c s' => String (lower_char c) (lower s')
  end.

(** The characters [str.strip()] removes and [str.split()] splits at:
    TAB, LF, VT, FF, CR, the four separators FS..US, the blank, NEL (133)
    and the no-break space (160). *)
Definition is_space (c : ascii) : bool :=
  let n := nat_of_ascii c in
  ((9 <=? n)%nat && (n <=? 13)%nat) || ((28 <=? n)%nat && (n <=? 32)%nat)
  || (n =? 133)%nat || (n =? 160)%nat.

Definition char_in (cs : string) (c : ascii) : bool :=
  existsb (Ascii.eqb c) (list_ascii_of_string cs).

Fixpoint lstrip_by (p : ascii -> bool) (s : string) : string :=
  match s with
  | EmptyString => EmptyString
  | String c s' => if p c then lstrip_by p s' else s
  end.

Fixpoint rstrip_by (p : ascii -> bool) (s : string) : string :=
  match s with
  | EmptyString => EmptyString
  | String c s' =>
      match rstrip_by p s' with
      | EmptyString => if p c then EmptyString else String c EmptyString
      | r => String c r
      end
  end.

(** [s.strip()] *)
Definition strip (s : string) : string :=
  rstrip_by is_space (lstrip_by is_space s).

(** [s.strip(chars)] *)
Definition strip_chars (chars s : string) : string :=
  rstrip_by (char_in chars) (lstrip_by (char_in chars) s).

(** [s.split(sep)] for a one-character separator: never empty, and
    [''.split(sep) = ['']]. *)
Fixpoint split (sep : ascii) (s : string) : list string :=
  match s with
  | EmptyString => [EmptyString]
  | String c s' =>
      if Ascii.eqb c sep then EmptyString :: split sep s'
      else match split sep s' with
           | [] => [String c EmptyString]
           | w :: ws => String c w :: ws
           end
  end.

Definition nonempty (s : string) : bool :=
  match s with EmptyString => false | _ => true end.

(** [s.split()]: the maximal runs of non-blank characters. *)
Fixpoint split_ws_go (s : string) : string * list string :=
  match s with
  | EmptyString => (EmptyString, [])
  | String c s' =>
      let '(w, ws) := split_ws_go s' in
      if is_space c then (EmptyString, if nonempty w then w :: ws else ws)
      else (String c w, ws)
  end.

Definition split_ws (s : string) : list string :=
  let '(w, ws) := split_ws_go s in if nonempty w then w :: ws else ws.

(** [sub in s] *)
Fixpoint contains (sub s : string) : bool :=
  String.prefix sub s ||
  match s with
  | EmptyString => false
  | String _ s' => contains sub s'
  end.

(** The decimal digits 0 to 9. *)
Definition is_decimal (c : ascii) : bool :=
  let n := nat_of_ascii c in (48 <=? n)%nat && (n <=? 57)%nat.

(** The characters [str.isdigit()] accepts: the decimal digits and the
    superscripts two (178), three (179) and one (185). *)
Definition is_digit (c : ascii) : bool :=
  let n := nat_of_ascii c in
  is_decimal c || (n =? 178)%nat || (n =? 179)%nat || (n =? 185)%nat.

(** [s.isdigit()] *)
Definition isdigit (s : string) : bool :=
  nonempty s && forallb is_digit (list_ascii_of_string s).

(** The value of a string of decimal digits. *)
Definition int_of_digits (s : string) : Z :=
  fold_left (fun acc c => (10 * acc + Z.of_nat (nat_of_ascii c - 48))%Z)
            (list_ascii_of_string s) 0%Z.

(** [sys.int_max_str_digits] *)
Definition int_max_str_digits : nat := 4300.

(** [int(s)] for a string [s.isdigit()] accepts; [None] is the
    [ValueError] raised for a superscript digit and for more than
    [int_max_str_digits] digits. *)
Definition int (s : string) : option Z :=
  if forallb is_decimal (list_ascii_of_string s)
     && (String.length s <=? int_max_str_digits)%nat
  then Some (int_of_digits s) else None.

(** The number of occurrences of a character. *)
Fixpoint count_char (c : ascii) (s : string) : nat :=
  match s with
  | EmptyString => 0
  | String c' s' => (if Ascii.eqb c' c then 1 else 0) + count_char c s'
  end.

(** The characters of a string, each as a one-character string (what
    iterating over a [str] yields). *)
Definition chars (s : string) : list string :=
  map (fun c => String c EmptyString) (list_ascii_of_string s).

End PyStr.

(* ================================================================== *)
(** ** Python values, exceptions and the built-ins the code calls *)
(* ================================================================== *)

Module Py.

Inductive pyval : Type :=
| PNone
| PBool (b : bool)
| PInt (z : Z)
| PFloat (q : Q)
| PStr (s : string)
| PList (l : list pyval)
| PDict (d : list (string * pyval)).

Inductive exn : Type :=
| AttributeError | TypeError | KeyError | ValueError.

Inductive result (A : Type) : Type :=
| Ok (a : A)
| Raise (e : exn).
Arguments Ok {A} a.
Arguments Raise {A} e.

Definition bind {A B} (m : result A) (k : A -> result B) : result B :=
  match m with
  | Ok a => k a
  | Raise e => Raise e
  end.

(** [for x in l] with a body that may raise: the results, in order, up to
    the first exception. *)
Fixpoint mapM {A B} (f : A -> result B) (l : list A) : result (list B) :=
  match l with
  | [] => Ok []
  | x :: l' =>
      bind (f x) (fun y => bind (mapM f l') (fun ys => Ok (y :: ys)))
  end.

(** A loop whose body may raise, threading an accumulator. *)
Fixpoint foldM {A B} (f : B -> A -> result B) (l : list A) (b : B) : result B :=
  match l with
  | [] => Ok b
  | x :: l' => bind (f b x) (fun b' => foldM f l' b')
  end.

(** *** Dictionaries *)

Definition dict := list (string * pyval).

Fixpoint dict_get (d : dict) (k : string) : option pyval :=
  match d with
  | [] => None
  | (k', v) :: d' => if String.eqb k' k then Some v else dict_get d' k
  end.

(** [d[k] = v]: overwrite in place, or append a new key. *)
Fixpoint dict_set (d : dict) (k : string) (v : pyval) : dict :=
  match d with
  | [] => [(k, v)]
  | (k', v') :: d' =>
      if String.eqb k' k then (k', v) :: d' else (k', v') :: dict_set d' k v
  end.

Definition isinstance_dict (v : pyval) : bool :=
  match v with PDict _ => true | _ => false end.

(** Truth value of an object in a condition. *)
Definition truthy (v : pyval) : bool :=
  match v with
  | PNone => false
  | PBool b => b
  | PInt z => negb (Z.eqb z 0)
  | PFloat q => negb (Qeq_bool q 0)
  | PStr s => PyStr.nonempty s
  | PList l => match l with [] => false | _ => true end
  | PDict d => match d with [] => false | _ => true end
  end.

(** [v.get(k, default)]: only dictionaries have the method. *)
Definition get (v : pyval) (k : string) (default : pyval) : result pyval :=
  match v with
  | PDict d => Ok (match dict_get d k with Some x => x | None => default end)
  | _ => Raise AttributeError
  end.

(** [v[k]] for a string key. *)
Definition getitem (v : pyval) (k : string) : result pyval :=
  match v with
  | PDict d => match dict_get d k with Some x => Ok x | None => Raise KeyError end
  | _ => Raise TypeError
  end.

(** The receiver of a [str] method ([lower], [strip], [split]). *)
Definition as_str (v : pyval) : result string :=
  match v with
  | PStr s => Ok s
  | _ => Raise AttributeError
  end.

(** [for x in v]: lists yield their items, strings their characters,
    dictionaries their keys; nothing else is iterable. *)
Definition iter (v : pyval) : result (list pyval) :=
  match v with
  | PList l => Ok l
  | PStr s => Ok (map PStr (PyStr.chars s))
  | PDict d => Ok (map (fun kv => PStr (fst kv)) d)
  | _ => Raise TypeError
  end.

(** [n >= v] for an [int] [n]. *)
Definition int_ge (n : Z) (v : pyval) : result bool :=
  match v with
  | PInt z => Ok (Z.leb z n)
  | PBool b => Ok (Z.leb (if b then 1 else 0) n)
  | PFloat q => Ok (Qle_bool q (inject_Z n))
  | _ => Raise TypeError
  end.

(** *** Sets of strings *)

Definition mem (x : string) (s : list string) : bool :=
  existsb (String.eqb x) s.

(** Building a set from the items produced by a comprehension. *)
Fixpoint set_of (l : list string) : list string :=
  match l with
  | [] => []
  | x :: l' => let s := set_of l' in if mem x s then s else x :: s
  end.

Definition intersection (a b : list string) : list string :=
  filter (fun x => mem x b) a.

Definition difference (a b : list string) : list string :=
  filter (fun x => negb (mem x b)) a.

(** *** Formatted strings

    An f-string is kept as its pieces: the literal text and the values
    substituted into it. *)
Inductive piece : Type :=
| Lit (s : string)
| Sub (v : pyval).

Definition text := list piece.

End Py.

Declare Scope py_scope.
Delimit Scope py_scope with py.
Notation "x <- m ;; k" := (Py.bind m (fun x => k))
  (at level 61, m at next level, right associativity) : py_scope.

(* ================================================================== *)
(** ** ai_processor.py: the scorer *)
(* ================================================================== *)

Module ai_processor.
Import Py.
Local Open Scope py_scope.

(** [self.model]: the generative collaborator, a prompt-to-response
    function ([generate_content(prompt).text]). *)
Record JobMatcher : Type := {
  model : string -> string
}.

(** The [analysis] dictionary of a score. *)
Record Analysis : Type := {
  match_score : Q;
  summary : text;
  strengths : list text;
  gaps : list text;
  recommendations : list text;
  matching_skills : list string;
  missing_skills : list string
}.

(** The dictionary [calculate_match_score_sync] returns. *)
Record MatchScore : Type := {
  total_score : Q;
  skill_match : Q;
  experience_match : Q;
  education_match : Q;
  ai_analysis : Analysis
}.

(** The shape a non-dictionary [job_requirements] is replaced by. *)
Definition empty_requirements : pyval :=
  PDict [("skills", PList []); ("experience", PList []); ("education", PList [])].

(** [{skill.lower() for skill in skills}] *)
Definition lower_set (skills : pyval) : result (list string) :=
  items <- iter skills ;;
  lowered <- mapM (fun skill => s <- as_str skill ;; Ok (PyStr.lower s)) items ;;
  Ok (set_of lowered).

(** [len(matching) / len(required) if required else 0.5], times 100. *)
Definition skill_match_score_of (matching required : list string) : Q :=
  (match required with
   | [] => 1 # 2
   | _ => inject_Z (Z.of_nat (List.length matching)) / inject_Z (Z.of_nat (List.length required))
   end) * 100.

(** [len(exp.get('period', '').split('-'))] *)
Definition period_tokens (exp : pyval) : result nat :=
  period <- get exp "period" (PStr "") ;;
  s <- as_str period ;;
  Ok (List.length (PyStr.split "-" s)).

(** [sum(len(exp.get('period', '').split('-')) for exp in experience)] *)
Definition candidate_years_of (experience : pyval) : result nat :=
  exps <- iter experience ;;
  tokens <- mapM period_tokens exps ;;
  Ok (fold_left Nat.add tokens 0%nat).

(** A [job_requirements] that is not a dictionary is replaced. *)
Definition coerce_requirements (job_requirements : pyval) : pyval :=
  if isinstance_dict job_requirements then job_requirements
  else empty_requirements.

(** [required_skills]: the [skills] entry, a comma-separated string being
    split into its stripped items. *)
Definition required_skills_of (job_requirements : pyval) : result pyval :=
  required_skills <- get job_requirements "skills" (PList []) ;;
  Ok (match required_skills with
      | PStr s => PList (map (fun skill => PStr (PyStr.strip skill)) (PyStr.split "," s))
      | _ => required_skills
      end).

(** The [analysis] dictionary as first built. *)
Definition base_analysis (matching missing required : list string)
    (skill_match_score : Q) : Analysis := {|
  match_score := skill_match_score;
  summary := [Lit "Candidate matches "; Sub (PInt (Z.of_nat (List.length matching)));
              Lit " out of "; Sub (PInt (Z.of_nat (List.length required)));
              Lit " required skills"];
  strengths := map (fun skill => [Lit "Proficient in "; Sub (PStr skill)]) matching;
  gaps := map (fun skill => [Lit "Missing skill: "; Sub (PStr skill)]) missing;
  recommendations :=
    match missing with
    | [] => [[Lit "Strong match with required skills"]]
    | _ => map (fun skill => [Lit "Consider learning "; Sub (PStr skill)])
               (firstn 3 missing)
    end;
  matching_skills := matching;
  missing_skills := missing
|}.

(** [analysis['match_score'] = min(100, analysis['match_score'] + 10)] and
    the strength note appended. *)
Definition add_strength (analysis : Analysis) (candidate_years : nat) : Analysis := {|
  match_score := Qmin 100 (match_score analysis + 10);
  summary := summary analysis;
  strengths := strengths analysis ++
    [[Lit "Has "; Sub (PInt (Z.of_nat candidate_years));
      Lit " years of relevant experience"]];
  gaps := gaps analysis;
  recommendations := recommendations analysis;
  matching_skills := matching_skills analysis;
  missing_skills := missing_skills analysis
|}.

(** [analysis['match_score'] = max(0, analysis['match_score'] - 10)] and
    the gap note appended. *)
Definition add_gap (analysis : Analysis) (min_years : pyval) : Analysis := {|
  match_score := Qmax 0 (match_score analysis - 10);
  summary := summary analysis;
  strengths := strengths analysis;
  gaps := gaps analysis ++
    [[Lit "Requires "; Sub min_years; Lit " years of experience"]];
  recommendations := recommendations analysis;
  matching_skills := matching_skills analysis;
  missing_skills := missing_skills analysis
|}.

(** The block after [# Adjust match score based on experience if
    available]. *)
Definition experience_adjustment (candidate_data job_requirements : pyval)
    (analysis : Analysis) : result Analysis :=
  exp_requirements <- get job_requirements "experience" (PDict []) ;;
  candidate_experience <-
    (if truthy exp_requirements then get candidate_data "experience" PNone
     else Ok exp_requirements) ;;
  if truthy exp_requirements && truthy candidate_experience then
    min_years <- get exp_requirements "minimum_years" (PInt 0) ;;
    experience <- getitem candidate_data "experience" ;;
    candidate_years <- candidate_years_of experience ;;
    enough <- int_ge (Z.of_nat candidate_years) min_years ;;
    if enough then Ok (add_strength analysis candidate_years)
    else Ok (add_gap analysis min_years)
  else Ok analysis.

(** The body of the [try] block of [calculate_match_score_sync]. *)
Definition calculate_match_score_try (self : JobMatcher)
    (candidate_data job_requirements : pyval) : result MatchScore :=
  let job_requirements := coerce_requirements job_requirements in
  required_skills <- required_skills_of job_requirements ;;
  candidate_skills <- get candidate_data "skills" (PList []) ;;
  required_skills_lower <- lower_set required_skills ;;
  candidate_skills_lower <- lower_set candidate_skills ;;
  let matching := intersection required_skills_lower candidate_skills_lower in
  let missing := difference required_skills_lower candidate_skills_lower in
  let skill_match_score := skill_match_score_of matching required_skills_lower in
  let analysis := base_analysis matching missing required_skills_lower skill_match_score in
  analysis <- experience_adjustment candidate_data job_requirements analysis ;;
  Ok {| total_score := match_score analysis;
        skill_match := skill_match_score;
        experience_match := match_score analysis;
        education_match := match_score analysis;
        ai_analysis := analysis |}.

(** The dictionary returned by the [except Exception] handler. *)
Definition fallback_score : MatchScore := {|
  total_score := 50;
  skill_match := 50;
  experience_match := 50;
  education_match := 50;
  ai_analysis := {|
    match_score := 50;
    summary := [Lit "Basic skill matching analysis"];
    strengths := [[Lit "Has some matching skills"]];
    gaps := [[Lit "Could not perform detailed analysis"]];
    recommendations := [[Lit "Review complete job requirements"]];
    matching_skills := [];
    missing_skills := []
  |}
|}.

(** [JobMatcher.calculate_match_score_sync] *)
Definition calculate_match_score_sync (self : JobMatcher)
    (candidate_data job_requirements : pyval) : MatchScore :=
  match calculate_match_score_try self candidate_data job_requirements with
  | Ok score => score
  | Raise _ => fallback_score
  end.

End ai_processor.

(* ================================================================== *)
(** ** data_processor.py: loader, cache, pre-filter and orchestrator *)
(* ================================================================== *)

Module data_processor.
Import Py.
Local Open Scope py_scope.

(** *** The tabular source

    [csv.DictReader] yields one dictionary per row (column name to cell; a
    cell missing from a short row is [None]) and may raise while it reads.
    A file that cannot be opened is [None]. *)
Inductive reader_event : Type :=
| Row (row : dict)
| ReaderError.

Definition csv_file := option (list reader_event).

Record World : Type := {
  time_time : Q;                       (* time.time() *)
  open_csv : string -> csv_file        (* the file behind a path *)
}.

Record DataProcessor : Type := {
  csv_file_path : string;
  job_matcher : ai_processor.JobMatcher;
  _cached_jobs : option (list pyval);
  _last_cache_time : Q;
  _cache_duration : Q
}.

(** [DataProcessor.__init__] *)
Definition init (path : string) (jm : ai_processor.JobMatcher) : DataProcessor := {|
  csv_file_path := path;
  job_matcher := jm;
  _cached_jobs := None;
  _last_cache_time := 0;
  _cache_duration := 300
|}.

Definition newline : ascii := "010"%char.
Definition quote : ascii := "034"%char.

(** *** [_parse_qualifications] *)
Definition education_keywords : list string :=
  ["bachelor"; "master"; "phd"; "degree"; "diploma"; "certification"].

Definition _parse_qualifications (qualifications : string) : list string :=
  flat_map
    (fun line =>
       let line_lower := PyStr.lower line in
       if existsb (fun keyword => PyStr.contains keyword line_lower) education_keywords
       then [PyStr.strip line] else [])
    (PyStr.split newline qualifications).

(** *** [_parse_experience] *)

(** The inner loop over [enumerate(words)]: the value of the first digit
    word at a position [i > 0] whose predecessor is one of the three cue
    phrases, [None] when there is none; [int(word)] may raise. *)
Fixpoint first_years (prev : string) (words : list string) : result (option Z) :=
  match words with
  | [] => Ok None
  | word :: rest =>
      if PyStr.isdigit word && mem prev ["minimum"; "at least"; "more than"]
      then match PyStr.int word with
           | Some years => Ok (Some years)
           | None => Raise ValueError
           end
      else first_years word rest
  end.

(** One turn of the loop over the lines; the state is [minimum_years] and
    [description]. *)
Definition scan_line (acc : Z * list string) (line : string)
    : result (Z * list string) :=
  let '(minimum_years, description) := acc in
  let line_lower := PyStr.lower line in
  if PyStr.contains "experience" line_lower || PyStr.contains "years" line_lower then
    let description := description ++ [PyStr.strip line] in
    match PyStr.split_ws line_lower with
    | [] => Ok (minimum_years, description)
    | w0 :: rest =>
        found <- first_years w0 rest ;;
        match found with
        | Some years => Ok (years, description)
        | None => Ok (minimum_years, description)
        end
    end
  else Ok acc.

Definition _parse_experience (qualifications : string) : result pyval :=
  acc <- foldM scan_line (PyStr.split newline qualifications) (0%Z, []) ;;
  let '(minimum_years, description) := acc in
  Ok (PDict [("minimum_years", PInt minimum_years);
             ("description", PList (map PStr description))]).

(** *** [_load_jobs_from_csv] *)

Definition row_get (row : dict) (k : string) (default : pyval) : pyval :=
  match dict_get row k with Some v => v | None => default end.

(** The body of the per-row [try]: [Ok None] is a [continue], [Ok (Some
    job)] an append. *)
Definition parse_row (row : dict) : result (option pyval) :=
  match row with
  | [] => Ok None
  | _ =>
      job_title <- as_str (row_get row "Job Title" (PStr "")) ;;
      let job_title := PyStr.strip job_title in
      role <- as_str (row_get row "Role" (PStr "")) ;;
      let role := PyStr.strip role in
      if negb (PyStr.nonempty job_title) then Ok None
      else
        description <- as_str (row_get row "Description" (PStr "")) ;;
        let description := PyStr.strip description in
        qualifications <- as_str (row_get row "Qualifications" (PStr "")) ;;
        let qualifications := PyStr.strip qualifications in
        skills_text <- as_str (row_get row "skills" (PStr "")) ;;
        let skills_text := PyStr.strip skills_text in
        let skills :=
          if PyStr.nonempty skills_text then
            map (fun skill => PyStr.strip (PyStr.strip_chars (String quote " []") skill))
                (map PyStr.strip (PyStr.split "," skills_text))
          else [] in
        experience <- _parse_experience qualifications ;;
        Ok (Some (PDict [
          ("title", PStr job_title);
          ("job_title", PStr job_title);
          ("role", PStr role);
          ("description", PStr description);
          ("qualifications", PStr qualifications);
          ("company", row_get row "Company" (PStr "Not specified"));
          ("salary_range", row_get row "Salary Range" (PStr "Not specified"));
          ("work_type", row_get row "Work Type" (PStr "Not specified"));
          ("requirements", PDict [
             ("skills", PList (map PStr skills));
             ("experience", experience);
             ("education", PList (map PStr (_parse_qualifications qualifications)))])]))
  end.

(** [for i, row in enumerate(reader)]: the next row is fetched (which may
    raise) before the limit on [i] is tested; [None] is an exception that
    leaves the loop. *)
Fixpoint load_rows (i : nat) (events : list reader_event) (jobs : list pyval)
    : option (list pyval) :=
  match events with
  | [] => Some jobs
  | ReaderError :: _ => None
  | Row row :: rest =>
      if (100 <=? i)%nat then Some jobs
      else match parse_row row with
           | Ok (Some job) => load_rows (S i) rest (jobs ++ [job])
           | Ok None => load_rows (S i) rest jobs
           | Raise _ => load_rows (S i) rest jobs
           end
  end.

Definition _load_jobs_from_csv (file : csv_file) : list pyval :=
  match file with
  | None => []
  | Some events =>
      match load_rows 0 events [] with
      | Some jobs => jobs
      | None => []
      end
  end.

(** *** [_get_cached_jobs]

    The list returned is the cached list itself. *)
Definition _get_cached_jobs (self : DataProcessor) (w : World)
    : DataProcessor * list pyval :=
  let current_time := time_time w in
  match _cached_jobs self with
  | Some jobs =>
      if Qle_bool (current_time - _last_cache_time self) (_cache_duration self)
      then (self, jobs)
      else
        let jobs := _load_jobs_from_csv (open_csv w (csv_file_path self)) in
        ({| csv_file_path := csv_file_path self;
            job_matcher := job_matcher self;
            _cached_jobs := Some jobs;
            _last_cache_time := current_time;
            _cache_duration := _cache_duration self |}, jobs)
  | None =>
      let jobs := _load_jobs_from_csv (open_csv w (csv_file_path self)) in
      ({| csv_file_path := csv_file_path self;
          job_matcher := job_matcher self;
          _cached_jobs := Some jobs;
          _last_cache_time := current_time;
          _cache_duration := _cache_duration self |}, jobs)
  end.

(** *** [_pre_filter_jobs] *)

Definition tech_keywords : list string :=
  ["developer"; "engineer"; "programmer"; "software"; "web"; "full stack";
   "backend"; "frontend"; "data scientist"; "devops"; "qa"; "test";
   "analyst"; "architect"; "specialist"; "consultant"; "manager";
   "developer"; "tech"; "it"; "information"; "system"; "application";
   "cloud"; "security"; "network"; "support"; "administrator"; "lead";
   "head"; "chief"; "director"; "coordinator"; "designer"; "marketing";
   "digital"; "content"; "social media"; "data"].

Definition tech_words : list string :=
  ["tech"; "it"; "software"; "data"; "digital"; "marketing"; "social"].

(** [{skill.lower().strip() for skill in candidate_data.get('skills', [])}] *)
Definition candidate_skills_of (candidate_data : pyval) : result (list string) :=
  skills <- get candidate_data "skills" (PList []) ;;
  items <- iter skills ;;
  cleaned <- mapM (fun skill => s <- as_str skill ;; Ok (PyStr.strip (PyStr.lower s))) items ;;
  Ok (set_of cleaned).

(** [is_tech_job] *)
Definition is_tech_job (job : pyval) : result bool :=
  title <- get job "title" (PStr "") ;;
  title <- as_str title ;;
  let job_title_lower := PyStr.lower title in
  role <- get job "role" (PStr "") ;;
  role <- as_str role ;;
  let role_lower := PyStr.lower role in
  Ok (existsb (fun keyword => PyStr.contains keyword job_title_lower) tech_keywords
      || existsb (fun keyword => PyStr.contains keyword role_lower) tech_keywords
      || existsb (fun tech_word => PyStr.contains tech_word job_title_lower) tech_words
      || existsb (fun tech_word => PyStr.contains tech_word role_lower) tech_words).

(** [skill.lower().strip()], then stripped of double quotes and square
    brackets. *)
Definition clean_skill (s : string) : string :=
  PyStr.strip_chars (String quote "[]") (PyStr.strip (PyStr.lower s)).

(** The [job_skills] set of a job. *)
Definition job_skills_of (job : pyval) : result (list string) :=
  requirements <- get job "requirements" (PDict []) ;;
  if isinstance_dict requirements then
    skills_list <- get requirements "skills" (PList []) ;;
    match skills_list with
    | PList l =>
        cleaned <- mapM (fun skill => s <- as_str skill ;; Ok (clean_skill s)) l ;;
        Ok (set_of cleaned)
    | PStr s => Ok (set_of (map clean_skill (PyStr.split "," s)))
    | _ => Ok []
    end
  else Ok [].

(** [len(common_skills) / len(job_skills)] *)
Definition skill_score_of (candidate_skills job_skills : list string) : Q :=
  inject_Z (Z.of_nat (List.length (intersection candidate_skills job_skills)))
  / inject_Z (Z.of_nat (List.length job_skills)).

(** The score a job is accepted with, or [None] when it is passed over. *)
Definition preliminary (candidate_skills job_skills : list string) : option pyval :=
  match job_skills with
  | [] => Some (PInt 50)
  | _ =>
      let skill_score := skill_score_of candidate_skills job_skills in
      if negb (Qle_bool skill_score 0) || (List.length job_skills <=? 5)%nat
      then Some (PFloat (skill_score * 100))
      else None
  end.

(** [job['preliminary_score'] = v] *)
Definition setitem (job : pyval) (k : string) (v : pyval) : result pyval :=
  match job with
  | PDict d => Ok (PDict (dict_set d k v))
  | _ => Raise TypeError
  end.

(** One iteration of the loop over the catalog: [Ok None] when the job is
    skipped, [Ok (Some job')] when it is accepted, [job'] being the same
    dictionary after the assignment to its [preliminary_score] key. *)
Definition filter_job (candidate_skills : list string) (job : pyval)
    : result (option pyval) :=
  tech <- is_tech_job job ;;
  if negb tech then Ok None
  else
    job_skills <- job_skills_of job ;;
    match preliminary candidate_skills job_skills with
    | Some score => job' <- setitem job "preliminary_score" score ;; Ok (Some job')
    | None => Ok None
    end.

(** The loop over [enumerate(jobs)].  The job dictionaries are shared with
    the caller's list, so the loop returns them as they are afterwards,
    next to the references (positions) appended to [filtered_jobs]; an
    exception leaves the assignments already made in place. *)
Fixpoint filter_loop (candidate_skills : list string) (i : nat) (jobs : list pyval)
    : list pyval * result (list nat) :=
  match jobs with
  | [] => ([], Ok [])
  | job :: rest =>
      match filter_job candidate_skills job with
      | Raise e => (jobs, Raise e)
      | Ok None =>
          let '(rest', r) := filter_loop candidate_skills (S i) rest in
          (job :: rest', r)
      | Ok (Some job') =>
          let '(rest', r) := filter_loop candidate_skills (S i) rest in
          (job' :: rest', kept <- r ;; Ok (i :: kept))
      end
  end.

(** A number as compared by [<]. *)
Definition as_number (v : pyval) : result Q :=
  match v with
  | PInt z => Ok (inject_Z z)
  | PFloat q => Ok q
  | PBool b => Ok (if b then 1 else 0)
  | _ => Raise TypeError
  end.

(** [x['preliminary_score']] for the job referred to by [i]. *)
Definition sort_key (jobs : list pyval) (i : nat) : result (Q * nat) :=
  match nth_error jobs i with
  | Some job =>
      v <- getitem job "preliminary_score" ;;
      q <- as_number v ;;
      Ok (q, i)
  | None => Raise KeyError
  end.

(** [list.sort(key=..., reverse=True)]: a stable sort into non-increasing
    key order; an item moves only past items with a strictly larger key. *)
Fixpoint insert_desc {A} (x : Q * A) (l : list (Q * A)) : list (Q * A) :=
  match l with
  | [] => [x]
  | y :: l' =>
      if Qle_bool (fst y) (fst x) then x :: l
      else y :: insert_desc x l'
  end.

Fixpoint sort_desc {A} (l : list (Q * A)) : list (Q * A) :=
  match l with
  | [] => []
  | x :: l' => insert_desc x (sort_desc l')
  end.

(** The argument of the [Skills:] debugging line. *)
Definition debug_skills (job : pyval) : result pyval :=
  requirements <- get job "requirements" (PDict []) ;;
  get requirements "skills" (PList []).

Definition deref (jobs : list pyval) (i : nat) : pyval :=
  nth i jobs PNone.

(** [_pre_filter_jobs(jobs, candidate_data)]: the job dictionaries after
    the call, and the references returned (or the exception raised). *)
Definition _pre_filter_jobs (jobs : list pyval) (candidate_data : pyval)
    : list pyval * result (list nat) :=
  match candidate_skills_of candidate_data with
  | Raise e => (jobs, Raise e)
  | Ok candidate_skills =>
      let '(jobs', r) := filter_loop candidate_skills 0 jobs in
      (jobs',
       filtered_jobs <- r ;;
       keyed <- mapM (sort_key jobs') filtered_jobs ;;
       let filtered_jobs := map snd (sort_desc keyed) in
       let result := firstn 50 filtered_jobs in
       _ <- mapM (fun i => debug_skills (deref jobs' i)) (firstn 5 result) ;;
       Ok result)
  end.

(** *** [match_candidate_with_jobs] *)

(** [l[start:stop]] for integer bounds: a negative bound counts from the
    end, and both are clamped to the list. *)
Definition clamp_index (len i : Z) : Z :=
  if (i <? 0)%Z then Z.max 0 (i + len) else Z.min i len.

Definition slice {A} (l : list A) (start stop : Z) : list A :=
  let len := Z.of_nat (List.length l) in
  let a := clamp_index len start in
  let b := clamp_index len stop in
  firstn (Z.to_nat (b - a)) (skipn (Z.to_nat a) l).

(** A [match_obj]. *)
Record MatchObj : Type := {
  job : pyval;
  match_score : Q;
  skill_match : Q;
  experience_match : Q;
  education_match : Q;
  ai_analysis : ai_processor.Analysis
}.

Record Pagination : Type := {
  total : Z;
  page : Z;
  per_page : Z;
  total_pages : Z
}.

Record PagedMatches : Type := {
  matches : list MatchObj;
  pagination : Pagination
}.

(** The body of the per-job [try]. *)
Definition match_job (matcher : ai_processor.JobMatcher)
    (candidate_data job : pyval) : result MatchObj :=
  _ <- get job "title" PNone ;;
  _ <- debug_skills job ;;
  requirements <- getitem job "requirements" ;;
  let score :=
    ai_processor.calculate_match_score_sync matcher candidate_data requirements in
  title <- get job "title" (PStr "") ;;
  company <- get job "company" (PStr "Not specified") ;;
  role <- get job "role" (PStr "") ;;
  salary_range <- get job "salary_range" (PStr "Not specified") ;;
  work_type <- get job "work_type" (PStr "Not specified") ;;
  requirements' <- get job "requirements" (PDict []) ;;
  Ok {| job := PDict [("title", title); ("company", company); ("role", role);
                      ("salary_range", salary_range); ("work_type", work_type);
                      ("requirements", requirements')];
        match_score := ai_processor.total_score score;
        skill_match := ai_processor.skill_match score;
        experience_match := ai_processor.experience_match score;
        education_match := ai_processor.education_match score;
        ai_analysis := ai_processor.ai_analysis score |}.

(** [for job in page_jobs: try: ... except Exception: continue] *)
Fixpoint match_jobs (matcher : ai_processor.JobMatcher)
    (candidate_data : pyval) (page_jobs : list pyval) : list MatchObj :=
  match page_jobs with
  | [] => []
  | job :: rest =>
      match match_job matcher candidate_data job with
      | Ok m => m :: match_jobs matcher candidate_data rest
      | Raise _ => match_jobs matcher candidate_data rest
      end
  end.

(** The value returned by the outer [except Exception] handler. *)
Definition no_matches (page per_page : Z) : PagedMatches := {|
  matches := [];
  pagination := {| total := 0; page := page; per_page := per_page; total_pages := 0 |}
|}.

Definition with_cached_jobs (self : DataProcessor) (jobs : list pyval) : DataProcessor := {|
  csv_file_path := csv_file_path self;
  job_matcher := job_matcher self;
  _cached_jobs := Some jobs;
  _last_cache_time := _last_cache_time self;
  _cache_duration := _cache_duration self
|}.

(** [match_candidate_with_jobs(candidate_data, page, per_page, use_ai)]: the
    processor after the call and the value returned.  The dictionaries
    the pre-filter assigns to are those of the cached list, which is why
    the cache is written back. *)
Definition match_candidate_with_jobs (self : DataProcessor) (w : World)
    (candidate_data : pyval) (page per_page : Z) (use_ai : bool)
    : DataProcessor * PagedMatches :=
  match get candidate_data "skills" (PList []) with
  | Raise _ => (self, no_matches page per_page)
  | Ok _ =>
      let '(self, jobs) := _get_cached_jobs self w in
      let '(jobs, r) := _pre_filter_jobs jobs candidate_data in
      let self := with_cached_jobs self jobs in
      match r with
      | Raise _ => (self, no_matches page per_page)
      | Ok filtered_jobs =>
          let total_jobs := Z.of_nat (List.length filtered_jobs) in
          if (per_page =? 0)%Z then (self, no_matches page per_page)
          else
            let total_pages := ((total_jobs + per_page - 1) / per_page)%Z in
            let start_idx := ((page - 1) * per_page)%Z in
            let end_idx := (start_idx + per_page)%Z in
            let page_jobs := slice filtered_jobs start_idx end_idx in
            let matches :=
              match_jobs (job_matcher self) candidate_data (map (deref jobs) page_jobs) in
            (self, {| matches := matches;
                      pagination := {| total := total_jobs; page := page;
                                       per_page := per_page;
                                       total_pages := total_pages |} |})
      end
  end.

(** *** [get_skills_distribution] *)

(** What a value is as the key of a dictionary: [True], [1] and [1.0] are
    one key, and a list or a dictionary is none. *)
Inductive key_class : Type :=
| KNone
| KNum (q : Q)
| KStr (s : string).

Definition class_of (v : pyval) : option key_class :=
  match v with
  | PNone => Some KNone
  | PBool b => Some (KNum (if b then 1 else 0))
  | PInt z => Some (KNum (inject_Z z))
  | PFloat q => Some (KNum q)
  | PStr s => Some (KStr s)
  | PList _ => None
  | PDict _ => None
  end.

Definition class_eqb (a b : key_class) : bool :=
  match a, b with
  | KNone, KNone => true
  | KNum x, KNum y => Qeq_bool x y
  | KStr s, KStr t => String.eqb s t
  | _, _ => false
  end.

Definition hashable (v : pyval) : bool :=
  match class_of v with Some _ => true | None => false end.

(** Two values are the same key. *)
Definition key_eqb (a b : pyval) : bool :=
  match class_of a, class_of b with
  | Some x, Some y => class_eqb x y
  | _, _ => false
  end.

(** [skills_count[skill] = skills_count.get(skill, 0) + 1] for a hashable
    [skill]: a key already present keeps its place and its first spelling. *)
Fixpoint increment (skills_count : list (pyval * nat)) (skill : pyval)
    : list (pyval * nat) :=
  match skills_count with
  | [] => [(skill, 1%nat)]
  | (k, n) :: rest =>
      if key_eqb k skill then (k, S n) :: rest
      else (k, n) :: increment rest skill
  end.

Definition count_skill (skills_count : list (pyval * nat)) (skill : pyval)
    : result (list (pyval * nat)) :=
  if hashable skill then Ok (increment skills_count skill) else Raise TypeError.

(** The inner loop, over [job['requirements']['skills']]. *)
Definition count_job (skills_count : list (pyval * nat)) (job : pyval)
    : result (list (pyval * nat)) :=
  requirements <- getitem job "requirements" ;;
  skills <- getitem requirements "skills" ;;
  items <- iter skills ;;
  foldM count_skill items skills_count.

(** [get_skills_distribution]: the dictionary returned, as its items in
    order. *)
Definition get_skills_distribution (self : DataProcessor) (w : World)
    : DataProcessor * result (list (pyval * nat)) :=
  let '(self, jobs) := _get_cached_jobs self w in
  (self,
   skills_count <- foldM count_job jobs [] ;;
   Ok (map snd
         (sort_desc
            (map (fun item => (inject_Z (Z.of_nat (snd item)), item)) skills_count)))).

End data_processor.

(* ================================================================== *)
(** ** ai_processor.py: the other methods of JobMatcher *)
(* ================================================================== *)

Module job_matcher.
Import Py.
Local Open Scope py_scope.

(** [str(n)] for a natural number. *)
Definition str_of_nat (n : nat) : string :=
  NilEmpty.string_of_uint (Nat.to_uint n).

(** [round(x, 2)]: the nearest multiple of a hundredth, an exact tie going
    to the even one. *)
Definition round_half_even (x : Q) : Z :=
  let f := Qfloor x in
  let r := x - inject_Z f in
  if Qle_bool r (1 # 2) then
    if Qeq_bool r (1 # 2) then (if Z.even f then f else (f + 1)%Z) else f
  else (f + 1)%Z.

Definition round2 (x : Q) : Q := inject_Z (round_half_even (x * 100)) / 100.

(** [k in v] for a string [k]: a key of a dictionary, a substring of a
    string, an item of a list. *)
Definition contains_str (v : pyval) (k : string) : result bool :=
  match v with
  | PDict d => Ok (match dict_get d k with Some _ => true | None => false end)
  | PStr s => Ok (PyStr.contains k s)
  | PList l => Ok (existsb (fun x => match x with PStr s => String.eqb s k | _ => false end) l)
  | _ => Raise TypeError
  end.

(** One turn of the loop of [calculate_years_of_experience]. *)
Definition entry_years (exp : pyval) : result nat :=
  has_period <- contains_str exp "period" ;;
  if has_period then
    period <- getitem exp "period" ;;
    s <- as_str period ;;
    Ok (List.length (PyStr.split "-" s))
  else Ok 0%nat.

(** [calculate_years_of_experience] *)
Definition calculate_years_of_experience (experience : pyval) : result nat :=
  exps <- iter experience ;;
  years <- mapM entry_years exps ;;
  Ok (fold_left Nat.add years 0%nat).

(** [determine_experience_level], on the integer the method above returns. *)
Definition determine_experience_level (years : nat) : string :=
  if (years <? 2)%nat then "Entry Level"
  else if (years <? 5)%nat then "Mid Level"
  else if (years <? 8)%nat then "Senior"
  else if (years <? 12)%nat then "Lead"
  else "Principal".

(** The [levels] table of [get_highest_education_level]. *)
Definition levels : list (string * nat) :=
  [("phd", 5%nat); ("master", 4%nat); ("bachelor", 3%nat); ("associate", 2%nat);
   ("high school", 1%nat)].

(** The inner loop over [levels.items()] for one degree. *)
Definition raise_level (highest_level : nat) (degree : string) : nat :=
  fold_left
    (fun highest lv =>
       if PyStr.contains (fst lv) degree && (highest <? snd lv)%nat then snd lv
       else highest)
    levels highest_level.

(** [edu.get('degree', '').lower()] *)
Definition degree_of (edu : pyval) : result string :=
  degree <- get edu "degree" (PStr "") ;;
  s <- as_str degree ;;
  Ok (PyStr.lower s).

(** [get_highest_education_level] *)
Definition get_highest_education_level (education : pyval) : result nat :=
  edus <- iter education ;;
  degrees <- mapM degree_of edus ;;
  Ok (fold_left raise_level degrees 0%nat).

(** An entry of [self.global_job_categories]. *)
Record CategoryRequirements : Type := {
  req_skills : list string;
  req_departments : list string;
  req_experience_levels : list string;
  req_education : list string
}.

Definition global_job_categories : list (string * CategoryRequirements) :=
  [("Software Development",
    {| req_skills := ["programming"; "software development"; "coding"; "algorithms";
                      "data structures"; "version control"; "testing"; "debugging";
                      "problem solving"];
       req_departments := ["Engineering"; "Technology"; "IT"; "Research & Development"];
       req_experience_levels := ["Entry Level"; "Mid Level"; "Senior"; "Lead"; "Architect"];
       req_education := ["Computer Science"; "Software Engineering";
                         "Information Technology"] |});
   ("Data Science",
    {| req_skills := ["data analysis"; "machine learning"; "statistics"; "python"; "r";
                      "sql"; "data visualization"; "big data"; "predictive modeling"];
       req_departments := ["Data Science"; "Analytics"; "Research"; "Technology"];
       req_experience_levels := ["Entry Level"; "Mid Level"; "Senior"; "Lead"; "Principal"];
       req_education := ["Data Science"; "Computer Science"; "Statistics"; "Mathematics"] |});
   ("Business Analysis",
    {| req_skills := ["business analysis"; "requirements gathering"; "process improvement";
                      "project management"; "data analysis"; "communication";
                      "documentation"; "stakeholder management"];
       req_departments := ["Business"; "Operations"; "Strategy"; "Consulting"];
       req_experience_levels := ["Entry Level"; "Mid Level"; "Senior"; "Lead"; "Manager"];
       req_education := ["Business Administration"; "Management"; "Economics"; "Finance"] |});
   ("Marketing",
    {| req_skills := ["digital marketing"; "social media"; "content creation"; "analytics";
                      "seo"; "campaign management"; "brand management"; "market research"];
       req_departments := ["Marketing"; "Digital"; "Communications"; "Brand"];
       req_experience_levels := ["Entry Level"; "Mid Level"; "Senior"; "Lead"; "Director"];
       req_education := ["Marketing"; "Communications"; "Business"; "Media Studies"] |})].

(** A dictionary appended to [matches]. *)
Record GlobalMatch : Type := {
  category : string;
  match_score : Q;
  departments : list string;
  experience_level : string;
  required_skills : list string;
  ai_analysis : pyval
}.

(** [len(matching_skills) / len(required_skill_set) if required_skill_set
    else 0.5] *)
Definition skill_share (matching required : list string) : Q :=
  match required with
  | [] => 1 # 2
  | _ => inject_Z (Z.of_nat (List.length matching))
         / inject_Z (Z.of_nat (List.length required))
  end.

(** The weighted sum, before rounding. *)
Definition weighted_score (skill_match : Q) (experience_ok education_ok : bool) : Q :=
  (skill_match * (1 # 2)
   + (if experience_ok then 1 else 1 # 2) * (3 # 10)
   + (if education_ok then 1 else 1 # 2) * (2 # 10)) * 100.

(** The test of the education weight: a listed field of study, lower-cased,
    must occur in [str(education_level)]. *)
Definition education_ok (education_level : nat) (requirements : CategoryRequirements) : bool :=
  existsb
    (fun edu => PyStr.contains (PyStr.lower edu)
                  (PyStr.lower (str_of_nat education_level)))
    (req_education requirements).

(** The dictionary used when the analysis holds nothing for a category. *)
Definition default_analysis (category experience_level : string)
    (matching missing required : list string) : pyval :=
  PDict [("summary", PStr ("Quick analysis for " ++ category ++ " roles"));
         ("strengths",
          PList [PStr ("Experience level: " ++ experience_level);
                 PStr ("Matching skills: " ++ str_of_nat (List.length matching)
                       ++ " out of " ++ str_of_nat (List.length required))]);
         ("gaps", PList []);
         ("recommendations",
          PList [PStr "Consider gaining more experience in this field";
                 PStr "Look for opportunities to develop required skills"]);
         ("matching_skills", PList (map PStr matching));
         ("missing_skills", PList (map PStr missing))].

(** One turn of the loop over the categories. *)
Definition category_match (all_categories_analysis : pyval)
    (candidate_skill_set : list string) (experience_level : string) (education_level : nat)
    (entry : string * CategoryRequirements) : result GlobalMatch :=
  let '(category, requirements) := entry in
  let required_skill_set := set_of (map PyStr.lower (req_skills requirements)) in
  let matching_skills := intersection candidate_skill_set required_skill_set in
  let missing_skills := difference required_skill_set candidate_skill_set in
  let skill_match := skill_share matching_skills required_skill_set in
  let match_score :=
    weighted_score skill_match
      (mem experience_level (req_experience_levels requirements))
      (education_ok education_level requirements) in
  ai_analysis <- get all_categories_analysis category
                   (default_analysis category experience_level
                      matching_skills missing_skills required_skill_set) ;;
  Ok {| category := category;
        match_score := round2 match_score;
        departments := req_departments requirements;
        experience_level := experience_level;
        required_skills := req_skills requirements;
        ai_analysis := ai_analysis |}.

(** [generate_global_matches], given the value [_batch_analyze_categories]
    returned: whatever the generative model's answer parses to, or the empty
    dictionary when the call or the parsing fails. *)
Definition generate_global_matches (all_categories_analysis candidate_data : pyval)
    : result (list GlobalMatch) :=
  skills <- getitem candidate_data "skills" ;;
  items <- iter skills ;;
  candidate_skills <- mapM (fun skill => s <- as_str skill ;; Ok (PyStr.lower s)) items ;;
  candidate_experience <- getitem candidate_data "experience" ;;
  candidate_education <- getitem candidate_data "education" ;;
  years_of_experience <- calculate_years_of_experience candidate_experience ;;
  let experience_level := determine_experience_level years_of_experience in
  education_level <- get_highest_education_level candidate_education ;;
  let candidate_skill_set := set_of candidate_skills in
  matches <- mapM (category_match all_categories_analysis candidate_skill_set
                     experience_level education_level)
                  global_job_categories ;;
  let keyed := map (fun m => (match_score m, m)) matches in
  Ok (firstn 5 (map snd (data_processor.sort_desc keyed))).

End job_matcher.

(* ================================================================== *)
(** ** ai_processor.py: the line scanners of ResumeProcessor *)
(* ================================================================== *)

Module resume_processor.
Import Py.
Local Open Scope py_scope.

(** [range(1990, 2025)] *)
Definition year_range : list nat := seq 1990 35.

(** [any(year in line for year in [str(y) for y in range(1990, 2025)])] *)
Definition mentions_year (line : string) : bool :=
  existsb (fun year => PyStr.contains year line)
          (map job_matcher.str_of_nat year_range).

Definition job_titles : list string :=
  ["engineer"; "developer"; "manager"; "analyst"; "consultant"].

(** [any(title in line.lower() for title in [...])] *)
Definition mentions_title (line : string) : bool :=
  existsb (fun title => PyStr.contains title (PyStr.lower line)) job_titles.

(** An experience entry under construction: a dictionary whose values are
    all strings. *)
Definition entry := list (string * string).

Fixpoint entry_get (e : entry) (k : string) : option string :=
  match e with
  | [] => None
  | (k', v) :: e' => if String.eqb k' k then Some v else entry_get e' k
  end.

Fixpoint entry_set (e : entry) (k v : string) : entry :=
  match e with
  | [] => [(k, v)]
  | (k', v') :: e' =>
      if String.eqb k' k then (k', v) :: e' else (k', v') :: entry_set e' k v
  end.

Definition to_dict (e : entry) : pyval :=
  PDict (map (fun kv => (fst kv, PStr (snd kv))) e).

(** [if current: entries.append(current)] *)
Definition flush {A} (entries : list (list A)) (current : list A) : list (list A) :=
  match current with
  | [] => entries
  | _ => entries ++ [current]
  end.

(** One turn of the loop of [extract_experience]; the state is
    [experience] and [current_exp]. *)
Definition experience_line (state : list entry * entry) (line : string)
    : list entry * entry :=
  let '(experience, current_exp) := state in
  if mentions_year line then
    (flush experience current_exp, [("period", line)])
  else if mentions_title line then
    (experience,
     match entry_get current_exp "title" with
     | None => entry_set current_exp "title" line
     | Some _ => current_exp
     end)
  else
    match current_exp with
    | [] => state
    | _ =>
        (experience,
         match entry_get current_exp "description" with
         | None => entry_set current_exp "description" line
         | Some description =>
             entry_set current_exp "description" (description ++ " " ++ line)
         end)
    end.

Definition experience_entries (text : string) : list entry :=
  let '(experience, current_exp) :=
    fold_left experience_line (PyStr.split data_processor.newline text) ([], []) in
  flush experience current_exp.

(** [extract_experience] *)
Definition extract_experience (text : string) : pyval :=
  PList (map to_dict (experience_entries text)).

Definition edu_keywords : list string :=
  ["bachelor"; "master"; "phd"; "degree"; "university"; "college"].

(** [any(keyword in line_lower for keyword in edu_keywords)] *)
Definition mentions_education (line : string) : bool :=
  existsb (fun keyword => PyStr.contains keyword (PyStr.lower line)) edu_keywords.

(** [next((y for y in range(1990, 2025) if str(y) in line), None)] *)
Definition year_of_line (line : string) : pyval :=
  match find (fun y => PyStr.contains (job_matcher.str_of_nat y) line) year_range with
  | Some y => PInt (Z.of_nat y)
  | None => PNone
  end.

(** One turn of the loop of [extract_education]; the state is [education]
    and [current_edu]. *)
Definition education_line (state : list dict * dict) (line : string)
    : list dict * dict :=
  let '(education, current_edu) := state in
  if mentions_education line then
    (flush education current_edu,
     [("degree", PStr line); ("year", year_of_line line)])
  else
    match current_edu with
    | [] => state
    | _ =>
        match dict_get current_edu "institution" with
        | None => (education, dict_set current_edu "institution" (PStr line))
        | Some _ => state
        end
    end.

Definition education_entries (text : string) : list dict :=
  let '(education, current_edu) :=
    fold_left education_line (PyStr.split data_processor.newline text) ([], []) in
  flush education current_edu.

(** [extract_education] *)
Definition extract_education (text : string) : pyval :=
  PList (map PDict (education_entries text)).

(** [s.endswith(suffix)] *)
Fixpoint endswith (suffix s : string) : bool :=
  String.eqb s suffix ||
  match s with
  | EmptyString => false
  | String _ s' => endswith suffix s'
  end.

Inductive resume_format : Type := Pdf | Docx.

(** The choice of the text extractor at the head of [analyze_resume_sync];
    [None] is its [ValueError] for an unsupported file format. *)
Definition extractor_of (file_path : string) : option resume_format :=
  if endswith ".pdf" file_path then Some Pdf
  else if endswith ".docx" file_path then Some Docx
  else None.

End resume_processor.

(* ================================================================== *)
(** ** app.py: the check of an uploaded file name *)
(* ================================================================== *)

Module app.
Import Py.
Local Open Scope py_scope.

Definition ALLOWED_EXTENSIONS : list string := ["pdf"; "docx"].

(** The cut of [s.rsplit(sep, 1)]: what stands before and after the last
    separator, if there is one. *)
Fixpoint rsplit_last (sep : ascii) (s : string) : option (string * string) :=
  match s with
  | EmptyString => None
  | String c s' =>
      match rsplit_last sep s' with
      | Some (a, b) => Some (String c a, b)
      | None => if Ascii.eqb c sep then Some (EmptyString, s') else None
      end
  end.

(** [s.rsplit(sep, 1)] *)
Definition rsplit1 (sep : ascii) (s : string) : list string :=
  match rsplit_last sep s with
  | Some (a, b) => [a; b]
  | None => [s]
  end.

(** [allowed_file]; [None] is the [IndexError] of the subscript [[1]]. *)
Definition allowed_file (filename : string) : option bool :=
  if PyStr.contains "." filename then
    match nth_error (rsplit1 "." filename) 1 with
    | Some extension => Some (mem (PyStr.lower extension) ALLOWED_EXTENSIONS)
    | None => None
    end
  else Some false.

End app.

(* ================================================================== *)
(** ** Vocabulary of the properties *)
(* ================================================================== *)

Module properties.
Import Py.

(** A score lies in the closed interval from 0 to 100. *)
Definition in_range (q : Q) : Prop := (0 <= q /\ q <= 100)%Q.

(** A job dictionary that carries a [requirements] dictionary, as every
    job built by the loader does. *)
Definition has_requirements (job : pyval) : bool :=
  match job with
  | PDict d =>
      match dict_get d "requirements" with
      | Some (PDict _) => true
      | _ => false
      end
  | _ => false
  end.

(** The title of a job dictionary is a non-empty string. *)
Definition has_title (job : pyval) : bool :=
  match job with
  | PDict d =>
      match dict_get d "title" with
      | Some (PStr t) => PyStr.nonempty t
      | _ => false
      end
  | _ => false
  end.

(** The jobs appended for a list of rows, in row order. *)
Definition accepted_jobs (rows : list dict) : list pyval :=
  flat_map
    (fun row =>
       match data_processor.parse_row row with
       | Ok (Some job) => [job]
       | _ => []
       end)
    rows.

(** The row is one the loader appends a job for (its title is not blank). *)
Definition accepted (row : dict) : bool :=
  match data_processor.parse_row row with
  | Ok (Some _) => true
  | _ => false
  end.

(** Two states of one job object that differ at most in the value stored
    under the key [k]. *)
Definition agree_except (k : string) (job job' : pyval) : Prop :=
  job' = job \/
  exists d d', job = PDict d /\ job' = PDict d' /\
    forall k', k' <> k -> dict_get d' k' = dict_get d k'.

(** Two processors that differ at most in their matcher (and so in the
    generative model behind it). *)
Definition same_but_matcher (p1 p2 : data_processor.DataProcessor) : Prop :=
  data_processor.csv_file_path p1 = data_processor.csv_file_path p2 /\
  data_processor._cached_jobs p1 = data_processor._cached_jobs p2 /\
  data_processor._last_cache_time p1 = data_processor._last_cache_time p2 /\
  data_processor._cache_duration p1 = data_processor._cache_duration p2.

(** The rows a reader delivers before it stops or fails. *)
Fixpoint rows_read (events : list data_processor.reader_event) : list dict :=
  match events with
  | data_processor.Row row :: rest => row :: rows_read rest
  | _ => []
  end.

(** Keys that never increase from one item to the next. *)
Definition desc {A} (x y : Q * A) : Prop := (fst y <= fst x)%Q.

(** The item carries the key [q]. *)
Definition same_key {A} (q : Q) (x : Q * A) : bool := Qeq_bool (fst x) q.

(** Every job of the cache, if there is one, carries its requirements:
    the state of a processor whose cache was filled by the loader. *)
Definition cache_ok (self : data_processor.DataProcessor) : bool :=
  match data_processor._cached_jobs self with
  | Some jobs => forallb has_requirements jobs
  | None => true
  end.

(** The jobs the pre-filter returns for a candidate: none when it raises. *)
Definition filtered_jobs_of (jobs : list pyval) (c : pyval) : list nat :=
  match snd (data_processor._pre_filter_jobs jobs c) with
  | Ok out => out
  | Raise _ => []
  end.

(** The duplicate-free list [s] holds the items of [l]: [s] is [l] as a
    set. *)
Definition is_set_of (s l : list string) : Prop :=
  NoDup s /\ forall x, In x s <-> In x l.

(** A match object made from the job dictionary [job]: it repeats the
    job's title, company, role, salary range, work type and requirements,
    and its scores and analysis are those the scorer computes for the
    candidate and the requirements of that job. *)
Definition scored_by (matcher : ai_processor.JobMatcher) (c job : pyval)
    (m : data_processor.MatchObj) : Prop :=
  exists requirements,
    getitem job "requirements" = Ok requirements /\
    getitem (data_processor.job m) "requirements" = Ok requirements /\
    getitem (data_processor.job m) "title" = get job "title" (PStr "") /\
    getitem (data_processor.job m) "company"
      = get job "company" (PStr "Not specified") /\
    getitem (data_processor.job m) "role" = get job "role" (PStr "") /\
    getitem (data_processor.job m) "salary_range"
      = get job "salary_range" (PStr "Not specified") /\
    getitem (data_processor.job m) "work_type"
      = get job "work_type" (PStr "Not specified") /\
    let score := ai_processor.calculate_match_score_sync matcher c requirements in
    data_processor.match_score m = ai_processor.total_score score /\
    data_processor.skill_match m = ai_processor.skill_match score /\
    data_processor.experience_match m = ai_processor.experience_match score /\
    data_processor.education_match m = ai_processor.education_match score /\
    data_processor.ai_analysis m = ai_processor.ai_analysis score.

(** A word without blank characters. *)
Definition no_space (w : string) : Prop :=
  forallb (fun c => negb (PyStr.is_space c)) (list_ascii_of_string w) = true.

Definition is_str (v : pyval) : bool :=
  match v with PStr _ => true | _ => false end.

(** A job dictionary of the shape the loader builds: [title] and [role] are
    strings and [requirements] is a dictionary whose [skills] entry is a
    list of strings. *)
Definition loaded_job (job : pyval) : bool :=
  match job with
  | PDict d =>
      match dict_get d "title", dict_get d "role", dict_get d "requirements" with
      | Some (PStr _), Some (PStr _), Some (PDict r) =>
          match dict_get r "skills" with
          | Some (PList l) => forallb is_str l
          | _ => false
          end
      | _, _, _ => false
      end
  | _ => false
  end.

(** Two processors that differ at most in the preliminary scores written on
    their cached jobs. *)
Definition caches_agree (p1 p2 : data_processor.DataProcessor) : Prop :=
  data_processor.csv_file_path p1 = data_processor.csv_file_path p2 /\
  data_processor.job_matcher p1 = data_processor.job_matcher p2 /\
  data_processor._last_cache_time p1 = data_processor._last_cache_time p2 /\
  data_processor._cache_duration p1 = data_processor._cache_duration p2 /\
  match data_processor._cached_jobs p1, data_processor._cached_jobs p2 with
  | Some jobs1, Some jobs2 =>
      Forall2 (properties.agree_except "preliminary_score") jobs1 jobs2
  | None, None => True
  | _, _ => False
  end.

(** Some degree of the list names a level of value [v]. *)
Definition names_level (degrees : list string) (v : nat) : Prop :=
  exists degree name,
    In degree degrees /\ In (name, v) job_matcher.levels /\ PyStr.contains name degree = true.

(** A dictionary without the key [period]. *)
Definition lacks_period (exp : pyval) : bool :=
  match exp with
  | PDict d => match dict_get d "period" with Some _ => false | None => true end
  | _ => false
  end.

(** Scores that never increase from one match to the next. *)
Definition score_desc (m1 m2 : job_matcher.GlobalMatch) : Prop :=
  (job_matcher.match_score m2 <= job_matcher.match_score m1)%Q.

(** The periods of a list of experience entries, in order. *)
Definition periods (entries : list resume_processor.entry) : list string :=
  flat_map (fun e => match resume_processor.entry_get e "period" with
                     | Some p => [p]
                     | None => []
                     end) entries.

(** The profile [analyze_resume_sync] builds from a text when the answer of
    the generative model is not JSON, with the skills found in the text. *)
Definition fallback_profile (skills : list string) (text : string) : pyval :=
  PDict [("skills", PList (map PStr skills));
         ("experience", resume_processor.extract_experience text);
         ("education", resume_processor.extract_education text)].

(** The skills the loop of [get_skills_distribution] visits in one job. *)
Definition listed_skills (job : pyval) : result (list pyval) :=
  bind (getitem job "requirements") (fun requirements =>
  bind (getitem requirements "skills") (fun skills =>
  iter skills)).

(** How often a key occurs in a list of skills. *)
Definition occurrences (skills : list pyval) (k : pyval) : nat :=
  List.length (filter (data_processor.key_eqb k) skills).

(** No key of an earlier item is a key of a later one. *)
Fixpoint distinct_keys (counts : list (pyval * nat)) : Prop :=
  match counts with
  | [] => True
  | item :: rest =>
      (forall item', In item' rest ->
                     data_processor.key_eqb (fst item) (fst item') = false) /\
      distinct_keys rest
  end.

(** [counts] is the tally of [skills]: every item holds the number of
    occurrences of its key, every skill has an item, no key has two, and
    the numbers add up to the number of skills. *)
Definition tally (skills : list pyval) (counts : list (pyval * nat)) : Prop :=
  (forall k n, In (k, n) counts -> n = occurrences skills k /\ (1 <= n)%nat) /\
  (forall s, In s skills ->
             exists k n, In (k, n) counts /\ data_processor.key_eqb k s = true) /\
  distinct_keys counts /\
  list_sum (map snd counts) = List.length skills.

(** Every job of the cache, if there is one, has the shape the loader
    builds. *)
Definition cache_loaded (self : data_processor.DataProcessor) : bool :=
  match data_processor._cached_jobs self with
  | Some jobs => forallb loaded_job jobs
  | None => true
  end.

End properties.

(* ================================================================== *)
(** ** Concrete inputs *)
(* ================================================================== *)

Module examples.
Import Py.

Definition matcher : ai_processor.JobMatcher :=
  {| ai_processor.model := fun prompt => prompt |}.

Definition silent_matcher : ai_processor.JobMatcher :=
  {| ai_processor.model := fun _ => "" |}.

(** A candidate with one experience entry. *)
Definition experienced_candidate : pyval :=
  PDict [("skills", PList [PStr "Python"; PStr "SQL"]);
         ("experience", PList [PDict [("title", PStr "Engineer");
                                      ("period", PStr "2019-2021")]]);
         ("education", PList [])].

(** A candidate without experience entries. *)
Definition fresh_candidate : pyval :=
  PDict [("skills", PList [PStr "Python"; PStr "SQL"]);
         ("experience", PList []);
         ("education", PList [])].

(** The requirements the loader builds for a job without skills and without
    qualification text: [minimum_years] is 0. *)
Definition zero_years_requirements : pyval :=
  PDict [("skills", PList []);
         ("experience", PDict [("minimum_years", PInt 0); ("description", PList [])]);
         ("education", PList [])].

Definition three_skill_requirements : pyval :=
  PDict [("skills", PList [PStr "python"; PStr "sql"; PStr "aws"]);
         ("experience", PDict [("minimum_years", PInt 5); ("description", PList [])]);
         ("education", PList [])].

(** The same skills with a minimum the experienced candidate just meets:
    the period [2019-2021] counts as two years. *)
Definition two_years_requirements : pyval :=
  PDict [("skills", PList [PStr "python"; PStr "sql"; PStr "aws"]);
         ("experience", PDict [("minimum_years", PInt 2); ("description", PList [])]);
         ("education", PList [])].

(** Requirements whose [experience] entry is a non-empty list: the scorer
    calls [get] on it and fails. *)
Definition broken_requirements : pyval :=
  PDict [("skills", PList []); ("experience", PList [PInt 3])].

Definition blank_row : dict :=
  [("Job Title", PStr "  "); ("Role", PStr "Clerk"); ("skills", PStr "")].

Definition titled_row : dict :=
  [("Job Title", PStr "Data Analyst"); ("Role", PStr "Analyst");
   ("skills", PStr "sql, excel")].

(** A row that names neither skills nor qualifications. *)
Definition plain_row : dict :=
  [("Job Title", PStr "Software Engineer"); ("Role", PStr "Backend");
   ("Qualifications", PStr ""); ("skills", PStr "")].

(** One row with a blank title followed by a hundred rows with a title. *)
Definition long_source : list data_processor.reader_event :=
  data_processor.Row blank_row :: repeat (data_processor.Row titled_row) 100.

Definition engineer_row : dict :=
  [("Job Title", PStr "Software Engineer"); ("Role", PStr "Backend Developer");
   ("skills", PStr "python, sql, aws")].

Definition farm_row : dict :=
  [("Job Title", PStr "Farm Laborer"); ("Role", PStr "Harvest"); ("skills", PStr "sql")].

(** A job asking for six skills, none of which the candidates above have. *)
Definition devops_row : dict :=
  [("Job Title", PStr "DevOps Engineer"); ("Role", PStr "Operations");
   ("skills", PStr "docker, kubernetes, terraform, ansible, jenkins, bash")].

(** A job asking for one skill, which the candidates above do not have. *)
Definition support_row : dict :=
  [("Job Title", PStr "Support Specialist"); ("Role", PStr "Helpdesk");
   ("skills", PStr "windows")].

(** A catalog as the loader builds it from six rows. *)
Definition small_catalog : list pyval :=
  data_processor._load_jobs_from_csv
    (Some (map data_processor.Row
             [titled_row; devops_row; engineer_row; farm_row; support_row; titled_row])).

(** Twenty-five rows, each accepted by the pre-filter. *)
Definition world25 : data_processor.World := {|
  data_processor.time_time := 1000;
  data_processor.open_csv := fun _ => Some (repeat (data_processor.Row titled_row) 25)
|}.

Definition processor : data_processor.DataProcessor :=
  data_processor.init "datasheet.csv" matcher.

(** An education history: two degrees and an entry without one. *)
Definition two_degrees : pyval :=
  PList [PDict [("degree", PStr "Bachelor of Science")];
         PDict [("degree", PStr "Master of Arts")];
         PDict [("year", PInt 2001)]].

(** What [generate_global_matches] returns for the experienced candidate
    when the analysis of the categories is the empty dictionary. *)
Definition plain_matches : list job_matcher.GlobalMatch :=
  Eval vm_compute in
    match job_matcher.generate_global_matches (PDict []) experienced_candidate with
    | Ok matches => matches
    | Raise _ => []
    end.

(** The text of a short resume, one item per line. *)
Definition resume_lines : list string :=
  ["Jane Roe";
   "Software Engineer";
   "2019-2021 Acme Corp";
   "Senior Developer";
   "Built the billing service";
   "and its tests";
   "2016 - 2019 Initech";
   "Master of Science, 2016";
   "State University";
   "Somewhere"].

Definition resume_text : string :=
  String.concat (String data_processor.newline EmptyString) resume_lines.

(** The skills distribution of the twenty-five job catalog. *)
Definition distribution25 : list (pyval * nat) :=
  Eval vm_compute in
    match snd (data_processor.get_skills_distribution processor world25) with
    | Ok distribution => distribution
    | Raise _ => []
    end.

End examples.

(* ================================================================== *)
(** ** Proofs *)
(* ================================================================== *)

(* ================================================================== *)
(** ** Facts about the scorer *)
(* ================================================================== *)

Section scorer.
Import Py ai_processor properties examples.
Local Open Scope Q_scope.
Local Open Scope string_scope.

(** Inversion of a successful [bind]. *)
Lemma bind_Ok {A B} (m : result A) (k : A -> result B) (b : B) :
  bind m k = Ok b -> exists a, m = Ok a /\ k a = Ok b.
Proof.
  destruct m as [a | e]; simpl; intros H; [eauto | discriminate].
Qed.

Lemma intersection_length (a b : list string) :
  (List.length (intersection a b) <= List.length a)%nat.
Proof. apply filter_length_le. Qed.

Lemma ratio_bounds (m n : nat) :
  (m <= n)%nat -> (0 < n)%nat ->
  0 <= inject_Z (Z.of_nat m) / inject_Z (Z.of_nat n) <= 1.
Proof.
  intros Hmn Hn.
  assert (Hpos : 0 < inject_Z (Z.of_nat n)).
  { replace 0 with (inject_Z 0) by reflexivity. rewrite <- Zlt_Qlt. lia. }
  split.
  - apply Qle_shift_div_l; [exact Hpos |].
    rewrite Qmult_0_l. replace 0 with (inject_Z 0) by reflexivity.
    rewrite <- Zle_Qle. lia.
  - apply Qle_shift_div_r; [exact Hpos |].
    rewrite Qmult_1_l. rewrite <- Zle_Qle. lia.
Qed.

Lemma skill_match_score_range (matching required : list string) :
  (List.length matching <= List.length required)%nat ->
  in_range (skill_match_score_of matching required).
Proof.
  intros Hle. unfold in_range, skill_match_score_of.
  destruct required as [| x required].
  - split; [discriminate | discriminate].
  - set (n := List.length (x :: required)) in *.
    assert (Hn : (0 < n)%nat) by (subst n; simpl; lia).
    destruct (ratio_bounds _ _ Hle Hn) as [H0 H1].
    split; lra.
Qed.

Lemma add_strength_range (a : Analysis) (years : nat) :
  in_range (match_score a) -> in_range (match_score (add_strength a years)).
Proof.
  unfold in_range; simpl; intros [H0 H1]. split.
  - apply Q.min_glb; lra.
  - apply Q.le_min_l.
Qed.

Lemma add_gap_range (a : Analysis) (v : pyval) :
  in_range (match_score a) -> in_range (match_score (add_gap a v)).
Proof.
  unfold in_range; simpl; intros [H0 H1]. split.
  - apply Q.le_max_l.
  - apply Q.max_lub; lra.
Qed.

(** What a successful experience block did to the analysis. *)
Lemma experience_adjustment_Ok (c j : pyval) (a a' : Analysis) :
  experience_adjustment c j a = Ok a' ->
  a' = a \/ (exists years, a' = add_strength a years)
         \/ (exists min_years, a' = add_gap a min_years).
Proof.
  unfold experience_adjustment. intros H.
  apply bind_Ok in H as (er & _ & H).
  apply bind_Ok in H as (ce & _ & H).
  destruct (truthy er && truthy ce).
  - apply bind_Ok in H as (my & _ & H).
    apply bind_Ok in H as (ex & _ & H).
    apply bind_Ok in H as (years & _ & H).
    apply bind_Ok in H as (enough & _ & H).
    destruct enough; injection H as <-; eauto.
  - injection H as <-. auto.
Qed.

Lemma experience_adjustment_range (c j : pyval) (a a' : Analysis) :
  experience_adjustment c j a = Ok a' ->
  in_range (match_score a) -> in_range (match_score a').
Proof.
  intros H Ha.
  destruct (experience_adjustment_Ok _ _ _ _ H) as [-> | [[y ->] | [v ->]]];
    auto using add_strength_range, add_gap_range.
Qed.

(** The steps of a successful run of the [try] block. *)
Lemma calculate_match_score_try_Ok (self : JobMatcher) (c j : pyval) (r : MatchScore) :
  calculate_match_score_try self c j = Ok r ->
  exists rs cs required candidate analysis,
    required_skills_of (coerce_requirements j) = Ok rs /\
    get c "skills" (PList []) = Ok cs /\
    lower_set rs = Ok required /\
    lower_set cs = Ok candidate /\
    experience_adjustment c (coerce_requirements j)
      (base_analysis (intersection required candidate) (difference required candidate)
         required (skill_match_score_of (intersection required candidate) required))
    = Ok analysis /\
    r = {| total_score := match_score analysis;
           skill_match := skill_match_score_of (intersection required candidate) required;
           experience_match := match_score analysis;
           education_match := match_score analysis;
           ai_analysis := analysis |}.
Proof.
  unfold calculate_match_score_try. intros H.
  apply bind_Ok in H as (rs & Hrs & H).
  apply bind_Ok in H as (cs & Hcs & H).
  apply bind_Ok in H as (required & Hreq & H).
  apply bind_Ok in H as (candidate & Hcand & H).
  apply bind_Ok in H as (analysis & Han & H).
  injection H as <-.
  exists rs, cs, required, candidate, analysis. auto 10.
Qed.

Lemma split_length (sep : ascii) (s : string) :
  List.length (PyStr.split sep s) = S (PyStr.count_char sep s).
Proof.
  induction s as [| c s IH]; simpl; [reflexivity |].
  destruct (Ascii.eqb c sep); simpl.
  - now rewrite IH.
  - destruct (PyStr.split sep s) as [| w ws]; simpl in *; [discriminate | exact IH].
Qed.

(** C1. For every candidate and every job requirements, the four scores
    [total_score], [skill_match], [experience_match] and [education_match]
    of the scorer's result lie between 0 and 100; this covers the value
    returned by the exception handler. *)
Theorem C1_scores_in_range (self : JobMatcher) (c j : pyval) :
  let r := calculate_match_score_sync self c j in
  in_range (total_score r) /\ in_range (skill_match r) /\
  in_range (experience_match r) /\ in_range (education_match r).
Proof.
  unfold calculate_match_score_sync.
  destruct (calculate_match_score_try self c j) as [r | e] eqn:E; cbv zeta.
  - apply calculate_match_score_try_Ok in E
      as (rs & cs & required & candidate & analysis & _ & _ & _ & _ & Hadj & ->).
    assert (Hs : in_range (skill_match_score_of (intersection required candidate) required))
      by (apply skill_match_score_range, intersection_length).
    apply experience_adjustment_range in Hadj; [| exact Hs].
    simpl. auto.
  - unfold in_range; simpl. repeat split; discriminate.
Qed.

Lemma mem_In (x : string) (s : list string) : mem x s = true <-> In x s.
Proof.
  unfold mem. rewrite existsb_exists. split.
  - intros (y & Hy & E). apply String.eqb_eq in E. now subst.
  - intros H. exists x. split; [exact H | apply String.eqb_refl].
Qed.

Lemma set_of_NoDup (l : list string) : NoDup (set_of l).
Proof.
  induction l as [| x l IH]; simpl; [constructor |].
  destruct (mem x (set_of l)) eqn:E; [exact IH |].
  constructor; [| exact IH].
  intros Hin. apply mem_In in Hin. congruence.
Qed.

Lemma set_of_In (l : list string) (x : string) : In x (set_of l) <-> In x l.
Proof.
  induction l as [| y l IH]; simpl; [reflexivity |].
  destruct (mem y (set_of l)) eqn:E.
  - apply mem_In in E. rewrite IH. split; [auto |].
    intros [<- | H]; [now apply IH | exact H].
  - simpl. now rewrite IH.
Qed.

Lemma set_of_is_set (l : list string) : is_set_of (set_of l) l.
Proof. split; [apply set_of_NoDup | apply set_of_In]. Qed.

Lemma intersection_is_set (a b : list string) :
  NoDup a ->
  NoDup (intersection a b) /\
  forall x, In x (intersection a b) <-> In x a /\ In x b.
Proof.
  intros Ha. unfold intersection. split; [now apply NoDup_filter |].
  intros x. rewrite filter_In, mem_In. reflexivity.
Qed.

(** A comprehension over strings succeeds on strings only. *)
Lemma mapM_str_Ok (f : string -> string) (items : list pyval) (cleaned : list string) :
  mapM (fun skill => bind (as_str skill) (fun s => Ok (f s))) items = Ok cleaned ->
  exists texts, items = map PStr texts /\ cleaned = map f texts.
Proof.
  revert cleaned. induction items as [| v items IH]; intros cleaned H; cbn [mapM] in H.
  - injection H as <-. now exists [].
  - apply bind_Ok in H as (y & Hy & H).
    apply bind_Ok in H as (ys & Hys & H). injection H as <-.
    apply bind_Ok in Hy as (t & Ht & Hy). injection Hy as <-.
    destruct v; try discriminate Ht. injection Ht as ->.
    destruct (IH ys Hys) as (texts & -> & ->).
    now exists (t :: texts).
Qed.

Lemma lower_set_shape (skills : pyval) (lowered : list string) :
  lower_set skills = Ok lowered ->
  exists texts,
    iter skills = Ok (map PStr texts) /\
    is_set_of lowered (map PyStr.lower texts).
Proof.
  unfold lower_set. intros H.
  apply bind_Ok in H as (items & Hi & H).
  apply bind_Ok in H as (l & Hl & H). injection H as <-.
  apply mapM_str_Ok in Hl as (texts & -> & ->).
  exists texts. split; [exact Hi | apply set_of_is_set].
Qed.

Lemma fold_add_shift (l : list nat) (a : nat) :
  fold_left Nat.add l a = (fold_left Nat.add l 0 + a)%nat.
Proof.
  revert a. induction l as [| x l IH]; intros a; cbn [fold_left]; [lia |].
  rewrite (IH (a + x)%nat), (IH (0 + x)%nat). lia.
Qed.

Lemma fold_add_list_sum (l : list nat) : fold_left Nat.add l 0%nat = list_sum l.
Proof.
  induction l as [| x l IH]; [reflexivity |].
  cbn [fold_left]. rewrite fold_add_shift, IH. simpl. lia.
Qed.

(** The tokens of one entry: one more than the hyphens of its period. *)
Lemma period_tokens_Ok (exp : pyval) (tokens : nat) :
  period_tokens exp = Ok tokens ->
  exists period,
    get exp "period" (PStr "") = Ok (PStr period) /\
    tokens = S (PyStr.count_char "-" period).
Proof.
  unfold period_tokens. intros H.
  apply bind_Ok in H as (p & Hp & H).
  apply bind_Ok in H as (t & Ht & H). injection H as <-.
  destruct p; try discriminate Ht. injection Ht as ->.
  exists t. split; [exact Hp | apply split_length].
Qed.

Lemma mapM_period_tokens (exps : list pyval) (tokens : list nat) :
  mapM period_tokens exps = Ok tokens ->
  exists periods,
    Forall2 (fun exp period => get exp "period" (PStr "") = Ok (PStr period))
            exps periods /\
    tokens = map (fun period => S (PyStr.count_char "-" period)) periods.
Proof.
  revert tokens. induction exps as [| exp exps IH]; intros tokens H; cbn [mapM] in H.
  - injection H as <-. exists []. split; [constructor | reflexivity].
  - apply bind_Ok in H as (t & Ht & H).
    apply bind_Ok in H as (ts & Hts & H). injection H as <-.
    apply period_tokens_Ok in Ht as (period & Hp & ->).
    destruct (IH ts Hts) as (periods & HF & ->).
    exists (period :: periods). split; [now constructor | reflexivity].
Qed.

Lemma candidate_years_of_Ok (experience : pyval) (years : nat) :
  candidate_years_of experience = Ok years ->
  exists exps periods,
    iter experience = Ok exps /\
    Forall2 (fun exp period => get exp "period" (PStr "") = Ok (PStr period))
            exps periods /\
    years = list_sum (map (fun period => S (PyStr.count_char "-" period)) periods).
Proof.
  unfold candidate_years_of. intros H.
  apply bind_Ok in H as (exps & He & H).
  apply bind_Ok in H as (tokens & Ht & H). injection H as <-.
  apply mapM_period_tokens in Ht as (periods & HF & ->).
  exists exps, periods. split; [exact He |]. split; [exact HF |].
  apply fold_add_list_sum.
Qed.

Lemma int_ge_PInt (n m : Z) (b : bool) :
  int_ge n (PInt m) = Ok b -> b = (m <=? n)%Z.
Proof. cbn [int_ge]. intros H. now injection H as <-. Qed.

(** What the experience block does to the score, case by case. *)
Lemma experience_adjustment_spec (c j : pyval) (a a' : Analysis) :
  experience_adjustment c j a = Ok a' ->
  exists exp_requirements,
    get j "experience" (PDict []) = Ok exp_requirements /\
    if truthy exp_requirements then
      exists candidate_experience,
        get c "experience" PNone = Ok candidate_experience /\
        if truthy candidate_experience then
          exists min_years exps periods enough,
            get exp_requirements "minimum_years" (PInt 0) = Ok min_years /\
            iter candidate_experience = Ok exps /\
            Forall2 (fun exp period => get exp "period" (PStr "") = Ok (PStr period))
                    exps periods /\
            let years :=
              list_sum (map (fun period => S (PyStr.count_char "-" period)) periods) in
            int_ge (Z.of_nat years) min_years = Ok enough /\
            (forall m, min_years = PInt m -> enough = (m <=? Z.of_nat years)%Z) /\
            match_score a' =
              (if enough then Qmin 100 (match_score a + 10)
               else Qmax 0 (match_score a - 10))
        else match_score a' = match_score a
    else match_score a' = match_score a.
Proof.
  unfold experience_adjustment. intros H.
  apply bind_Ok in H as (er & Her & H). exists er. split; [exact Her |].
  apply bind_Ok in H as (ce & Hce & H).
  destruct (truthy er) eqn:Ter; cbn [andb] in H.
  - exists ce. split; [exact Hce |].
    destruct (truthy ce) eqn:Tce.
    + apply bind_Ok in H as (min_years & Hmy & H).
      apply bind_Ok in H as (experience & Hex & H).
      apply bind_Ok in H as (years & Hy & H).
      apply bind_Ok in H as (enough & Hen & H).
      assert (experience = ce) as ->.
      { destruct c as [| | | | | | d]; try discriminate Hex.
        cbn [get getitem] in Hce, Hex. destruct (dict_get d "experience") as [v |].
        - congruence.
        - discriminate Hex. }
      apply candidate_years_of_Ok in Hy as (exps & periods & Hi & HF & ->).
      exists min_years, exps, periods, enough. cbv zeta.
      split; [exact Hmy |]. split; [exact Hi |]. split; [exact HF |].
      split; [exact Hen |]. split.
      * intros m ->. exact (int_ge_PInt _ _ _ Hen).
      * destruct enough; injection H as <-; reflexivity.
    + injection H as <-. reflexivity.
  - injection H as <-. reflexivity.
Qed.

(** C2 as stated fails.  For the requirements the loader builds when the
    qualification text names no number of years, [minimum_years] is 0; for
    a candidate with one experience entry the scorer still adds 10: the
    total is 60 while the skill score is 50. *)
Lemma C2_counterexample :
  let r := calculate_match_score_sync matcher experienced_candidate
             zero_years_requirements in
  bind (getitem zero_years_requirements "experience")
       (fun e => getitem e "minimum_years") = Ok (PInt 0) /\
  calculate_match_score_try matcher experienced_candidate
    zero_years_requirements = Ok r /\
  skill_match r == 50 /\ total_score r == 60 /\
  ~ total_score r == skill_match r.
Proof.
  cbv zeta. repeat split; try reflexivity. vm_compute. discriminate.
Qed.
(** C2, amended.  On every run of the scorer that does not fail, the
    experience adjustment is applied exactly when the [experience] entry of
    the job requirements is truthy (any non-empty dictionary, whatever its
    [minimum_years]) and the candidate's [experience] is truthy (at least one
    entry).  Then the candidate years are the sum, over the entries, of the
    number of hyphen-separated tokens of the period string, which is one
    more than the number of its hyphens (the empty string when the entry
    has no period); the total is the skill score plus 10 capped at 100 when
    the years reach [minimum_years] (0 when the key is absent), and the
    skill score minus 10 floored at 0 otherwise.  When either value is falsy
    the total is the skill score. *)
Theorem C2_experience_adjustment (self : JobMatcher) (c j : pyval) (r : MatchScore)
    (exp_requirements candidate_experience : pyval) :
  calculate_match_score_try self c j = Ok r ->
  get (coerce_requirements j) "experience" (PDict []) = Ok exp_requirements ->
  get c "experience" PNone = Ok candidate_experience ->
  if truthy exp_requirements && truthy candidate_experience then
    exists min_years exps periods enough,
      get exp_requirements "minimum_years" (PInt 0) = Ok min_years /\
      iter candidate_experience = Ok exps /\
      Forall2 (fun exp period => get exp "period" (PStr "") = Ok (PStr period))
              exps periods /\
      let years :=
        list_sum (map (fun period => S (PyStr.count_char "-" period)) periods) in
      int_ge (Z.of_nat years) min_years = Ok enough /\
      (forall m, min_years = PInt m -> enough = (m <=? Z.of_nat years)%Z) /\
      total_score r =
        (if enough then Qmin 100 (skill_match r + 10)
         else Qmax 0 (skill_match r - 10))
  else total_score r = skill_match r.
Proof.
  intros Hr Her Hce.
  apply calculate_match_score_try_Ok in Hr
    as (rs & cs & required & candidate & analysis & _ & _ & _ & _ & Hadj & ->).
  cbn [total_score skill_match].
  apply experience_adjustment_spec in Hadj as (er & Her' & Hadj).
  assert (er = exp_requirements) as -> by congruence.
  destruct (truthy exp_requirements); cbn [andb]; [| exact Hadj].
  destruct Hadj as (ce & Hce' & Hadj).
  assert (ce = candidate_experience) as -> by congruence.
  destruct (truthy candidate_experience); exact Hadj.
Qed.

Lemma C2_experience_adjustment_witness :
  let r := calculate_match_score_sync matcher experienced_candidate
             three_skill_requirements in
  let r0 := calculate_match_score_sync matcher experienced_candidate
              two_years_requirements in
  (calculate_match_score_try matcher experienced_candidate three_skill_requirements = Ok r /\
   total_score r = Qmax 0 (skill_match r - 10)) /\
  (calculate_match_score_try matcher experienced_candidate two_years_requirements = Ok r0 /\
   total_score r0 = Qmin 100 (skill_match r0 + 10)).
Proof.
  cbv zeta. split; (split; [reflexivity |]).
  - pose proof (C2_experience_adjustment matcher experienced_candidate
                  three_skill_requirements
                  (calculate_match_score_sync matcher experienced_candidate
                     three_skill_requirements)
                  (PDict [("minimum_years", PInt 5); ("description", PList [])])
                  (PList [PDict [("title", PStr "Engineer"); ("period", PStr "2019-2021")]])
                  eq_refl eq_refl eq_refl) as H.
    cbn [truthy andb] in H.
    destruct H as (min_years & exps & periods & enough & Hmin & Hit & HF & H).
    cbv zeta in H. destruct H as (_ & Hpin & Htot).
    injection Hmin as <-. injection Hit as <-.
    inversion HF as [| exp period exps' periods' Hp HF' E1 E2]; subst.
    inversion HF'; subst. injection Hp as <-.
    rewrite (Hpin 5%Z eq_refl) in Htot. exact Htot.
  - pose proof (C2_experience_adjustment matcher experienced_candidate
                  two_years_requirements
                  (calculate_match_score_sync matcher experienced_candidate
                     two_years_requirements)
                  (PDict [("minimum_years", PInt 2); ("description", PList [])])
                  (PList [PDict [("title", PStr "Engineer"); ("period", PStr "2019-2021")]])
                  eq_refl eq_refl eq_refl) as H.
    cbn [truthy andb] in H.
    destruct H as (min_years & exps & periods & enough & Hmin & Hit & HF & H).
    cbv zeta in H. destruct H as (_ & Hpin & Htot).
    injection Hmin as <-. injection Hit as <-.
    inversion HF as [| exp period exps' periods' Hp HF' E1 E2]; subst.
    inversion HF'; subst. injection Hp as <-.
    rewrite (Hpin 2%Z eq_refl) in Htot. exact Htot.
Defined.

(** C3. On every run of the scorer that does not fail, [experience_match]
    and [education_match] repeat [total_score], and [skill_match] holds
    the score before the experience block: 100 times the share of the
    required skills the candidate has, or 50 when no skill is required,
    the required and the candidate's skills being compared as sets of
    lower-cased texts.
    [total_score] is the experience-adjusted [skill_match]: when the
    [experience] entry of the requirements and the candidate's [experience]
    are both truthy it is [skill_match] plus 10, capped at 100, if the
    candidate's years (the hyphen-separated tokens of the periods) reach
    [minimum_years], and [skill_match] minus 10, floored at 0, if they do
    not; in every other case it is [skill_match] itself. *)
Theorem C3_subscores (self : JobMatcher) (c j : pyval) (r : MatchScore) :
  calculate_match_score_try self c j = Ok r ->
  exists rs cs required candidate required_texts candidate_texts exp_requirements,
    required_skills_of (coerce_requirements j) = Ok rs /\
    lower_set rs = Ok required /\
    get c "skills" (PList []) = Ok cs /\
    lower_set cs = Ok candidate /\
    iter rs = Ok (map PStr required_texts) /\
    is_set_of required (map PyStr.lower required_texts) /\
    iter cs = Ok (map PStr candidate_texts) /\
    is_set_of candidate (map PyStr.lower candidate_texts) /\
    let matching := intersection required candidate in
    (NoDup matching /\ forall x, In x matching <-> In x required /\ In x candidate) /\
    skill_match r ==
      match required with
      | [] => 50
      | _ => 100 * (inject_Z (Z.of_nat (List.length matching))
                    / inject_Z (Z.of_nat (List.length required)))
      end /\
    experience_match r = total_score r /\
    education_match r = total_score r /\
    get (coerce_requirements j) "experience" (PDict []) = Ok exp_requirements /\
    if truthy exp_requirements then
      exists candidate_experience,
        get c "experience" PNone = Ok candidate_experience /\
        if truthy candidate_experience then
          exists min_years exps periods enough,
            get exp_requirements "minimum_years" (PInt 0) = Ok min_years /\
            iter candidate_experience = Ok exps /\
            Forall2 (fun exp period => get exp "period" (PStr "") = Ok (PStr period))
                    exps periods /\
            let years :=
              list_sum (map (fun period => S (PyStr.count_char "-" period)) periods) in
            int_ge (Z.of_nat years) min_years = Ok enough /\
            (forall m, min_years = PInt m -> enough = (m <=? Z.of_nat years)%Z) /\
            total_score r =
              (if enough then Qmin 100 (skill_match r + 10)
               else Qmax 0 (skill_match r - 10))
        else total_score r = skill_match r
    else total_score r = skill_match r.
Proof.
  intros Hr.
  apply calculate_match_score_try_Ok in Hr
    as (rs & cs & required & candidate & analysis & Hrs & Hcs & Hreq & Hcand & Hadj & ->).
  apply experience_adjustment_spec in Hadj as (er & Her & Hadj).
  destruct (lower_set_shape rs required Hreq) as (required_texts & Hri & Hrset).
  destruct (lower_set_shape cs candidate Hcand) as (candidate_texts & Hci & Hcset).
  exists rs, cs, required, candidate, required_texts, candidate_texts, er. cbv zeta.
  cbn [total_score skill_match experience_match education_match].
  split; [exact Hrs |]. split; [exact Hreq |]. split; [exact Hcs |]. split; [exact Hcand |].
  split; [exact Hri |]. split; [exact Hrset |]. split; [exact Hci |]. split; [exact Hcset |].
  split; [apply intersection_is_set, Hrset |].
  split; [unfold skill_match_score_of; destruct required; [reflexivity | ring] |].
  split; [reflexivity |]. split; [reflexivity |]. split; [exact Her |].
  exact Hadj.
Qed.

Lemma C3_subscores_witness :
  let r := calculate_match_score_sync matcher experienced_candidate
             two_years_requirements in
  let r' := calculate_match_score_sync matcher experienced_candidate
              three_skill_requirements in
  (calculate_match_score_try matcher experienced_candidate two_years_requirements = Ok r /\
   experience_match r = total_score r /\ education_match r = total_score r /\
   skill_match r == 200 # 3 /\ total_score r = Qmin 100 (skill_match r + 10)) /\
  (calculate_match_score_try matcher experienced_candidate three_skill_requirements = Ok r' /\
   experience_match r' = total_score r' /\ education_match r' = total_score r' /\
   skill_match r' == 200 # 3 /\ total_score r' = Qmax 0 (skill_match r' - 10)).
Proof.
  cbv zeta. split; (split; [reflexivity |]).
  - destruct (C3_subscores matcher experienced_candidate two_years_requirements
                (calculate_match_score_sync matcher experienced_candidate
                   two_years_requirements) eq_refl)
      as (rs & cs & required & candidate & required_texts & candidate_texts & er
          & _ & _ & _ & _ & _ & _ & _ & _ & H).
    cbv zeta in H. destruct H as (_ & _ & He & Hd & Her & H).
    split; [exact He |]. split; [exact Hd |]. split; [reflexivity |].
    injection Her as <-. cbn [truthy] in H.
    destruct H as (ce & Hce & H). injection Hce as <-. cbn [truthy] in H.
    destruct H as (min_years & exps & periods & enough & Hmin & Hit & HF & H).
    cbv zeta in H. destruct H as (_ & Hpin & Htot).
    injection Hmin as <-. injection Hit as <-.
    inversion HF as [| exp period exps' periods' Hp HF' E1 E2]; subst.
    inversion HF'; subst. injection Hp as <-.
    rewrite (Hpin 2%Z eq_refl) in Htot. exact Htot.
  - destruct (C3_subscores matcher experienced_candidate three_skill_requirements
                (calculate_match_score_sync matcher experienced_candidate
                   three_skill_requirements) eq_refl)
      as (rs & cs & required & candidate & required_texts & candidate_texts & er
          & _ & _ & _ & _ & _ & _ & _ & _ & H).
    cbv zeta in H. destruct H as (_ & _ & He & Hd & Her & H).
    split; [exact He |]. split; [exact Hd |]. split; [reflexivity |].
    injection Her as <-. cbn [truthy] in H.
    destruct H as (ce & Hce & H). injection Hce as <-. cbn [truthy] in H.
    destruct H as (min_years & exps & periods & enough & Hmin & Hit & HF & H).
    cbv zeta in H. destruct H as (_ & Hpin & Htot).
    injection Hmin as <-. injection Hit as <-.
    inversion HF as [| exp period exps' periods' Hp HF' E1 E2]; subst.
    inversion HF'; subst. injection Hp as <-.
    rewrite (Hpin 5%Z eq_refl) in Htot. exact Htot.
Defined.

(** C9. The scorer returns a result for every candidate and every job
    requirements: either the try block ran to its end and its value is
    returned, or it raised and the fixed neutral result is returned, whose
    four scores are 50 and whose analysis holds the generic texts.  A job
    requirements value that is not a dictionary is scored as the empty
    requirements are, with all four scores equal to 50. *)
Theorem C9_never_raises (self : JobMatcher) (c j : pyval) :
  let r := calculate_match_score_sync self c j in
  (calculate_match_score_try self c j = Ok r \/
   (exists e, calculate_match_score_try self c j = Raise e) /\ r = fallback_score) /\
  (isinstance_dict j = false ->
     r = calculate_match_score_sync self c empty_requirements /\
     total_score r == 50 /\ skill_match r == 50 /\
     experience_match r == 50 /\ education_match r == 50) /\
  (total_score fallback_score = 50 /\ skill_match fallback_score = 50 /\
   experience_match fallback_score = 50 /\ education_match fallback_score = 50 /\
   summary (ai_analysis fallback_score) = [Lit "Basic skill matching analysis"] /\
   strengths (ai_analysis fallback_score) = [[Lit "Has some matching skills"]] /\
   gaps (ai_analysis fallback_score) = [[Lit "Could not perform detailed analysis"]] /\
   recommendations (ai_analysis fallback_score)
     = [[Lit "Review complete job requirements"]]).
Proof.
  cbv zeta. split; [| split].
  - unfold calculate_match_score_sync.
    destruct (calculate_match_score_try self c j) as [r | e]; eauto.
  - intros Hj.
    assert (Hco : coerce_requirements j = empty_requirements)
      by (unfold coerce_requirements; now rewrite Hj).
    assert (Heq : calculate_match_score_try self c j
                  = calculate_match_score_try self c empty_requirements).
    { unfold calculate_match_score_try. rewrite Hco. reflexivity. }
    unfold calculate_match_score_sync. rewrite Heq. split; [reflexivity |].
    destruct (calculate_match_score_try self c empty_requirements) as [r | e] eqn:E.
    + apply calculate_match_score_try_Ok in E
        as (rs & cs & required & candidate & analysis & Hrs & _ & Hreq & _ & Hadj & ->).
      injection Hrs as <-. injection Hreq as <-.
      injection Hadj as <-. simpl. repeat split; reflexivity.
    + simpl. repeat split; reflexivity.
  - repeat split; reflexivity.
Qed.

Lemma C9_never_raises_witness :
  isinstance_dict (PStr "python, sql") = false /\
  total_score (calculate_match_score_sync matcher experienced_candidate
                 (PStr "python, sql")) == 50.
Proof.
  split; [reflexivity |].
  apply (C9_never_raises matcher experienced_candidate (PStr "python, sql")).
  reflexivity.
Defined.

(** The loader builds [zero_years_requirements] for a row that names neither
    skills nor qualifications. *)
Example loader_builds_zero_years :
  bind (data_processor.parse_row plain_row)
       (fun job => match job with
                   | Some job => getitem job "requirements"
                   | None => Raise KeyError
                   end)
  = Ok zero_years_requirements.
Proof. reflexivity. Qed.

(** A candidate without experience entries keeps the skill score. *)
Example no_entries_no_adjustment :
  let r := calculate_match_score_sync matcher fresh_candidate three_skill_requirements in
  total_score r = skill_match r /\ skill_match r == 200 # 3.
Proof. split; reflexivity. Qed.

(** The handler is reached: these requirements make the try block raise. *)
Example broken_requirements_fall_back :
  calculate_match_score_try matcher experienced_candidate broken_requirements
    = Raise AttributeError /\
  calculate_match_score_sync matcher experienced_candidate broken_requirements
    = fallback_score.
Proof. split; reflexivity. Qed.

End scorer.

Section loader.
Import Py data_processor properties examples.
Local Open Scope string_scope.
Local Open Scope list_scope.

(** Every job the loader builds has a non-blank title and a requirements
    dictionary. *)
Lemma parse_row_job (row : dict) (job : pyval) :
  parse_row row = Ok (Some job) ->
  has_title job = true /\ has_requirements job = true.
Proof.
  unfold parse_row. destruct row as [| kv row]; [discriminate |].
  set (rw := kv :: row). clearbody rw. intros H.
  apply bind_Ok in H as (title & _ & H).
  apply bind_Ok in H as (role & _ & H).
  destruct (PyStr.nonempty (PyStr.strip title)) eqn:Hne; simpl in H; [| discriminate].
  apply bind_Ok in H as (description & _ & H).
  apply bind_Ok in H as (qualifications & _ & H).
  apply bind_Ok in H as (skills_text & _ & H).
  apply bind_Ok in H as (experience & _ & H).
  injection H as <-. simpl. split; [exact Hne | reflexivity].
Qed.

Lemma accepted_jobs_titles (rows : list dict) :
  forallb has_title (accepted_jobs rows) = true.
Proof.
  unfold accepted_jobs. induction rows as [| row rows IH]; simpl; [reflexivity |].
  rewrite forallb_app, IH, andb_true_r.
  destruct (parse_row row) as [[job |] | e] eqn:E; simpl; try reflexivity.
  apply parse_row_job in E as [-> _]. reflexivity.
Qed.

Lemma accepted_jobs_length (rows : list dict) :
  (List.length (accepted_jobs rows) <= List.length rows)%nat.
Proof.
  unfold accepted_jobs. induction rows as [| row rows IH]; simpl; [lia |].
  rewrite length_app.
  destruct (parse_row row) as [[job |] | e]; simpl; lia.
Qed.

(** The loop appends the jobs of the rows at positions below 100. *)
Lemma load_rows_Some (events : list reader_event) :
  forall (i : nat) (jobs jobs' : list pyval),
    load_rows i events jobs = Some jobs' ->
    jobs' = jobs ++ accepted_jobs (firstn (100 - i) (rows_read events)).
Proof.
  induction events as [| ev events IH]; intros i jobs jobs' H; cbn [load_rows] in H.
  - injection H as <-. rewrite firstn_nil. simpl. now rewrite app_nil_r.
  - destruct ev as [row |]; [| discriminate].
    destruct (Nat.leb_spec 100 i) as [Hi | Hi].
    + injection H as <-. replace (100 - i)%nat with 0%nat by lia.
      simpl. now rewrite app_nil_r.
    + replace (100 - i)%nat with (S (100 - S i)) by lia.
      simpl rows_read. rewrite firstn_cons. unfold accepted_jobs. simpl flat_map.
      fold (accepted_jobs (firstn (100 - S i) (rows_read events))).
      destruct (parse_row row) as [[job |] | e];
        apply IH in H; rewrite H; simpl; try reflexivity.
      now rewrite <- app_assoc.
Qed.

Lemma load_rows_all_rows (rows : list dict) :
  forall (i : nat) (jobs : list pyval),
    load_rows i (map Row rows) jobs
    = Some (jobs ++ accepted_jobs (firstn (100 - i) rows)).
Proof.
  induction rows as [| row rows IH]; intros i jobs; cbn [load_rows map].
  - rewrite firstn_nil. simpl. now rewrite app_nil_r.
  - destruct (Nat.leb_spec 100 i) as [Hi | Hi].
    + replace (100 - i)%nat with 0%nat by lia. simpl. now rewrite app_nil_r.
    + replace (100 - i)%nat with (S (100 - S i)) by lia.
      rewrite firstn_cons. unfold accepted_jobs. simpl flat_map.
      fold (accepted_jobs (firstn (100 - S i) rows)).
      destruct (parse_row row) as [[job |] | e]; rewrite IH; simpl; try reflexivity.
      now rewrite <- app_assoc.
Qed.

(** What the loader returns is the list of jobs of some rows, at most a
    hundred of them. *)
Lemma load_jobs_shape (file : csv_file) :
  exists rows, (List.length rows <= 100)%nat /\
               _load_jobs_from_csv file = accepted_jobs rows.
Proof.
  unfold _load_jobs_from_csv. destruct file as [events |].
  - destruct (load_rows 0 events []) as [jobs |] eqn:E.
    + apply load_rows_Some in E. simpl in E.
      exists (firstn 100 (rows_read events)). split; [| exact E].
      rewrite length_firstn. lia.
    + exists []. split; [simpl; lia | reflexivity].
  - exists []. split; [simpl; lia | reflexivity].
Qed.

(** C6 as stated fails.  The source has 101 rows, the first with a blank
    title and the other hundred with a title.  It holds a hundred rows with
    a title, yet the catalog has 99 records: the limit of 100 counts the
    rows read, the blank one included. *)
Lemma C6_counterexample :
  List.length (filter accepted (rows_read long_source)) = 100%nat /\
  List.length (_load_jobs_from_csv (Some long_source)) = 99%nat /\
  _load_jobs_from_csv (Some long_source)
    <> firstn 100 (accepted_jobs (rows_read long_source)).
Proof.
  split; [vm_compute; reflexivity |].
  split; [vm_compute; reflexivity |].
  intros H. apply (f_equal (@List.length pyval)) in H.
  vm_compute in H. discriminate.
Qed.

(** C6, amended.  For every source, no record of the loaded catalog has an
    empty title, and the catalog has at most 100 records.  The limit counts
    the rows read, not the rows accepted: when the reader delivers all its
    rows, the catalog consists of the jobs of the accepted rows among the
    first 100 rows of the source, in source order. *)
Theorem C6_catalog_load (file : csv_file) (rows : list dict) :
  forallb has_title (_load_jobs_from_csv file) = true /\
  (List.length (_load_jobs_from_csv file) <= 100)%nat /\
  _load_jobs_from_csv (Some (map Row rows)) = accepted_jobs (firstn 100 rows).
Proof.
  destruct (load_jobs_shape file) as (rs & Hlen & ->).
  split; [apply accepted_jobs_titles |].
  split; [pose proof (accepted_jobs_length rs); lia |].
  unfold _load_jobs_from_csv. now rewrite load_rows_all_rows.
Qed.

End loader.

Section sorting.
Import data_processor properties.
Context {A : Type}.
Local Open Scope Q_scope.

Lemma Qle_bool_false (a b : Q) : Qle_bool a b = false -> b < a.
Proof.
  intros H. apply Qnot_le_lt. intros Hle.
  apply Qle_bool_iff in Hle. congruence.
Qed.

Lemma insert_desc_perm (x : Q * A) (l : list (Q * A)) :
  Permutation (insert_desc x l) (x :: l).
Proof.
  induction l as [| y l IH]; simpl; [reflexivity |].
  destruct (Qle_bool (fst y) (fst x)); [reflexivity |].
  rewrite IH. apply perm_swap.
Qed.

Lemma sort_desc_perm (l : list (Q * A)) : Permutation (sort_desc l) l.
Proof.
  induction l as [| x l IH]; simpl; [reflexivity |].
  rewrite insert_desc_perm. now apply perm_skip.
Qed.

Lemma insert_desc_sorted (x : Q * A) (l : list (Q * A)) :
  StronglySorted desc l -> StronglySorted desc (insert_desc x l).
Proof.
  induction l as [| y l IH]; intros Hs; simpl.
  - constructor; constructor.
  - inversion Hs as [| ? ? Hl Hy]; subst.
    destruct (Qle_bool (fst y) (fst x)) eqn:E.
    + apply Qle_bool_iff in E. constructor; [exact Hs |].
      constructor; [exact E |].
      eapply Forall_impl; [| exact Hy].
      intros z Hz. unfold desc in *. eapply Qle_trans; eassumption.
    + apply Qle_bool_false in E. constructor; [auto |].
      eapply Permutation_Forall; [symmetry; apply insert_desc_perm |].
      constructor; [| exact Hy].
      unfold desc. now apply Qlt_le_weak.
Qed.

Lemma sort_desc_sorted (l : list (Q * A)) : StronglySorted desc (sort_desc l).
Proof.
  induction l as [| x l IH]; simpl; [constructor | now apply insert_desc_sorted].
Qed.

(** Stability: the items of one key keep their order. *)
Lemma insert_desc_same_key (q : Q) (x : Q * A) (l : list (Q * A)) :
  filter (same_key q) (insert_desc x l) = filter (same_key q) (x :: l).
Proof.
  induction l as [| y l IH]; [reflexivity |].
  cbn [insert_desc]. destruct (Qle_bool (fst y) (fst x)) eqn:E; [reflexivity |].
  apply Qle_bool_false in E.
  cbn [filter] in *. rewrite IH.
  destruct (same_key q x) eqn:Ex, (same_key q y) eqn:Ey; try reflexivity.
  unfold same_key in *. apply Qeq_bool_iff in Ex, Ey.
  rewrite Ex, Ey in E. exfalso. revert E. apply Qlt_irrefl.
Qed.

Lemma sort_desc_stable (q : Q) (l : list (Q * A)) :
  filter (same_key q) (sort_desc l) = filter (same_key q) l.
Proof.
  induction l as [| x l IH]; [reflexivity |].
  cbn [sort_desc]. rewrite insert_desc_same_key. cbn [filter]. now rewrite IH.
Qed.

(** Two positions of a list, in order, split it in three. *)
Lemma nth_error_two (l : list A) (a b : nat) (x y : A) :
  (a < b)%nat -> nth_error l a = Some x -> nth_error l b = Some y ->
  exists l1 l2 l3, l = l1 ++ x :: l2 ++ y :: l3.
Proof.
  intros Hab Ha Hb.
  apply nth_error_split in Ha as (l1 & r & -> & Hlen).
  rewrite nth_error_app2 in Hb by lia.
  replace (b - List.length l1)%nat with (S (b - a - 1)) in Hb by lia.
  simpl in Hb. apply nth_error_split in Hb as (l2 & l3 & -> & _).
  now exists l1, l2, l3.
Qed.

End sorting.

Section pre_filter.
Import Py data_processor properties examples.
Local Open Scope string_scope.
Local Open Scope list_scope.

Lemma dict_get_set_same (d : dict) (k : string) (v : pyval) :
  dict_get (dict_set d k v) k = Some v.
Proof.
  induction d as [| [k' v'] d IH]; simpl.
  - now rewrite String.eqb_refl.
  - destruct (String.eqb k' k) eqn:E; simpl; rewrite E; auto.
Qed.

Lemma dict_get_set_other (d : dict) (k k' : string) (v : pyval) :
  k' <> k -> dict_get (dict_set d k v) k' = dict_get d k'.
Proof.
  intros Hk. induction d as [| [k0 v0] d IH]; simpl.
  - destruct (String.eqb_spec k k'); [congruence | reflexivity].
  - destruct (String.eqb_spec k0 k) as [-> | Hne]; simpl.
    + destruct (String.eqb_spec k k'); [congruence | reflexivity].
    + destruct (String.eqb k0 k'); auto.
Qed.

Lemma agree_except_set (k : string) (d : dict) (v : pyval) :
  agree_except k (PDict d) (PDict (dict_set d k v)).
Proof.
  right. exists d, (dict_set d k v). repeat split; auto.
  intros k' Hk. now apply dict_get_set_other.
Qed.

Lemma is_tech_job_dict (job : pyval) (b : bool) :
  is_tech_job job = Ok b -> exists d, job = PDict d.
Proof.
  destruct job; try discriminate. eauto.
Qed.

(** The step of the loop, once the two readings of the job succeeded. *)
Lemma filter_job_tech (cs : list string) (d : dict) (js : list string) :
  is_tech_job (PDict d) = Ok true ->
  job_skills_of (PDict d) = Ok js ->
  filter_job cs (PDict d)
  = Ok (option_map (fun v => PDict (dict_set d "preliminary_score" v))
                   (preliminary cs js)).
Proof.
  intros Ht Hs. unfold filter_job. rewrite Ht. cbn [bind negb].
  rewrite Hs. cbn [bind]. destruct (preliminary cs js); reflexivity.
Qed.

Lemma filter_job_Some (cs : list string) (job job' : pyval) :
  filter_job cs job = Ok (Some job') ->
  exists d v, job = PDict d /\ job' = PDict (dict_set d "preliminary_score" v).
Proof.
  unfold filter_job. intros H.
  apply bind_Ok in H as (tech & Ht & H).
  destruct (is_tech_job_dict _ _ Ht) as [d ->].
  destruct tech; simpl in H; [| discriminate].
  apply bind_Ok in H as (js & _ & H).
  destruct (preliminary cs js) as [v |]; [| discriminate].
  simpl in H. injection H as <-. eauto.
Qed.

(** The loop, position by position. *)
Lemma filter_loop_spec (cs : list string) (jobs : list pyval) :
  forall (n : nat) (jobs' : list pyval) (kept : list nat),
    filter_loop cs n jobs = (jobs', Ok kept) ->
    StronglySorted lt kept /\
    Forall (fun k => n <= k < n + List.length jobs)%nat kept /\
    forall (i : nat) (job : pyval),
      nth_error jobs i = Some job ->
      exists o, filter_job cs job = Ok o /\
                (In (n + i)%nat kept <-> o <> None) /\
                nth_error jobs' i = Some (match o with Some job' => job' | None => job end).
Proof.
  induction jobs as [| job jobs IH]; intros n jobs' kept H; cbn [filter_loop] in H.
  - injection H as <- <-. repeat split; [constructor | constructor |].
    intros [| i] job Hi; discriminate.
  - destruct (filter_job cs job) as [[job1 |] | e] eqn:Ej.
    + destruct (filter_loop cs (S n) jobs) as [rest' r] eqn:Er.
      destruct r as [kept0 | e]; simpl in H; [| discriminate].
      injection H as <- <-.
      destruct (IH _ _ _ Er) as (Hs & Hb & Hi).
      split; [| split].
      * constructor; [exact Hs |].
        eapply Forall_impl; [| exact Hb]. simpl. intros k Hk. lia.
      * constructor; [simpl; lia |].
        eapply Forall_impl; [| exact Hb]. simpl. intros k Hk. lia.
      * intros [| i] job0 Hj; simpl in Hj.
        -- injection Hj as <-. exists (Some job1). rewrite Nat.add_0_r.
           repeat split; simpl; auto; discriminate.
        -- destruct (Hi _ _ Hj) as (o & Ho & Hin & Hnth).
           exists o. repeat split; auto.
           ++ intros [Heq | Hin']; [lia |].
              apply Hin. now replace (S n + i)%nat with (n + S i)%nat by lia.
           ++ intros Hne. right.
              replace (n + S i)%nat with (S n + i)%nat by lia. now apply Hin.
    + destruct (filter_loop cs (S n) jobs) as [rest' r] eqn:Er.
      destruct r as [kept0 | e]; [| discriminate].
      injection H as <- <-.
      destruct (IH _ _ _ Er) as (Hs & Hb & Hi).
      split; [exact Hs | split].
      * eapply Forall_impl; [| exact Hb]. simpl. intros k Hk. lia.
      * intros [| i] job0 Hj; simpl in Hj.
        -- injection Hj as <-. exists None. rewrite Nat.add_0_r.
           repeat split; simpl; auto; try congruence.
           intros Hin. exfalso.
           rewrite Forall_forall in Hb. apply Hb in Hin. lia.
        -- destruct (Hi _ _ Hj) as (o & Ho & Hin & Hnth).
           exists o. repeat split; auto.
           ++ intros Hin'. apply Hin.
              now replace (S n + i)%nat with (n + S i)%nat by lia.
           ++ intros Hne.
              replace (n + S i)%nat with (S n + i)%nat by lia. now apply Hin.
    + discriminate.
Qed.

(** The loop leaves the list as long as it was and changes a dictionary
    only under the key [preliminary_score], whether or not it raises. *)
Lemma filter_loop_frame (cs : list string) (jobs : list pyval) :
  forall n : nat,
    Forall2 (agree_except "preliminary_score") jobs (fst (filter_loop cs n jobs)).
Proof.
  assert (Hrefl : forall l : list pyval,
             Forall2 (agree_except "preliminary_score") l l).
  { induction l; constructor; auto. now left. }
  induction jobs as [| job jobs IH]; intros n; cbn [filter_loop].
  - constructor.
  - destruct (filter_job cs job) as [[job1 |] | e] eqn:Ej.
    + specialize (IH (S n)).
      destruct (filter_loop cs (S n) jobs) as [rest' r]. simpl in *.
      constructor; [| exact IH].
      apply filter_job_Some in Ej as (d & v & -> & ->).
      apply agree_except_set.
    + specialize (IH (S n)).
      destruct (filter_loop cs (S n) jobs) as [rest' r]. simpl in *.
      constructor; [now left | exact IH].
    + simpl. apply Hrefl.
Qed.

Lemma mapM_Ok {A B} (f : A -> result B) (l : list A) (l' : list B) :
  mapM f l = Ok l' -> Forall2 (fun x y => f x = Ok y) l l'.
Proof.
  revert l'. induction l as [| x l IH]; intros l' H; simpl in H.
  - injection H as <-. constructor.
  - apply bind_Ok in H as (y & Hy & H).
    apply bind_Ok in H as (ys & Hys & H).
    injection H as <-. constructor; auto.
Qed.

Lemma sort_key_snd (jobs : list pyval) (i : nat) (p : Q * nat) :
  sort_key jobs i = Ok p -> snd p = i.
Proof.
  unfold sort_key. destruct (nth_error jobs i); [| discriminate].
  intros H. apply bind_Ok in H as (v & _ & H).
  apply bind_Ok in H as (q & _ & H). now injection H as <-.
Qed.

Lemma keyed_refs (jobs : list pyval) (refs : list nat) (keyed : list (Q * nat)) :
  mapM (sort_key jobs) refs = Ok keyed ->
  map snd keyed = refs /\
  Forall (fun p => sort_key jobs (snd p) = Ok p) keyed.
Proof.
  intros H. apply mapM_Ok in H.
  induction H as [| i p refs keyed Hp _ [IH1 IH2]]; simpl; [auto |].
  pose proof (sort_key_snd _ _ _ Hp) as Hs. split.
  - now rewrite Hs, IH1.
  - constructor; [now rewrite Hs | exact IH2].
Qed.

(** The steps of a call of the pre-filter that returns. *)
Lemma pre_filter_Ok (jobs : list pyval) (c : pyval) (jobs' : list pyval) (out : list nat) :
  _pre_filter_jobs jobs c = (jobs', Ok out) ->
  exists cs filtered keyed,
    candidate_skills_of c = Ok cs /\
    filter_loop cs 0 jobs = (jobs', Ok filtered) /\
    mapM (sort_key jobs') filtered = Ok keyed /\
    out = firstn 50 (map snd (sort_desc keyed)).
Proof.
  unfold _pre_filter_jobs. intros H.
  destruct (candidate_skills_of c) as [cs | e]; [| discriminate].
  destruct (filter_loop cs 0 jobs) as [jobs1 r] eqn:El.
  injection H as -> H.
  apply bind_Ok in H as (filtered & -> & H).
  apply bind_Ok in H as (keyed & Hk & H).
  apply bind_Ok in H as (dbg & _ & H).
  injection H as <-.
  exists cs, filtered, keyed. auto.
Qed.

Lemma skill_positive (s : Q) : negb (Qle_bool s 0) = true <-> (0 < s)%Q.
Proof.
  destruct (Qle_bool s 0) eqn:E; simpl; split; intros H; try discriminate; auto.
  - apply Qle_bool_iff in E. exfalso. eapply Qlt_not_le; eassumption.
  - now apply Qle_bool_false.
Qed.

(** The decision of the loop in the words of the filter rule. *)
Lemma preliminary_spec (cs js : list string) :
  (preliminary cs js <> None <->
     js = [] \/ (0 < skill_score_of cs js)%Q \/ (List.length js <= 5)%nat) /\
  (forall v, preliminary cs js = Some v ->
     v = match js with
         | [] => PInt 50
         | _ => PFloat (skill_score_of cs js * 100)
         end).
Proof.
  unfold preliminary. destruct js as [| x js].
  - split; [split; [auto | discriminate] |].
    intros v Hv. congruence.
  - assert (Hne : x :: js <> []) by discriminate.
    set (l := x :: js) in *. clearbody l.
    set (s := skill_score_of cs l).
    pose proof (skill_positive s) as Hpos.
    replace (match l with [] => PInt 50 | _ :: _ => PFloat (s * 100) end)
      with (PFloat (s * 100)) by (destruct l; congruence).
    destruct (negb (Qle_bool s 0)) eqn:E1; cbn [orb].
    + split; [| intros v Hv; congruence].
      split; [intros _; right; left; now apply Hpos | discriminate].
    + destruct (Nat.leb_spec (List.length l) 5) as [H5 | H5].
      * split; [| intros v Hv; congruence].
        split; [intros _; right; right; exact H5 | discriminate].
      * split; [| discriminate].
        split; [congruence |].
        intros [H | [H | H]]; [congruence | | lia].
        apply Hpos in H. discriminate.
Qed.

Lemma In_firstn {A} (n : nat) (l : list A) (x : A) :
  In x (firstn n l) -> In x l.
Proof.
  intros H. rewrite <- (firstn_skipn n l). apply in_or_app. now left.
Qed.

Lemma no_overlap_score (cs js : list string) :
  intersection cs js = [] -> (skill_score_of cs js == 0)%Q.
Proof.
  intros H. unfold skill_score_of. rewrite H. simpl.
  unfold Qdiv. apply Qmult_0_l.
Qed.

Lemma candidate_skills_shape (c : pyval) (cs : list string) :
  candidate_skills_of c = Ok cs ->
  exists skills texts,
    get c "skills" (PList []) = Ok skills /\
    iter skills = Ok (map PStr texts) /\
    cs = set_of (map (fun s => PyStr.strip (PyStr.lower s)) texts).
Proof.
  unfold candidate_skills_of. intros H.
  apply bind_Ok in H as (skills & Hs & H).
  apply bind_Ok in H as (items & Hi & H).
  apply bind_Ok in H as (cleaned & Hc & H). injection H as <-.
  apply mapM_str_Ok in Hc as (texts & -> & ->).
  now exists skills, texts.
Qed.

Lemma job_skills_shape (job : pyval) (js : list string) :
  job_skills_of job = Ok js ->
  exists requirements texts,
    get job "requirements" (PDict []) = Ok requirements /\
    match requirements with
    | PDict _ =>
        exists skills_list,
          get requirements "skills" (PList []) = Ok skills_list /\
          match skills_list with
          | PList l => l = map PStr texts
          | PStr s => texts = PyStr.split "," s
          | _ => texts = []
          end
    | _ => texts = []
    end /\
    js = set_of (map (fun s => PyStr.strip_chars (String quote "[]")
                                 (PyStr.strip (PyStr.lower s))) texts).
Proof.
  unfold job_skills_of. intros H.
  apply bind_Ok in H as (requirements & Hr & H).
  exists requirements.
  destruct requirements as [| | | | | | d]; cbn [isinstance_dict] in H;
    try (injection H as <-; exists []; repeat split; assumption).
  apply bind_Ok in H as (skills_list & Hs & H).
  destruct skills_list as [| | | | t | l |];
    try (injection H as <-; exists []; split; [exact Hr |]; split; [| reflexivity];
         eexists; split; [exact Hs | reflexivity]).
  - injection H as <-. exists (PyStr.split "," t).
    split; [exact Hr |]. split; [| reflexivity].
    eexists. split; [exact Hs | reflexivity].
  - apply bind_Ok in H as (cleaned & Hc & H). injection H as <-.
    apply mapM_str_Ok in Hc as (texts & -> & ->).
    exists texts. split; [exact Hr |]. split; [| reflexivity].
    eexists. split; [exact Hs | reflexivity].
Qed.

Lemma filter_job_skills (cs : list string) (job : pyval) (o : option pyval) :
  filter_job cs job = Ok o -> is_tech_job job = Ok true ->
  exists js, job_skills_of job = Ok js.
Proof.
  unfold filter_job. intros H Ht. rewrite Ht in H. cbn [bind negb] in H.
  destruct (job_skills_of job) as [js | e]; [now exists js | discriminate H].
Qed.

(** C4. For a domain-relevant job of the catalog, the pre-filter's loop
    keeps the job exactly when its set of required skills is empty, or the
    share of them the candidate has is positive, or there are at most five
    of them.  The candidate's set holds the candidate's skills, lower-cased
    and stripped of blanks; the job's set holds the job's skills (the items
    of a list, or the parts of a comma-separated string), lower-cased,
    stripped of blanks and then of double quotes and square brackets; the
    share is the number of skills the two sets have in common over the
    number of skills of the job.  A kept job gets the preliminary score 50
    in the first case and a hundred times the share otherwise; a job that
    is not kept is left as it was.  So with no skill in common a job asking
    for more than five skills is dropped and one asking for at most five is
    kept, with score zero.  The jobs returned are among the kept ones, and
    are all of them when there are at most fifty. *)
Theorem C4_keep_decision (jobs : list pyval) (c : pyval) (jobs' : list pyval)
    (out : list nat) (i : nat) (job : pyval) :
  _pre_filter_jobs jobs c = (jobs', Ok out) ->
  nth_error jobs i = Some job ->
  is_tech_job job = Ok true ->
  exists candidate_texts texts cs js common kept,
    (exists skills,
       get c "skills" (PList []) = Ok skills /\
       iter skills = Ok (map PStr candidate_texts)) /\
    is_set_of cs (map (fun s => PyStr.strip (PyStr.lower s)) candidate_texts) /\
    (exists requirements,
       get job "requirements" (PDict []) = Ok requirements /\
       match requirements with
       | PDict _ =>
           exists skills_list,
             get requirements "skills" (PList []) = Ok skills_list /\
             match skills_list with
             | PList l => l = map PStr texts
             | PStr s => texts = PyStr.split "," s
             | _ => texts = []
             end
       | _ => texts = []
       end) /\
    is_set_of js (map (fun s => PyStr.strip_chars (String quote "[]")
                                  (PyStr.strip (PyStr.lower s))) texts) /\
    (NoDup common /\ forall x, In x common <-> In x cs /\ In x js) /\
    filter_loop cs 0 jobs = (jobs', Ok kept) /\
    let skill_score :=
      (inject_Z (Z.of_nat (List.length common))
       / inject_Z (Z.of_nat (List.length js)))%Q in
    (In i kept <->
       js = [] \/ (0 < skill_score)%Q \/ (List.length js <= 5)%nat) /\
    (In i kept ->
       getitem (deref jobs' i) "preliminary_score"
       = Ok (match js with
             | [] => PInt 50
             | _ => PFloat (skill_score * 100)
             end)) /\
    (~ In i kept -> deref jobs' i = job) /\
    (common = [] -> (5 < List.length js)%nat -> ~ In i kept) /\
    (common = [] -> (List.length js <= 5)%nat ->
       In i kept /\ (skill_score * 100 == 0)%Q) /\
    (In i out -> In i kept) /\
    ((List.length kept <= 50)%nat -> In i kept -> In i out).
Proof.
  intros Hpf Hjob Htech.
  apply pre_filter_Ok in Hpf as (cs & kept & keyed & Hcs & Hloop & Hkeyed & ->).
  destruct (filter_loop_spec _ _ _ _ _ Hloop) as (_ & _ & Hpos).
  destruct (Hpos _ _ Hjob) as (o & Ho & Hin & Hnth). simpl in Hin.
  destruct (filter_job_skills cs job o Ho Htech) as (js & Hskills).
  destruct (candidate_skills_shape c cs Hcs) as (skills & candidate_texts & Hg & Hi & Ecs).
  destruct (job_skills_shape job js Hskills) as (requirements & texts & Hr & Hshape & Ejs).
  assert (Hndcs : NoDup cs) by (rewrite Ecs; apply set_of_NoDup).
  exists candidate_texts, texts, cs, js, (intersection cs js), kept.
  split; [now exists skills |].
  split; [rewrite Ecs; apply set_of_is_set |].
  split; [now exists requirements |].
  split; [rewrite Ejs; apply set_of_is_set |].
  split; [now apply intersection_is_set |].
  split; [exact Hloop |].
  cbv zeta. change (inject_Z (Z.of_nat (List.length (intersection cs js)))
                    / inject_Z (Z.of_nat (List.length js)))%Q
              with (skill_score_of cs js).
  destruct (is_tech_job_dict _ _ Htech) as [d ->].
  rewrite (filter_job_tech cs d js Htech Hskills) in Ho. injection Ho as <-.
  destruct (preliminary_spec cs js) as [Hdec Hval].
  assert (Hiff : In i kept <-> preliminary cs js <> None).
  { rewrite Hin. destruct (preliminary cs js); simpl; split; congruence. }
  assert (Hderef : deref jobs' i
                   = match option_map (fun v => PDict (dict_set d "preliminary_score" v))
                             (preliminary cs js) with
                     | Some job' => job'
                     | None => PDict d
                     end).
  { unfold deref. now apply nth_error_nth. }
  destruct (keyed_refs _ _ _ Hkeyed) as [Hsnd _].
  assert (Hperm : Permutation (map snd (sort_desc keyed)) kept).
  { rewrite <- Hsnd. apply Permutation_map, sort_desc_perm. }
  split; [now rewrite Hiff |].
  split; [| split; [| split; [| split; [| split]]]].
  - intros Hk. apply Hiff in Hk. rewrite Hderef.
    destruct (preliminary cs js) as [v |] eqn:Ep; [| congruence].
    simpl. rewrite dict_get_set_same. now rewrite (Hval v eq_refl).
  - intros Hk. rewrite Hderef.
    destruct (preliminary cs js) as [v |] eqn:Ep; [| reflexivity].
    exfalso. apply Hk, Hiff. discriminate.
  - intros Hno H5 Hk. apply Hiff, Hdec in Hk.
    destruct Hk as [-> | [Hk | Hk]]; [simpl in H5; lia | | lia].
    rewrite (no_overlap_score _ _ Hno) in Hk. revert Hk. apply Qlt_irrefl.
  - intros Hno H5. split.
    + apply Hiff, Hdec. auto.
    + rewrite (no_overlap_score _ _ Hno). reflexivity.
  - intros Hout. apply In_firstn in Hout.
    eapply Permutation_in; eassumption.
  - intros H50 Hk. rewrite firstn_all2.
    + eapply Permutation_in; [symmetry; exact Hperm | exact Hk].
    + rewrite (Permutation_length Hperm). exact H50.
Qed.

Lemma is_set_of_length_le (s l : list string) :
  is_set_of s l -> (List.length s <= List.length l)%nat.
Proof.
  intros [Hnd Hin]. apply NoDup_incl_length; [exact Hnd |].
  intros x Hx. now apply Hin.
Qed.

Lemma is_set_of_length (s l : list string) :
  is_set_of s l -> NoDup l -> List.length s = List.length l.
Proof.
  intros [Hnd Hin] Hl. apply Permutation_length, NoDup_Permutation; assumption.
Qed.

Lemma no_common_skill (common cs js a b : list string) :
  (forall x, In x common <-> In x cs /\ In x js) ->
  is_set_of cs a -> is_set_of js b ->
  (forall x, In x a -> In x b -> False) ->
  common = [].
Proof.
  intros Hc [_ Ha] [_ Hb] Hdis. destruct common as [| x common]; [reflexivity |].
  exfalso. destruct (proj1 (Hc x) (or_introl eq_refl)) as [H1 H2].
  apply (Hdis x); [now apply Ha | now apply Hb].
Qed.

Lemma map_PStr_inj (a b : list string) : map PStr a = map PStr b -> a = b.
Proof.
  revert b. induction a as [| x a IH]; intros [| y b] H; try discriminate H; [reflexivity |].
  cbn [map] in H. injection H as -> H. now rewrite (IH b H).
Qed.

Lemma C4_keep_decision_witness :
  _pre_filter_jobs small_catalog experienced_candidate
    = (fst (_pre_filter_jobs small_catalog experienced_candidate), Ok [2; 0; 5; 4]%nat) /\
  (exists cs kept,
     is_set_of cs ["python"; "sql"] /\
     filter_loop cs 0 small_catalog
       = (fst (_pre_filter_jobs small_catalog experienced_candidate), Ok kept) /\
     In 4%nat kept /\
     getitem (deref (fst (_pre_filter_jobs small_catalog experienced_candidate)) 4)
       "preliminary_score" = Ok (PFloat (0 / 1 * 100))) /\
  (exists cs kept,
     is_set_of cs ["python"; "sql"] /\
     filter_loop cs 0 small_catalog
       = (fst (_pre_filter_jobs small_catalog experienced_candidate), Ok kept) /\
     ~ In 1%nat kept).
Proof.
  assert (H : _pre_filter_jobs small_catalog experienced_candidate
              = (fst (_pre_filter_jobs small_catalog experienced_candidate),
                 Ok [2; 0; 5; 4]%nat))
    by (vm_compute; reflexivity).
  split; [exact H |]. split.
  - assert (Hjob : nth_error small_catalog 4 = Some (nth 4 small_catalog PNone))
      by (vm_compute; reflexivity).
    assert (Htech : is_tech_job (nth 4 small_catalog PNone) = Ok true)
      by (vm_compute; reflexivity).
    destruct (C4_keep_decision small_catalog experienced_candidate
                (fst (_pre_filter_jobs small_catalog experienced_candidate))
                [2; 0; 5; 4]%nat 4%nat (nth 4 small_catalog PNone) H Hjob Htech)
      as (candidate_texts & texts & cs & js & common & kept
          & Hcand & Hcs & Hreq & Hjs & Hcommon & Hloop & Hrule).
    cbv zeta in Hrule.
    destruct Hrule as (_ & Hscore & _ & _ & Hkeep & _ & _).
    destruct Hcand as (skills & Hg & Hi).
    vm_compute in Hg. injection Hg as <-. cbn [iter] in Hi. injection Hi as Hi.
    apply (map_PStr_inj ["Python"; "SQL"]) in Hi. subst candidate_texts.
    destruct Hreq as (requirements & Hr & Hshape).
    vm_compute in Hr. injection Hr as <-.
    destruct Hshape as (skills_list & Hs & Hl).
    vm_compute in Hs. injection Hs as <-.
    apply (map_PStr_inj ["windows"]) in Hl. subst texts.
    change (map (fun s => PyStr.strip (PyStr.lower s)) ["Python"; "SQL"])
      with ["python"; "sql"] in Hcs.
    change (map (fun s => PyStr.strip_chars (String quote "[]")
                            (PyStr.strip (PyStr.lower s))) ["windows"])
      with ["windows"] in Hjs.
    assert (Hno : common = []).
    { apply (no_common_skill common cs js ["python"; "sql"] ["windows"]);
        [apply Hcommon | exact Hcs | exact Hjs |].
      intros x [<- | [<- | []]] [E | []]; discriminate E. }
    assert (Hlen : List.length js = 1%nat).
    { apply (is_set_of_length js ["windows"] Hjs).
      constructor; [intros [] | constructor]. }
    destruct (Hkeep Hno) as (Hk & _); [lia |].
    exists cs, kept. split; [exact Hcs |]. split; [exact Hloop |]. split; [exact Hk |].
    rewrite (Hscore Hk), Hno.
    destruct js as [| j [| j' js]]; try discriminate Hlen. reflexivity.
  - assert (Hjob : nth_error small_catalog 1 = Some (nth 1 small_catalog PNone))
      by (vm_compute; reflexivity).
    assert (Htech : is_tech_job (nth 1 small_catalog PNone) = Ok true)
      by (vm_compute; reflexivity).
    destruct (C4_keep_decision small_catalog experienced_candidate
                (fst (_pre_filter_jobs small_catalog experienced_candidate))
                [2; 0; 5; 4]%nat 1%nat (nth 1 small_catalog PNone) H Hjob Htech)
      as (candidate_texts & texts & cs & js & common & kept
          & Hcand & Hcs & Hreq & Hjs & Hcommon & Hloop & Hrule).
    cbv zeta in Hrule.
    destruct Hrule as (_ & _ & _ & Hdrop & _).
    destruct Hcand as (skills & Hg & Hi).
    vm_compute in Hg. injection Hg as <-. cbn [iter] in Hi. injection Hi as Hi.
    apply (map_PStr_inj ["Python"; "SQL"]) in Hi. subst candidate_texts.
    destruct Hreq as (requirements & Hr & Hshape).
    vm_compute in Hr. injection Hr as <-.
    destruct Hshape as (skills_list & Hs & Hl).
    vm_compute in Hs. injection Hs as <-.
    apply (map_PStr_inj
             ["docker"; "kubernetes"; "terraform"; "ansible"; "jenkins"; "bash"]) in Hl.
    subst texts.
    change (map (fun s => PyStr.strip (PyStr.lower s)) ["Python"; "SQL"])
      with ["python"; "sql"] in Hcs.
    change (map (fun s => PyStr.strip_chars (String quote "[]")
                            (PyStr.strip (PyStr.lower s)))
                ["docker"; "kubernetes"; "terraform"; "ansible"; "jenkins"; "bash"])
      with ["docker"; "kubernetes"; "terraform"; "ansible"; "jenkins"; "bash"] in Hjs.
    assert (Hno : common = []).
    { apply (no_common_skill common cs js ["python"; "sql"]
               ["docker"; "kubernetes"; "terraform"; "ansible"; "jenkins"; "bash"]);
        [apply Hcommon | exact Hcs | exact Hjs |].
      intros x [<- | [<- | []]] Hx; cbn [In] in Hx;
        repeat (destruct Hx as [E | Hx]; [discriminate E |]); exact Hx. }
    assert (Hlen : List.length js = 6%nat).
    { apply (is_set_of_length js _ Hjs).
      repeat (constructor; [cbn [In]; intros Hx;
                            repeat (destruct Hx as [E | Hx]; [discriminate E |]);
                            exact Hx |]).
      constructor. }
    exists cs, kept. split; [exact Hcs |]. split; [exact Hloop |].
    apply (Hdrop Hno). lia.
Defined.

Lemma StronglySorted_two {A} (R : A -> A -> Prop) (l1 l2 l3 : list A) (x y : A) :
  StronglySorted R (l1 ++ x :: l2 ++ y :: l3) -> R x y.
Proof.
  induction l1 as [| z l1 IH]; simpl; intros H; inversion H as [| ? ? Hs Hf]; subst.
  - rewrite Forall_forall in Hf. apply Hf, in_or_app. right. now left.
  - auto.
Qed.

Lemma StronglySorted_filter_snd (p : Q * nat -> bool) (l : list (Q * nat)) :
  StronglySorted lt (map snd l) -> StronglySorted lt (map snd (filter p l)).
Proof.
  induction l as [| x l IH]; simpl; intros H; [constructor |].
  inversion H as [| ? ? Hs Hf]; subst.
  destruct (p x); simpl; [| auto].
  constructor; [auto |].
  rewrite Forall_forall in *. intros k Hk. apply Hf.
  apply in_map_iff in Hk as (y & <- & Hy). apply filter_In in Hy as [Hy _].
  now apply in_map.
Qed.

Lemma nth_error_firstn_Some {A} (n i : nat) (l : list A) (x : A) :
  nth_error (firstn n l) i = Some x -> nth_error l i = Some x.
Proof.
  rewrite nth_error_firstn. destruct (Nat.ltb i n); [auto | discriminate].
Qed.

Lemma nth_error_map_Some {A B} (f : A -> B) (i : nat) (l : list A) (y : B) :
  nth_error (map f l) i = Some y -> exists x, nth_error l i = Some x /\ f x = y.
Proof.
  rewrite nth_error_map. destruct (nth_error l i) as [x |]; simpl; [| discriminate].
  intros [= <-]. eauto.
Qed.

(** C5. Whenever the pre-filter returns, its output has at most 50
    entries; it is the first 50 entries of the kept jobs once these are
    sorted, so the truncation comes after the sort; the preliminary scores
    along the output never increase; and two jobs of the output with equal
    preliminary scores stand in the order they have in the catalog. *)
Theorem C5_filter_output (jobs : list pyval) (c : pyval) (jobs' : list pyval)
    (out : list nat) :
  _pre_filter_jobs jobs c = (jobs', Ok out) ->
  (List.length out <= 50)%nat /\
  (exists cs kept keyed,
      candidate_skills_of c = Ok cs /\
      filter_loop cs 0 jobs = (jobs', Ok kept) /\
      mapM (sort_key jobs') kept = Ok keyed /\
      Permutation (map snd (sort_desc keyed)) kept /\
      out = firstn 50 (map snd (sort_desc keyed))) /\
  (forall (a b ia ib : nat),
      (a < b)%nat -> nth_error out a = Some ia -> nth_error out b = Some ib ->
      exists qa qb : Q,
        sort_key jobs' ia = Ok (qa, ia) /\ sort_key jobs' ib = Ok (qb, ib) /\
        (qb <= qa)%Q /\ ((qa == qb)%Q -> (ia < ib)%nat)).
Proof.
  intros Hpf.
  apply pre_filter_Ok in Hpf as (cs & kept & keyed & Hcs & Hloop & Hkeyed & ->).
  destruct (keyed_refs _ _ _ Hkeyed) as [Hsnd Hkeys].
  assert (Hperm : Permutation (map snd (sort_desc keyed)) kept).
  { rewrite <- Hsnd. apply Permutation_map, sort_desc_perm. }
  split; [rewrite length_firstn; lia |].
  split; [exists cs, kept, keyed; auto |].
  intros a b ia ib Hab Ha Hb.
  apply nth_error_firstn_Some, nth_error_map_Some in Ha as ([qa ia'] & Ha & Eia).
  apply nth_error_firstn_Some, nth_error_map_Some in Hb as ([qb ib'] & Hb & Eib).
  simpl in Eia, Eib. subst ia' ib'.
  assert (Hin : forall p, In p (sort_desc keyed) -> sort_key jobs' (snd p) = Ok p).
  { intros p Hp. rewrite Forall_forall in Hkeys. apply Hkeys.
    eapply Permutation_in; [apply sort_desc_perm | exact Hp]. }
  pose proof (Hin _ (nth_error_In _ _ Ha)) as Hka.
  pose proof (Hin _ (nth_error_In _ _ Hb)) as Hkb. simpl in Hka, Hkb.
  destruct (nth_error_two _ _ _ _ _ Hab Ha Hb) as (l1 & l2 & l3 & Hsplit).
  exists qa, qb. split; [exact Hka |]. split; [exact Hkb |]. split.
  - pose proof (sort_desc_sorted keyed) as Hs. rewrite Hsplit in Hs.
    apply StronglySorted_two in Hs. exact Hs.
  - intros Heq.
    pose proof (sort_desc_stable qa keyed) as Hst. rewrite Hsplit in Hst.
    rewrite filter_app in Hst. cbn [filter] in Hst.
    rewrite filter_app in Hst. cbn [filter] in Hst.
    assert (Ea : same_key qa (qa, ia) = true)
      by (apply Qeq_bool_iff; reflexivity).
    assert (Eb : same_key qa (qb, ib) = true)
      by (apply Qeq_bool_iff; simpl; symmetry; exact Heq).
    rewrite Ea, Eb in Hst.
    destruct (filter_loop_spec _ _ _ _ _ Hloop) as (Hsorted & _ & _).
    rewrite <- Hsnd in Hsorted.
    apply (StronglySorted_filter_snd (same_key qa)) in Hsorted.
    rewrite <- Hst in Hsorted.
    rewrite map_app in Hsorted. cbn [map] in Hsorted.
    rewrite map_app in Hsorted. cbn [map] in Hsorted.
    apply StronglySorted_two in Hsorted. exact Hsorted.
Qed.

Lemma C5_filter_output_witness :
  _pre_filter_jobs small_catalog experienced_candidate
    = (fst (_pre_filter_jobs small_catalog experienced_candidate), Ok [2; 0; 5; 4]%nat) /\
  exists qa qb : Q,
    sort_key (fst (_pre_filter_jobs small_catalog experienced_candidate)) 0 = Ok (qa, 0%nat) /\
    sort_key (fst (_pre_filter_jobs small_catalog experienced_candidate)) 5 = Ok (qb, 5%nat) /\
    (qb <= qa)%Q /\ ((qa == qb)%Q -> (0 < 5)%nat).
Proof.
  assert (H : _pre_filter_jobs small_catalog experienced_candidate
              = (fst (_pre_filter_jobs small_catalog experienced_candidate),
                 Ok [2; 0; 5; 4]%nat))
    by (vm_compute; reflexivity).
  split; [exact H |].
  destruct (C5_filter_output _ _ _ _ H) as (_ & _ & Hord).
  apply (Hord 1%nat 2%nat 0%nat 5%nat); [lia | reflexivity | reflexivity].
Defined.

Lemma pre_filter_frame (jobs : list pyval) (c : pyval) :
  Forall2 (agree_except "preliminary_score") jobs (fst (_pre_filter_jobs jobs c)).
Proof.
  unfold _pre_filter_jobs.
  destruct (candidate_skills_of c) as [cs | e].
  - pose proof (filter_loop_frame cs jobs 0) as H.
    destruct (filter_loop cs 0 jobs) as [jobs' r]. exact H.
  - simpl. induction jobs; constructor; auto. now left.
Qed.

Lemma Forall2_length_eq {A B} (R : A -> B -> Prop) (l : list A) (l' : list B) :
  Forall2 R l l' -> List.length l' = List.length l.
Proof. induction 1; simpl; congruence. Qed.

(** C8 as stated fails.  The catalog is the one the loader builds from six
    rows.  Before the call the dictionary of its first job has no
    [preliminary_score] key; after the call the very same catalog entry
    carries the key, with value 50, so the catalog is not what it was. *)
Lemma C8_counterexample :
  getitem (deref small_catalog 0) "preliminary_score" = Raise KeyError /\
  (exists q : Q,
      getitem (deref (fst (_pre_filter_jobs small_catalog experienced_candidate)) 0)
              "preliminary_score" = Ok (PFloat q) /\ (q == 50)%Q) /\
  fst (_pre_filter_jobs small_catalog experienced_candidate) <> small_catalog.
Proof.
  split; [reflexivity |]. split.
  - exists (skill_score_of ["python"; "sql"] ["sql"; "excel"] * 100)%Q.
    split; reflexivity.
  - intros H. apply (f_equal (fun l => getitem (deref l 0) "preliminary_score")) in H.
    vm_compute in H. discriminate.
Qed.

(** C8, amended.  The pre-filter changes the catalog only by assigning the
    [preliminary_score] key of the jobs its loop keeps: after a call,
    whether it returns or raises, the catalog has the same length, every
    entry is the same dictionary up to the value under that key, and when
    the loop runs to its end every job it did not keep is unchanged. *)
Theorem C8_filter_frame (jobs : list pyval) (c : pyval) :
  let jobs' := fst (_pre_filter_jobs jobs c) in
  List.length jobs' = List.length jobs /\
  Forall2 (agree_except "preliminary_score") jobs jobs' /\
  forall (cs : list string) (jobs'' : list pyval) (kept : list nat),
    candidate_skills_of c = Ok cs ->
    filter_loop cs 0 jobs = (jobs'', Ok kept) ->
    jobs'' = jobs' /\
    forall i : nat, ~ In i kept -> nth_error jobs' i = nth_error jobs i.
Proof.
  cbv zeta. pose proof (pre_filter_frame jobs c) as Hframe.
  pose proof (Forall2_length_eq _ _ _ Hframe) as Hlen.
  split; [exact Hlen |]. split; [exact Hframe |].
  intros cs jobs'' kept Hcs Hloop.
  assert (Heq : jobs'' = fst (_pre_filter_jobs jobs c)).
  { unfold _pre_filter_jobs. rewrite Hcs, Hloop. reflexivity. }
  split; [exact Heq |]. rewrite <- Heq in *.
  intros i Hi.
  destruct (filter_loop_spec _ _ _ _ _ Hloop) as (_ & _ & Hpos).
  destruct (nth_error jobs i) as [job |] eqn:Ej.
  - destruct (Hpos _ _ Ej) as (o & _ & Hin & Hnth). simpl in Hin.
    destruct o as [job' |]; [| exact Hnth].
    exfalso. apply Hi, Hin. discriminate.
  - apply nth_error_None in Ej. apply nth_error_None. lia.
Qed.

Lemma C8_filter_frame_witness :
  candidate_skills_of experienced_candidate = Ok ["python"; "sql"] /\
  filter_loop ["python"; "sql"] 0 small_catalog
    = (fst (_pre_filter_jobs small_catalog experienced_candidate), Ok [0; 2; 4; 5]%nat) /\
  nth_error (fst (_pre_filter_jobs small_catalog experienced_candidate)) 1
    = nth_error small_catalog 1.
Proof.
  assert (Hcs : candidate_skills_of experienced_candidate = Ok ["python"; "sql"])
    by (vm_compute; reflexivity).
  assert (Hloop : filter_loop ["python"; "sql"] 0 small_catalog
                  = (fst (_pre_filter_jobs small_catalog experienced_candidate),
                     Ok [0; 2; 4; 5]%nat))
    by (vm_compute; reflexivity).
  split; [exact Hcs |]. split; [exact Hloop |].
  destruct (C8_filter_frame small_catalog experienced_candidate) as (_ & _ & H).
  destruct (H _ _ _ Hcs Hloop) as [_ Hkeep].
  apply Hkeep. simpl. intros [E | [E | [E | [E | []]]]]; discriminate.
Defined.

End pre_filter.

Section orchestrator.
Import Py data_processor properties examples.
Local Open Scope string_scope.
Local Open Scope list_scope.

Lemma accepted_jobs_requirements (rows : list dict) :
  forallb has_requirements (accepted_jobs rows) = true.
Proof.
  unfold accepted_jobs. induction rows as [| row rows IH]; simpl; [reflexivity |].
  rewrite forallb_app, IH, andb_true_r.
  destruct (parse_row row) as [[job |] | e] eqn:E; simpl; try reflexivity.
  apply parse_row_job in E as [_ ->]. reflexivity.
Qed.

Lemma load_jobs_requirements (file : csv_file) :
  forallb has_requirements (_load_jobs_from_csv file) = true.
Proof.
  destruct (load_jobs_shape file) as (rows & _ & ->).
  apply accepted_jobs_requirements.
Qed.

Lemma cached_jobs_requirements (self : DataProcessor) (w : World) :
  cache_ok self = true ->
  forallb has_requirements (snd (_get_cached_jobs self w)) = true.
Proof.
  unfold cache_ok, _get_cached_jobs. intros H.
  destruct (_cached_jobs self) as [jobs |].
  - destruct (Qle_bool _ _); simpl; [exact H | apply load_jobs_requirements].
  - simpl. apply load_jobs_requirements.
Qed.

Lemma agree_except_requirements (job job' : pyval) :
  agree_except "preliminary_score" job job' ->
  has_requirements job' = has_requirements job.
Proof.
  intros [-> | (d & d' & -> & -> & H)]; [reflexivity |].
  simpl. rewrite H; [reflexivity | discriminate].
Qed.

Lemma pre_filter_requirements (jobs : list pyval) (c : pyval) :
  forallb has_requirements jobs = true ->
  forallb has_requirements (fst (_pre_filter_jobs jobs c)) = true.
Proof.
  intros H. pose proof (pre_filter_frame jobs c) as Hf.
  induction Hf as [| job job' jobs jobs' Hj _ IH]; [reflexivity |].
  simpl in *. apply andb_true_iff in H as [H1 H2].
  rewrite (agree_except_requirements _ _ Hj), H1. simpl. auto.
Qed.

(** Scoring a job that carries its requirements does not raise. *)
Lemma match_job_Ok (matcher : ai_processor.JobMatcher) (c job : pyval) :
  has_requirements job = true -> exists m, match_job matcher c job = Ok m.
Proof.
  unfold has_requirements, match_job. destruct job as [| | | | | | d]; try discriminate.
  destruct (dict_get d "requirements") as [[| | | | | | rq] |] eqn:E; try discriminate.
  intros _. unfold debug_skills. simpl. rewrite E. simpl. eauto.
Qed.

Lemma match_jobs_all (matcher : ai_processor.JobMatcher) (c : pyval) (page_jobs : list pyval) :
  forallb has_requirements page_jobs = true ->
  Forall2 (fun job m => match_job matcher c job = Ok m)
          page_jobs (match_jobs matcher c page_jobs).
Proof.
  induction page_jobs as [| job l IH]; simpl; intros H; [constructor |].
  apply andb_true_iff in H as [H1 H2].
  destruct (match_job_Ok matcher c job H1) as [m Hm]. rewrite Hm.
  constructor; auto.
Qed.

(** A page of a list: for a page and a page size of at least one, the
    Python slice is the plain window. *)
Lemma slice_page {A} (l : list A) (page per_page : Z) :
  (1 <= page)%Z -> (1 <= per_page)%Z ->
  slice l ((page - 1) * per_page) ((page - 1) * per_page + per_page)
  = firstn (Z.to_nat per_page) (skipn (Z.to_nat ((page - 1) * per_page)) l).
Proof.
  intros Hp Hpp. unfold slice, clamp_index.
  set (len := Z.of_nat (List.length l)).
  set (start := ((page - 1) * per_page)%Z).
  assert (Hs : (0 <= start)%Z) by (subst start; nia).
  destruct (Z.ltb_spec start 0) as [? | _]; [lia |].
  destruct (Z.ltb_spec (start + per_page) 0) as [? | _]; [lia |].
  destruct (Z.le_gt_cases len start) as [Hge | Hlt].
  - rewrite (Z.min_r start len) by lia.
    rewrite !skipn_all2 by (subst len; lia).
    now rewrite !firstn_nil.
  - rewrite (Z.min_l start len) by lia.
    destruct (Z.le_gt_cases (start + per_page) len) as [Hin | Hout].
    + rewrite Z.min_l by lia. f_equal. lia.
    + rewrite Z.min_r by lia.
      rewrite !firstn_all2; [reflexivity | |];
        rewrite length_skipn; subst len; lia.
Qed.

Lemma forallb_nth_in_range {A} (p : A -> bool) (l : list A) (d : A) (refs : list nat) :
  forallb p l = true ->
  Forall (fun i => i < List.length l)%nat refs ->
  forallb p (map (fun i => nth i l d) refs) = true.
Proof.
  intros Hp Hr. rewrite forallb_forall in *.
  intros x Hx. apply in_map_iff in Hx as (i & <- & Hi).
  rewrite Forall_forall in Hr. apply Hp, nth_In, Hr, Hi.
Qed.

(** The references the pre-filter returns are positions of the catalog. *)
Lemma pre_filter_refs (jobs : list pyval) (c : pyval) (jobs' : list pyval) (out : list nat) :
  _pre_filter_jobs jobs c = (jobs', Ok out) ->
  Forall (fun i => i < List.length jobs')%nat out.
Proof.
  intros H. pose proof (pre_filter_frame jobs c) as Hf. rewrite H in Hf. simpl in Hf.
  apply Forall2_length_eq in Hf.
  apply pre_filter_Ok in H as (cs & kept & keyed & _ & Hloop & Hkeyed & ->).
  destruct (keyed_refs _ _ _ Hkeyed) as [Hsnd _].
  destruct (filter_loop_spec _ _ _ _ _ Hloop) as (_ & Hb & _).
  rewrite Forall_forall in *. intros i Hi.
  apply In_firstn in Hi.
  assert (In i kept).
  { rewrite <- Hsnd. eapply Permutation_in; [| exact Hi].
    apply Permutation_map, sort_desc_perm. }
  apply Hb in H. lia.
Qed.

Lemma get_cached_jobs_matcher (self : DataProcessor) (w : World) :
  job_matcher (fst (_get_cached_jobs self w)) = job_matcher self.
Proof.
  unfold _get_cached_jobs. destruct (_cached_jobs self); [| reflexivity].
  destruct (Qle_bool _ _); reflexivity.
Qed.

Lemma pre_filter_candidate (jobs : list pyval) (c : pyval) (out : list nat) :
  snd (_pre_filter_jobs jobs c) = Ok out ->
  exists skills, get c "skills" (PList []) = Ok skills.
Proof.
  unfold _pre_filter_jobs, candidate_skills_of.
  destruct (get c "skills" (PList [])) as [skills | e]; [eauto | discriminate].
Qed.

Lemma ceil_div (t n : Z) :
  (0 <= t)%Z -> (1 <= n)%Z ->
  (((t + n - 1) / n - 1) * n < t <= (t + n - 1) / n * n)%Z.
Proof.
  intros Ht Hn.
  pose proof (Z.div_mod (t + n - 1) n ltac:(lia)) as Hdm.
  pose proof (Z.mod_pos_bound (t + n - 1) n ltac:(lia)) as Hb.
  nia.
Qed.

Lemma filtered_jobs_of_Ok (jobs : list pyval) (c : pyval) (jobs' : list pyval)
    (r : result (list nat)) :
  _pre_filter_jobs jobs c = (jobs', r) ->
  _pre_filter_jobs jobs c = (jobs', Ok (filtered_jobs_of jobs c)) \/
  (exists e, r = Raise e) /\ filtered_jobs_of jobs c = [].
Proof.
  unfold filtered_jobs_of. intros H. rewrite H. simpl.
  destruct r as [out | e]; [now left | right; eauto].
Qed.

(** C7. For every candidate and for a page and a page size of at least
    one, the result reports as total the number of jobs the pre-filter
    returned (none when it raised) and as number of pages that total divided
    by the page size, rounded up; its matches are built from the jobs at
    positions [(page-1)*per_page] up to [page*per_page] of the filtered
    list, in that order; a page past the end has no match and the same
    total.  When the cached jobs are those the loader built there is one
    match per job of that window, so that on 25 filtered jobs page 3 of
    size 10 holds exactly 5 matches out of 3 pages. *)
Theorem C7_pagination (self : DataProcessor) (w : World) (c : pyval)
    (page per_page : Z) (use_ai : bool) :
  let jobs := snd (_get_cached_jobs self w) in
  let jobs' := fst (_pre_filter_jobs jobs c) in
  let filtered := filtered_jobs_of jobs c in
  let result := snd (match_candidate_with_jobs self w c page per_page use_ai) in
  let page_refs :=
    firstn (Z.to_nat per_page) (skipn (Z.to_nat ((page - 1) * per_page)) filtered) in
  (1 <= page)%Z -> (1 <= per_page)%Z ->
  total (pagination result) = Z.of_nat (List.length filtered) /\
  data_processor.page (pagination result) = page /\
  data_processor.per_page (pagination result) = per_page /\
  ((total_pages (pagination result) - 1) * per_page < Z.of_nat (List.length filtered)
     <= total_pages (pagination result) * per_page)%Z /\
  matches result = match_jobs (job_matcher self) c (map (deref jobs') page_refs) /\
  ((Z.of_nat (List.length filtered) <= (page - 1) * per_page)%Z ->
     matches result = []) /\
  (cache_ok self = true ->
     Forall2 (fun i m => match_job (job_matcher self) c (deref jobs' i) = Ok m)
             page_refs (matches result) /\
     (List.length filtered = 25%nat -> per_page = 10%Z -> page = 3%Z ->
        List.length (matches result) = 5%nat /\
        total_pages (pagination result) = 3%Z)).
Proof.
  cbv zeta. intros Hp Hpp.
  pose proof (get_cached_jobs_matcher self w) as Hm.
  assert (Hreq : cache_ok self = true ->
                 forallb has_requirements (snd (_get_cached_jobs self w)) = true)
    by apply cached_jobs_requirements.
  unfold match_candidate_with_jobs.
  destruct (_get_cached_jobs self w) as [self1 jobs]. simpl in Hreq, Hm |- *.
  destruct (_pre_filter_jobs jobs c) as [jobs' r] eqn:Epf.
  destruct (filtered_jobs_of_Ok _ _ _ _ Epf) as [Hok | [[e ->] Hnone]].
  - (* the pre-filter returned *)
    set (filtered := filtered_jobs_of jobs c) in *.
    assert (r = Ok filtered) as -> by congruence.
    assert (Hsk : exists skills, get c "skills" (PList []) = Ok skills).
    { apply (pre_filter_candidate jobs c filtered). now rewrite Epf. }
    destruct Hsk as [skills ->].
    pose proof (pre_filter_refs _ _ _ _ Epf) as Hrefs.
    destruct (Z.eqb_spec per_page 0) as [? | _]; [lia |].
    cbn [fst snd matches pagination total data_processor.page data_processor.per_page
         total_pages job_matcher with_cached_jobs].
    rewrite (slice_page filtered page per_page Hp Hpp). rewrite Hm.
    set (page_refs :=
           firstn (Z.to_nat per_page) (skipn (Z.to_nat ((page - 1) * per_page)) filtered)).
    split; [reflexivity |]. split; [reflexivity |]. split; [reflexivity |].
    split; [apply ceil_div; lia |]. split; [reflexivity |]. split.
    + intros Hbeyond.
      assert (page_refs = []) as ->; [| reflexivity].
      subst page_refs. rewrite skipn_all2 by lia. apply firstn_nil.
    + intros Hcache. specialize (Hreq Hcache).
      pose proof (pre_filter_requirements jobs c Hreq) as Hreq'.
      rewrite Epf in Hreq'. simpl in Hreq'.
      assert (Hpage : Forall (fun i => i < List.length jobs')%nat page_refs).
      { rewrite Forall_forall in *. intros i Hi. apply Hrefs.
        apply In_firstn in Hi.
        rewrite <- (firstn_skipn (Z.to_nat ((page - 1) * per_page)) filtered).
        apply in_or_app. now right. }
      assert (Hall : Forall2 (fun i m => match_job (job_matcher self) c (deref jobs' i) = Ok m)
                       page_refs
                       (match_jobs (job_matcher self) c (map (deref jobs') page_refs))).
      { pose proof (match_jobs_all (job_matcher self) c (map (deref jobs') page_refs)
                      (forallb_nth_in_range _ _ PNone _ Hreq' Hpage)) as H.
        clear - H. remember (match_jobs _ _ _) as ms eqn:E. clear E.
        revert ms H. induction page_refs as [| i l IH]; intros ms H;
          inversion H; subst; constructor; auto. }
      split; [exact Hall |].
      intros H25 -> ->. split.
      * rewrite (Forall2_length_eq _ _ _ Hall). subst page_refs.
        rewrite length_firstn, length_skipn, H25. reflexivity.
      * rewrite H25. reflexivity.
  - (* the pre-filter raised: the handler's value *)
    rewrite Hnone, skipn_nil, firstn_nil.
    destruct (get c "skills" (PList [])); simpl;
      (repeat split; auto; try lia; intros; try discriminate);
      destruct per_page; lia.
Qed.

Lemma C7_pagination_witness :
  (1 <= 3)%Z /\ (1 <= 10)%Z /\ cache_ok processor = true /\
  List.length (filtered_jobs_of (snd (_get_cached_jobs processor world25))
                 experienced_candidate) = 25%nat /\
  List.length
    (matches (snd (match_candidate_with_jobs processor world25 experienced_candidate
                     3 10 false))) = 5%nat /\
  total_pages
    (pagination (snd (match_candidate_with_jobs processor world25 experienced_candidate
                        3 10 false))) = 3%Z.
Proof.
  assert (H25 : List.length (filtered_jobs_of (snd (_get_cached_jobs processor world25))
                               experienced_candidate) = 25%nat)
    by (vm_compute; reflexivity).
  split; [lia |]. split; [lia |]. split; [reflexivity |]. split; [exact H25 |].
  destruct (C7_pagination processor world25 experienced_candidate 3 10 false
              ltac:(lia) ltac:(lia)) as (_ & _ & _ & _ & _ & _ & Hloaded).
  destruct (Hloaded eq_refl) as [_ Hexample].
  apply Hexample; [exact H25 | reflexivity | reflexivity].
Defined.

(** The scorer never consults the matcher it is a method of. *)
Lemma match_jobs_matcher (m1 m2 : ai_processor.JobMatcher) (c : pyval) (l : list pyval) :
  match_jobs m1 c l = match_jobs m2 c l.
Proof.
  induction l as [| job l IH]; simpl; [reflexivity |].
  change (match_job m1 c job) with (match_job m2 c job).
  destruct (match_job m2 c job); now rewrite IH.
Qed.

Lemma match_job_scored (matcher : ai_processor.JobMatcher) (c job : pyval) (m : MatchObj) :
  match_job matcher c job = Ok m ->
  (exists d, job = PDict d) /\ scored_by matcher c job m.
Proof.
  unfold match_job. intros H.
  apply bind_Ok in H as (t & Ht & H).
  apply bind_Ok in H as (dbg & _ & H).
  apply bind_Ok in H as (requirements & Hr & H).
  apply bind_Ok in H as (title & Htitle & H).
  apply bind_Ok in H as (company & Hcompany & H).
  apply bind_Ok in H as (role & Hrole & H).
  apply bind_Ok in H as (salary & Hsalary & H).
  apply bind_Ok in H as (work & Hwork & H).
  apply bind_Ok in H as (req' & Hr' & H).
  injection H as <-.
  destruct job as [| | | | | | d]; try discriminate Ht.
  split; [now exists d |].
  exists requirements. cbn [job match_score skill_match experience_match education_match
                              ai_analysis].
  assert (req' = requirements) as ->.
  { cbn [getitem get] in Hr, Hr'. destruct (dict_get d "requirements") as [r |];
      [congruence | discriminate Hr]. }
  split; [exact Hr |]. split; [reflexivity |].
  split; [rewrite Htitle; reflexivity |].
  split; [rewrite Hcompany; reflexivity |].
  split; [rewrite Hrole; reflexivity |].
  split; [rewrite Hsalary; reflexivity |].
  split; [rewrite Hwork; reflexivity |].
  cbv zeta. auto.
Qed.

Lemma match_jobs_In (matcher : ai_processor.JobMatcher) (c : pyval) (l : list pyval)
    (m : MatchObj) :
  In m (match_jobs matcher c l) ->
  exists job, In job l /\ match_job matcher c job = Ok m.
Proof.
  induction l as [| job l IH]; cbn [match_jobs]; [intros [] |].
  destruct (match_job matcher c job) as [m' | e] eqn:E.
  - intros [<- | Hin].
    + exists job. split; [now left | exact E].
    + destruct (IH Hin) as (job' & Hj & Hm). exists job'. split; [now right | exact Hm].
  - intros Hin. destruct (IH Hin) as (job' & Hj & Hm).
    exists job'. split; [now right | exact Hm].
Qed.

(** A reference that yields a dictionary points into the list. *)
Lemma deref_In (jobs : list pyval) (i : nat) (d : dict) :
  deref jobs i = PDict d -> In (PDict d) jobs.
Proof.
  unfold deref. intros H. destruct (Nat.lt_ge_cases i (List.length jobs)) as [Hlt | Hge].
  - rewrite <- H. now apply nth_In.
  - rewrite nth_overflow in H by exact Hge. discriminate H.
Qed.

(** Every match of a result was produced by the scoring loop. *)
Lemma result_matches (self : DataProcessor) (w : World) (c : pyval)
    (page per_page : Z) (use_ai : bool) :
  exists l,
    matches (snd (match_candidate_with_jobs self w c page per_page use_ai))
    = match_jobs (job_matcher self) c l.
Proof.
  pose proof (get_cached_jobs_matcher self w) as Hm.
  unfold match_candidate_with_jobs.
  destruct (get c "skills" (PList [])); [| now exists []].
  destruct (_get_cached_jobs self w) as [self1 jobs]. simpl in Hm.
  destruct (_pre_filter_jobs jobs c) as [jobs' [filtered | e]]; [| now exists []].
  destruct (per_page =? 0)%Z; [now exists [] |].
  simpl. rewrite Hm. eauto.
Qed.

(** Every match of a result was made from a job of the cache the call
    leaves. *)
Lemma result_matches_scored (self : DataProcessor) (w : World) (c : pyval)
    (page per_page : Z) (use_ai : bool) (m : MatchObj) :
  In m (matches (snd (match_candidate_with_jobs self w c page per_page use_ai))) ->
  exists cached job,
    _cached_jobs (fst (match_candidate_with_jobs self w c page per_page use_ai))
      = Some cached /\
    In job cached /\
    scored_by (job_matcher self) c job m.
Proof.
  pose proof (get_cached_jobs_matcher self w) as Hm.
  unfold match_candidate_with_jobs.
  destruct (get c "skills" (PList [])); [| intros []].
  destruct (_get_cached_jobs self w) as [self1 jobs]. cbn [fst] in Hm.
  destruct (_pre_filter_jobs jobs c) as [jobs' [filtered | e]]; [| intros []].
  destruct (per_page =? 0)%Z; [intros [] |].
  cbn [fst snd matches with_cached_jobs _cached_jobs job_matcher]. rewrite Hm.
  intros Hin. apply match_jobs_In in Hin as (job & Hjob & Hmatch).
  apply in_map_iff in Hjob as (ref & Href & _).
  apply match_job_scored in Hmatch as ((d & ->) & Hs).
  exists jobs', (PDict d). split; [reflexivity |].
  split; [exact (deref_In jobs' ref d Href) | exact Hs].
Qed.

(** C10. The result of a match does not depend on [use_ai], nor on the
    generative model: two processors that differ at most in their matcher,
    called on the same world, candidate, page and page size with any two
    values of the flag, return the same result and leave the same cache.
    In particular the call with [use_ai] false equals the call with
    [use_ai] true.  Each of its matches is made from a job of the cache the
    call leaves: it repeats the title, company, role, salary range, work
    type and requirements of that job, and its scores and its analysis are
    those the deterministic scorer computes for the candidate and the
    requirements of that very job. *)
Theorem C10_use_ai_independence (p1 p2 : DataProcessor) (w : World) (c : pyval)
    (page per_page : Z) (b1 b2 : bool) :
  same_but_matcher p1 p2 ->
  snd (match_candidate_with_jobs p1 w c page per_page b1)
    = snd (match_candidate_with_jobs p2 w c page per_page b2) /\
  _cached_jobs (fst (match_candidate_with_jobs p1 w c page per_page b1))
    = _cached_jobs (fst (match_candidate_with_jobs p2 w c page per_page b2)) /\
  match_candidate_with_jobs p1 w c page per_page false
    = match_candidate_with_jobs p1 w c page per_page true /\
  Forall
    (fun m =>
       exists cached job,
         _cached_jobs (fst (match_candidate_with_jobs p1 w c page per_page false))
           = Some cached /\
         In job cached /\
         scored_by (job_matcher p1) c job m)
    (matches (snd (match_candidate_with_jobs p1 w c page per_page false))).
Proof.
  intros Hsame. split; [| split; [| split; [reflexivity |]]].
  - destruct p1 as [path jm1 cached last dur], p2 as [path2 jm2 cached2 last2 dur2].
    unfold same_but_matcher in Hsame; simpl in Hsame.
    destruct Hsame as (<- & <- & <- & <-).
    unfold match_candidate_with_jobs, _get_cached_jobs; simpl.
    destruct (get c "skills" (PList [])); [| reflexivity].
    destruct cached as [jobs |]; [destruct (Qle_bool _ _) |]; simpl;
      match goal with
      | |- context [_pre_filter_jobs ?j c] =>
          destruct (_pre_filter_jobs j c) as [jobs' [filtered | e]]
      end; simpl; try reflexivity;
      destruct (per_page =? 0)%Z; simpl; try reflexivity;
      now rewrite (match_jobs_matcher jm1 jm2).
  - destruct p1 as [path jm1 cached last dur], p2 as [path2 jm2 cached2 last2 dur2].
    unfold same_but_matcher in Hsame; simpl in Hsame.
    destruct Hsame as (<- & <- & <- & <-).
    unfold match_candidate_with_jobs, _get_cached_jobs; simpl.
    destruct (get c "skills" (PList [])); [| reflexivity].
    destruct cached as [jobs |]; [destruct (Qle_bool _ _) |]; simpl;
      match goal with
      | |- context [_pre_filter_jobs ?j c] =>
          destruct (_pre_filter_jobs j c) as [jobs' [filtered | e]]
      end; simpl; try reflexivity;
      destruct (per_page =? 0)%Z; reflexivity.
  - apply Forall_forall. intros m Hin.
    exact (result_matches_scored p1 w c page per_page false m Hin).
Qed.

Lemma C10_use_ai_independence_witness :
  same_but_matcher (init "datasheet.csv" matcher) (init "datasheet.csv" silent_matcher) /\
  snd (match_candidate_with_jobs (init "datasheet.csv" matcher) world25
         experienced_candidate 1 10 false)
  = snd (match_candidate_with_jobs (init "datasheet.csv" silent_matcher) world25
           experienced_candidate 1 10 true) /\
  List.length (matches (snd (match_candidate_with_jobs (init "datasheet.csv" matcher)
                               world25 experienced_candidate 1 10 false))) = 10%nat /\
  Forall
    (fun m =>
       exists cached job,
         _cached_jobs (fst (match_candidate_with_jobs (init "datasheet.csv" matcher)
                              world25 experienced_candidate 1 10 false))
           = Some cached /\
         In job cached /\
         scored_by matcher experienced_candidate job m)
    (matches (snd (match_candidate_with_jobs (init "datasheet.csv" matcher) world25
                     experienced_candidate 1 10 false))).
Proof.
  assert (H : same_but_matcher (init "datasheet.csv" matcher)
                (init "datasheet.csv" silent_matcher))
    by (repeat split; reflexivity).
  split; [exact H |].
  pose proof (C10_use_ai_independence (init "datasheet.csv" matcher)
                (init "datasheet.csv" silent_matcher) world25 experienced_candidate
                1 10 false true H) as (H1 & _ & _ & H4).
  split; [exact H1 |]. split; [vm_compute; reflexivity | exact H4].
Defined.

End orchestrator.

(* ================================================================== *)
(** ** Further properties of the code *)
(* ================================================================== *)

Section cache.
Import Py data_processor properties examples.
Local Open Scope string_scope.
Local Open Scope list_scope.

(** After any access the cache holds the list that was returned. *)
Lemma get_cached_jobs_cached (self : DataProcessor) (w : World) :
  _cached_jobs (fst (_get_cached_jobs self w)) = Some (snd (_get_cached_jobs self w)).
Proof.
  unfold _get_cached_jobs. destruct (_cached_jobs self) as [jobs |] eqn:E; [| reflexivity].
  destruct (Qle_bool _ _); [exact E | reflexivity].
Qed.

(** X1. An access no later than the cache duration after the time stamp of
    the cache returns the cached list and leaves the processor as it is,
    whatever the file holds by then. *)
Theorem cache_hit (self : DataProcessor) (w w' : World) :
  let self1 := fst (_get_cached_jobs self w) in
  let jobs1 := snd (_get_cached_jobs self w) in
  (time_time w' - _last_cache_time self1 <= _cache_duration self1)%Q ->
  _get_cached_jobs self1 w' = (self1, jobs1).
Proof.
  cbv zeta. intros Hfresh.
  pose proof (get_cached_jobs_cached self w) as Hc.
  destruct (_get_cached_jobs self w) as [self1 jobs1]. simpl in *.
  unfold _get_cached_jobs. rewrite Hc.
  apply Qle_bool_iff in Hfresh. now rewrite Hfresh.
Qed.

Lemma cache_hit_witness :
  (time_time {| time_time := 1300; open_csv := fun _ => None |}
   - _last_cache_time (fst (_get_cached_jobs processor world25))
   <= _cache_duration (fst (_get_cached_jobs processor world25)))%Q /\
  _get_cached_jobs (fst (_get_cached_jobs processor world25))
    {| time_time := 1300; open_csv := fun _ => None |}
  = (fst (_get_cached_jobs processor world25), snd (_get_cached_jobs processor world25)).
Proof.
  assert (H : (time_time {| time_time := 1300; open_csv := fun _ => None |}
               - _last_cache_time (fst (_get_cached_jobs processor world25))
               <= _cache_duration (fst (_get_cached_jobs processor world25)))%Q)
    by (vm_compute; discriminate).
  split; [exact H |].
  exact (cache_hit processor world25 _ H).
Defined.

(** X2. An access to an empty cache, or later than the cache duration after
    its time stamp, reads the file again: it returns what the loader builds
    from the file as it is now and stamps the cache with the current time.  A
    file that cannot be opened then gives the empty catalog, which later
    accesses within the cache duration keep returning even when the file is
    back. *)
Theorem cache_reload (self : DataProcessor) (w w' : World) :
  _cached_jobs self = None \/
  (_cache_duration self < time_time w - _last_cache_time self)%Q ->
  let self1 := fst (_get_cached_jobs self w) in
  snd (_get_cached_jobs self w) = _load_jobs_from_csv (open_csv w (csv_file_path self)) /\
  _cached_jobs self1 = Some (_load_jobs_from_csv (open_csv w (csv_file_path self))) /\
  _last_cache_time self1 = time_time w /\
  _cache_duration self1 = _cache_duration self /\
  (open_csv w (csv_file_path self) = None ->
   (time_time w' - time_time w <= _cache_duration self)%Q ->
   snd (_get_cached_jobs self1 w') = []).
Proof.
  cbv zeta. intros Hstale.
  assert (Hload : _get_cached_jobs self w
                  = ({| csv_file_path := csv_file_path self;
                        job_matcher := job_matcher self;
                        _cached_jobs := Some (_load_jobs_from_csv (open_csv w (csv_file_path self)));
                        _last_cache_time := time_time w;
                        _cache_duration := _cache_duration self |},
                     _load_jobs_from_csv (open_csv w (csv_file_path self)))).
  { unfold _get_cached_jobs. destruct Hstale as [-> | Hlt]; [reflexivity |].
    destruct (_cached_jobs self); [| reflexivity].
    destruct (Qle_bool _ _) eqn:E; [| reflexivity].
    apply Qle_bool_iff in E. exfalso. eapply Qlt_not_le; eassumption. }
  rewrite Hload. simpl. repeat split.
  intros Hnone Hfresh. unfold _get_cached_jobs. simpl.
  apply Qle_bool_iff in Hfresh. rewrite Hfresh, Hnone. reflexivity.
Qed.

Lemma cache_reload_witness :
  _cached_jobs processor = None /\
  snd (_get_cached_jobs processor world25)
  = _load_jobs_from_csv (open_csv world25 (csv_file_path processor)).
Proof.
  split; [reflexivity |].
  apply (cache_reload processor world25 world25). left. reflexivity.
Defined.

End cache.

Section loader_more.
Import Py data_processor properties examples.
Local Open Scope string_scope.
Local Open Scope list_scope.

Lemma load_rows_error (rows : list dict) (rest : list reader_event) :
  forall (i : nat) (jobs : list pyval),
    (i + List.length rows <= 100)%nat ->
    load_rows i (map Row rows ++ ReaderError :: rest) jobs = None.
Proof.
  induction rows as [| row rows IH]; intros i jobs Hi; cbn [load_rows map app].
  - reflexivity.
  - simpl in Hi. destruct (Nat.leb_spec 100 i) as [? | _]; [lia |].
    destruct (parse_row row) as [[job |] | e]; apply IH; lia.
Qed.

Lemma load_rows_cut (rows : list dict) (rest : list reader_event) :
  forall (i : nat) (jobs : list pyval),
    (i <= 100 < i + List.length rows)%nat ->
    load_rows i (map Row rows ++ rest) jobs
    = Some (jobs ++ accepted_jobs (firstn (100 - i) rows)).
Proof.
  induction rows as [| row rows IH]; intros i jobs Hi; simpl in Hi.
  - lia.
  - cbn [load_rows map app].
    destruct (Nat.leb_spec 100 i) as [Hge | Hlt].
    + replace (100 - i)%nat with 0%nat by lia. simpl. now rewrite app_nil_r.
    + replace (100 - i)%nat with (S (100 - S i)) by lia.
      rewrite firstn_cons. unfold accepted_jobs. simpl flat_map.
      fold (accepted_jobs (firstn (100 - S i) rows)).
      destruct (parse_row row) as [[job |] | e]; rewrite IH by lia; simpl; try reflexivity.
      now rewrite <- app_assoc.
Qed.

(** X3. A failure of the reader discards everything: when the reader fails
    after at most 100 rows, the catalog is empty, whatever rows were accepted
    before.  A failure further down is never met, the loop having stopped. *)
Theorem reader_failure_empties_catalog (rows : list dict) (rest : list reader_event) :
  ((List.length rows <= 100)%nat ->
     _load_jobs_from_csv (Some (map Row rows ++ ReaderError :: rest)) = []) /\
  ((100 < List.length rows)%nat ->
     _load_jobs_from_csv (Some (map Row rows ++ ReaderError :: rest))
     = accepted_jobs (firstn 100 rows)).
Proof.
  unfold _load_jobs_from_csv. split; intros H.
  - rewrite load_rows_error by (simpl; lia). reflexivity.
  - rewrite load_rows_cut by (simpl; lia). reflexivity.
Qed.

Lemma reader_failure_empties_catalog_witness :
  (List.length [titled_row; titled_row] <= 100)%nat /\
  accepted_jobs [titled_row; titled_row] <> [] /\
  _load_jobs_from_csv (Some (map Row [titled_row; titled_row] ++ [ReaderError])) = [].
Proof.
  split; [simpl; lia |]. split; [vm_compute; discriminate |].
  apply (reader_failure_empties_catalog [titled_row; titled_row] []). simpl; lia.
Defined.

(** *** The experience parser *)

Lemma split_ws_go_no_space (s : string) :
  no_space (fst (PyStr.split_ws_go s)) /\ Forall no_space (snd (PyStr.split_ws_go s)).
Proof.
  induction s as [| c s [IHw IHws]]; simpl; [split; [reflexivity | constructor] |].
  destruct (PyStr.split_ws_go s) as [w ws]. simpl in *.
  destruct (PyStr.is_space c) eqn:E; simpl.
  - split; [reflexivity |]. destruct (PyStr.nonempty w); auto.
  - split; [| exact IHws]. unfold no_space. simpl. now rewrite E.
Qed.

Lemma split_ws_no_space (s : string) : Forall no_space (PyStr.split_ws s).
Proof.
  unfold PyStr.split_ws. destruct (split_ws_go_no_space s) as [Hw Hws].
  destruct (PyStr.split_ws_go s) as [w ws]. simpl in *.
  destruct (PyStr.nonempty w); auto.
Qed.

Lemma cue_is_minimum (prev : string) :
  no_space prev -> mem prev ["minimum"; "at least"; "more than"] = true ->
  prev = "minimum".
Proof.
  intros Hns Hm. simpl in Hm. rewrite orb_false_r in Hm.
  destruct (String.eqb_spec prev "minimum") as [-> | _]; [reflexivity |].
  destruct (String.eqb_spec prev "at least") as [-> | _]; [discriminate |].
  destruct (String.eqb_spec prev "more than") as [-> | _]; discriminate.
Qed.

Lemma int_of_digits_nonneg (s : string) : (0 <= PyStr.int_of_digits s)%Z.
Proof.
  unfold PyStr.int_of_digits.
  assert (H : forall (l : list ascii) (acc : Z),
             (0 <= acc)%Z ->
             (0 <= fold_left (fun a c => 10 * a + Z.of_nat (nat_of_ascii c - 48)) l acc)%Z).
  { induction l as [| c l IH]; intros acc Hacc; cbn [fold_left]; [exact Hacc |].
    apply IH. pose proof (Nat2Z.is_nonneg (nat_of_ascii c - 48)). lia. }
  apply H. lia.
Qed.

Lemma int_nonneg (s : string) (y : Z) : PyStr.int s = Some y -> (0 <= y)%Z.
Proof.
  unfold PyStr.int. destruct (_ && _); [| discriminate].
  intros H. injection H as <-. apply int_of_digits_nonneg.
Qed.

(** The inner loop: what it finds follows the word [minimum], and it can
    only fail in [int]. *)
Lemma first_years_spec (words : list string) :
  forall prev : string,
    Forall no_space (prev :: words) ->
    (forall e, first_years prev words = Raise e -> e = ValueError) /\
    (forall y, first_years prev words = Ok (Some y) ->
               In "minimum" (prev :: words) /\ (0 <= y)%Z) /\
    (~ In "minimum" (prev :: words) -> first_years prev words = Ok None).
Proof.
  induction words as [| word rest IH]; intros prev Hns; cbn [first_years].
  - split; [intros e H; discriminate H |].
    split; [intros y H; discriminate H | reflexivity].
  - inversion Hns as [| ? ? Hp Hrest]; subst.
    destruct (IH word Hrest) as (IHe & IHy & IHn).
    destruct (PyStr.isdigit word && mem prev ["minimum"; "at least"; "more than"]) eqn:E.
    + apply andb_true_iff in E as [_ E].
      pose proof (cue_is_minimum prev Hp E) as ->.
      split; [| split].
      * intros e H. destruct (PyStr.int word); [discriminate H | now injection H as <-].
      * intros y H. destruct (PyStr.int word) as [z |] eqn:Ez; [| discriminate H].
        injection H as <-. split; [now left | exact (int_nonneg word z Ez)].
      * intros Hno. exfalso. apply Hno. now left.
    + split; [exact IHe |]. split.
      * intros y H. destruct (IHy y H) as [Hin Hy]. split; [now right | exact Hy].
      * intros Hno. apply IHn. intros Hin. apply Hno. now right.
Qed.

Lemma scan_line_spec (acc : Z * list string) (line : string) :
  (0 <= fst acc)%Z ->
  (forall e, scan_line acc line = Raise e -> e = ValueError) /\
  (forall acc', scan_line acc line = Ok acc' ->
     (0 <= fst acc')%Z /\
     (List.length (snd acc') <= S (List.length (snd acc)))%nat) /\
  (~ In "minimum" (PyStr.split_ws (PyStr.lower line)) ->
   exists acc', scan_line acc line = Ok acc' /\ fst acc' = fst acc).
Proof.
  intros Hacc. unfold scan_line. destruct acc as [m d]. cbn [fst snd] in *.
  destruct (PyStr.contains "experience" (PyStr.lower line)
            || PyStr.contains "years" (PyStr.lower line)).
  - pose proof (split_ws_no_space (PyStr.lower line)) as Hns.
    destruct (PyStr.split_ws (PyStr.lower line)) as [| w0 rest].
    + split; [intros e H; discriminate H |]. split.
      * intros acc' H. injection H as <-. cbn [fst snd]. rewrite length_app.
        cbn [List.length]. split; [exact Hacc | lia].
      * intros _. eexists. split; reflexivity.
    + destruct (first_years_spec rest w0 Hns) as (He & Hy & Hn).
      destruct (first_years w0 rest) as [[y |] | e] eqn:E; cbn [bind].
      * split; [intros e H; discriminate H |]. split.
        -- intros acc' H. injection H as <-. cbn [fst snd]. rewrite length_app.
           cbn [List.length]. split; [exact (proj2 (Hy y eq_refl)) | lia].
        -- intros Hno. exfalso. apply Hno. exact (proj1 (Hy y eq_refl)).
      * split; [intros e H; discriminate H |]. split.
        -- intros acc' H. injection H as <-. cbn [fst snd]. rewrite length_app.
           cbn [List.length]. split; [exact Hacc | lia].
        -- intros _. eexists. split; reflexivity.
      * split; [intros e' H; injection H as <-; exact (He e eq_refl) |]. split.
        -- intros acc' H. discriminate H.
        -- intros Hno. specialize (Hn Hno). discriminate Hn.
  - split; [intros e H; discriminate H |]. split.
    + intros acc' H. injection H as <-. cbn [fst snd]. split; [exact Hacc | lia].
    + intros _. eexists. split; reflexivity.
Qed.

Lemma scan_lines_spec (lines : list string) :
  forall acc : Z * list string,
    (0 <= fst acc)%Z ->
    (forall e, foldM scan_line lines acc = Raise e -> e = ValueError) /\
    (forall acc', foldM scan_line lines acc = Ok acc' ->
       (0 <= fst acc')%Z /\
       (List.length (snd acc') <= List.length lines + List.length (snd acc))%nat) /\
    (Forall (fun line => ~ In "minimum" (PyStr.split_ws (PyStr.lower line))) lines ->
     exists acc', foldM scan_line lines acc = Ok acc' /\ fst acc' = fst acc).
Proof.
  induction lines as [| line lines IH]; intros acc Hacc; cbn [foldM].
  - split; [intros e H; discriminate H |]. split.
    + intros acc' H. injection H as <-. split; [exact Hacc | cbn [List.length]; lia].
    + intros _. exists acc. split; reflexivity.
  - destruct (scan_line_spec acc line Hacc) as (He & Hok & Hkeep).
    destruct (scan_line acc line) as [acc1 | e1] eqn:E; cbn [bind].
    + destruct (Hok acc1 eq_refl) as (H0 & Hlen).
      destruct (IH acc1 H0) as (He' & Hok' & Hkeep').
      split; [exact He' |]. split.
      * intros acc' H. destruct (Hok' acc' H) as (H0' & Hlen').
        split; [exact H0' | cbn [List.length]; lia].
      * intros Hall. inversion Hall as [| ? ? Hl Hrest]; subst.
        destruct (Hkeep Hl) as (a1 & Ea & Ef). injection Ea as <-.
        destruct (Hkeep' Hrest) as (acc' & Eacc & Ef').
        exists acc'. split; [exact Eacc | congruence].
    + split; [intros e H; injection H as <-; exact (He e1 eq_refl) |]. split.
      * intros acc' H. discriminate H.
      * intros Hall. inversion Hall as [| ? ? Hl Hrest]; subst.
        destruct (Hkeep Hl) as (a1 & Ea & _). discriminate Ea.
Qed.

Lemma parse_experience_spec (qualifications : string) :
  (forall e, _parse_experience qualifications = Raise e -> e = ValueError) /\
  (forall experience, _parse_experience qualifications = Ok experience ->
     exists (minimum_years : Z) (description : list string),
       experience = PDict [("minimum_years", PInt minimum_years);
                           ("description", PList (map PStr description))] /\
       (0 <= minimum_years)%Z /\
       (List.length description
        <= List.length (PyStr.split newline qualifications))%nat) /\
  (Forall (fun line => ~ In "minimum" (PyStr.split_ws (PyStr.lower line)))
          (PyStr.split newline qualifications) ->
   exists description : list string,
     _parse_experience qualifications
     = Ok (PDict [("minimum_years", PInt 0);
                  ("description", PList (map PStr description))])).
Proof.
  unfold _parse_experience.
  destruct (scan_lines_spec (PyStr.split newline qualifications) (0%Z, []))
    as (He & Hok & Hkeep); [cbn [fst]; lia |].
  destruct (foldM scan_line (PyStr.split newline qualifications) (0%Z, []))
    as [[m d] | e] eqn:E; cbn [bind].
  - split; [intros e H; discriminate H |]. split.
    + intros experience H. injection H as <-.
      destruct (Hok (m, d) eq_refl) as (H0 & Hlen). cbn [fst snd List.length] in *.
      exists m, d. split; [reflexivity |]. split; [exact H0 | lia].
    + intros Hall. destruct (Hkeep Hall) as (acc' & Ea & Ef).
      injection Ea as <-. cbn [fst] in Ef. subst m. now exists d.
  - split; [intros e' H; injection H as <-; exact (He e eq_refl) |]. split.
    + intros experience H. discriminate H.
    + intros Hall. destruct (Hkeep Hall) as (acc' & Ea & _). discriminate Ea.
Qed.

(** X12. The experience parser either raises [ValueError], when [int]
    refuses a digit word, or returns a dictionary with a [minimum_years]
    that is never negative and a description of at most one entry per line.
    The number of years is taken only from a digit word that follows the
    word [minimum]: the two-word cues [at least] and [more than] are compared
    with single words and never match, so on a text none of whose lines has
    the word [minimum] the parser does not raise and gives 0 years. *)
Theorem parse_experience_minimum (qualifications : string) :
  (forall e, _parse_experience qualifications = Raise e -> e = ValueError) /\
  (forall experience, _parse_experience qualifications = Ok experience ->
     exists (minimum_years : Z) (description : list string),
       experience = PDict [("minimum_years", PInt minimum_years);
                           ("description", PList (map PStr description))] /\
       (0 <= minimum_years)%Z /\
       (List.length description
        <= List.length (PyStr.split newline qualifications))%nat) /\
  (Forall (fun line => ~ In "minimum" (PyStr.split_ws (PyStr.lower line)))
          (PyStr.split newline qualifications) ->
   exists description : list string,
     _parse_experience qualifications
     = Ok (PDict [("minimum_years", PInt 0);
                  ("description", PList (map PStr description))])).
Proof. exact (parse_experience_spec qualifications). Qed.

Lemma parse_experience_minimum_witness :
  Forall (fun line => ~ In "minimum" (PyStr.split_ws (PyStr.lower line)))
         (PyStr.split newline "At least 5 years of experience") /\
  (exists description : list string,
     _parse_experience "At least 5 years of experience"
     = Ok (PDict [("minimum_years", PInt 0);
                  ("description", PList (map PStr description))])) /\
  _parse_experience "Minimum 5 years of experience"
  = Ok (PDict [("minimum_years", PInt 5);
               ("description", PList [PStr "Minimum 5 years of experience"])]) /\
  _parse_experience (String.concat (String (ascii_of_nat 160) EmptyString)
                       ["minimum"; "5 years"])
  = Ok (PDict [("minimum_years", PInt 5);
               ("description",
                PList [PStr (String.concat (String (ascii_of_nat 160) EmptyString)
                               ["minimum"; "5 years"])])]) /\
  _parse_experience (String.concat (String (ascii_of_nat 178) EmptyString)
                       ["minimum "; " years"])
  = Raise ValueError.
Proof.
  assert (HF : Forall (fun line => ~ In "minimum" (PyStr.split_ws (PyStr.lower line)))
                      (PyStr.split newline "At least 5 years of experience")).
  { constructor; [| constructor]. vm_compute. intuition discriminate. }
  split; [exact HF |].
  split; [exact (proj2 (proj2 (parse_experience_minimum "At least 5 years of experience")) HF) |].
  split; [vm_compute; reflexivity |]. split; vm_compute; reflexivity.
Defined.

End loader_more.

Section filter_more.
Import Py data_processor properties examples.
Local Open Scope string_scope.
Local Open Scope list_scope.

Lemma parse_row_loaded (row : dict) (job : pyval) :
  parse_row row = Ok (Some job) -> loaded_job job = true.
Proof.
  unfold parse_row. destruct row as [| kv row]; [discriminate |].
  set (rw := kv :: row). clearbody rw. intros H.
  apply bind_Ok in H as (title & _ & H).
  apply bind_Ok in H as (role & _ & H).
  destruct (PyStr.nonempty (PyStr.strip title)); simpl in H; [| discriminate].
  apply bind_Ok in H as (description & _ & H).
  apply bind_Ok in H as (qualifications & _ & H).
  apply bind_Ok in H as (skills_text & _ & H).
  apply bind_Ok in H as (experience & _ & H).
  injection H as <-. simpl.
  rewrite forallb_forall. intros v Hv. apply in_map_iff in Hv as (s & <- & _). reflexivity.
Qed.

Lemma load_jobs_loaded (file : csv_file) :
  forallb loaded_job (_load_jobs_from_csv file) = true.
Proof.
  destruct (load_jobs_shape file) as (rows & _ & ->).
  unfold accepted_jobs. induction rows as [| row rows IH]; simpl; [reflexivity |].
  rewrite forallb_app, IH, andb_true_r.
  destruct (parse_row row) as [[job |] | e] eqn:E; simpl; try reflexivity.
  now rewrite (parse_row_loaded _ _ E).
Qed.

Lemma agree_except_loaded (job job' : pyval) :
  agree_except "preliminary_score" job job' -> loaded_job job' = loaded_job job.
Proof.
  intros [-> | (d & d' & -> & -> & H)]; [reflexivity |].
  simpl. rewrite !H by discriminate. reflexivity.
Qed.

Lemma mapM_as_str (f : string -> string) (l : list pyval) :
  forallb is_str l = true ->
  exists l', mapM (fun skill => bind (as_str skill) (fun s => Ok (f s))) l = Ok l'.
Proof.
  induction l as [| v l IH]; simpl; intros H; [eauto |].
  apply andb_true_iff in H as [Hv Hl].
  destruct v; try discriminate. simpl.
  destruct (IH Hl) as [l' ->]. simpl. eauto.
Qed.

(** The readings the loop makes of a loaded job succeed. *)
Lemma loaded_job_readings (job : pyval) :
  loaded_job job = true ->
  exists d b js, job = PDict d /\ is_tech_job job = Ok b /\ job_skills_of job = Ok js /\
                 exists v, debug_skills job = Ok v.
Proof.
  unfold loaded_job. destruct job as [| | | | | | d]; try discriminate.
  destruct (dict_get d "title") as [[| | | | t | |] |] eqn:Et; try discriminate.
  destruct (dict_get d "role") as [[| | | | r | |] |] eqn:Er; try discriminate.
  destruct (dict_get d "requirements") as [[| | | | | | rq] |] eqn:Eq; try discriminate.
  destruct (dict_get rq "skills") as [[| | | | | l |] |] eqn:Es; try discriminate.
  intros Hl. exists d.
  unfold is_tech_job, job_skills_of, debug_skills. simpl. rewrite Et, Er, Eq. simpl.
  rewrite Es.
  destruct (mapM_as_str clean_skill l Hl) as [l' Hl']. rewrite Hl'. simpl.
  eauto 10.
Qed.

Lemma filter_job_loaded (cs : list string) (job : pyval) :
  loaded_job job = true -> exists o, filter_job cs job = Ok o.
Proof.
  intros H. destruct (loaded_job_readings job H) as (d & b & js & -> & Ht & Hs & _).
  destruct b.
  - rewrite (filter_job_tech cs d js Ht Hs). eauto.
  - unfold filter_job. rewrite Ht. simpl. eauto.
Qed.

Lemma filter_loop_loaded (cs : list string) (jobs : list pyval) :
  forall n : nat,
    forallb loaded_job jobs = true ->
    exists kept, snd (filter_loop cs n jobs) = Ok kept.
Proof.
  induction jobs as [| job jobs IH]; intros n H; cbn [filter_loop]; [simpl; eauto |].
  simpl in H. apply andb_true_iff in H as [Hj Hl].
  destruct (filter_job_loaded cs job Hj) as [o ->].
  destruct (IH (S n) Hl) as [kept Hk].
  destruct (filter_loop cs (S n) jobs) as [rest' r]. simpl in Hk. subst r.
  destruct o; simpl; eauto.
Qed.

Lemma mapM_exists {A B} (f : A -> result B) (l : list A) :
  Forall (fun x => exists y, f x = Ok y) l -> exists l', mapM f l = Ok l'.
Proof.
  induction 1 as [| x l [y Hy] _ [l' Hl']]; simpl; [eauto |].
  rewrite Hy, Hl'. simpl. eauto.
Qed.

(** The score written on a kept job, as the sort reads it back. *)
Lemma kept_sort_key (cs : list string) (jobs jobs' : list pyval) (kept : list nat)
    (i : nat) :
  filter_loop cs 0 jobs = (jobs', Ok kept) ->
  In i kept ->
  exists (job : pyval) (js : list string) (q : Q),
    nth_error jobs i = Some job /\ is_tech_job job = Ok true /\
    job_skills_of job = Ok js /\
    sort_key jobs' i = Ok (q, i) /\
    q = match js with
        | [] => inject_Z 50
        | _ => (skill_score_of cs js * 100)%Q
        end.
Proof.
  intros Hloop Hin.
  destruct (filter_loop_spec _ _ _ _ _ Hloop) as (_ & Hb & Hpos).
  rewrite Forall_forall in Hb. pose proof (Hb _ Hin) as Hi. simpl in Hi.
  destruct (nth_error jobs i) as [job |] eqn:Ej;
    [| apply nth_error_None in Ej; lia].
  destruct (Hpos _ _ Ej) as (o & Ho & Hiff & Hnth). simpl in Hiff.
  apply Hiff in Hin.
  destruct o as [job' |]; [| congruence].
  unfold filter_job in Ho.
  apply bind_Ok in Ho as (tech & Ht & Ho).
  destruct (is_tech_job_dict _ _ Ht) as [d ->].
  destruct tech; simpl in Ho; [| discriminate].
  apply bind_Ok in Ho as (js & Hs & Ho).
  destruct (preliminary cs js) as [v |] eqn:Ep; [| discriminate].
  simpl in Ho. injection Ho as <-.
  destruct (preliminary_spec cs js) as [_ Hval]. specialize (Hval v Ep).
  exists (PDict d), js.
  unfold sort_key. rewrite Hnth. simpl. rewrite dict_get_set_same. simpl.
  subst v. destruct js; simpl; eauto 10.
Qed.

End filter_more.

Section filter_more2.
Import Py data_processor properties examples.
Local Open Scope string_scope.
Local Open Scope list_scope.

Lemma candidate_skills_NoDup (c : pyval) (cs : list string) :
  candidate_skills_of c = Ok cs -> NoDup cs.
Proof.
  unfold candidate_skills_of. intros H.
  apply bind_Ok in H as (skills & _ & H).
  apply bind_Ok in H as (items & _ & H).
  apply bind_Ok in H as (cleaned & _ & H).
  injection H as <-. apply set_of_NoDup.
Qed.

Lemma intersection_le_right (a b : list string) :
  NoDup a -> (List.length (intersection a b) <= List.length b)%nat.
Proof.
  intros Ha. apply NoDup_incl_length.
  - now apply NoDup_filter.
  - intros x Hx. apply filter_In in Hx as [_ Hx]. now apply mem_In.
Qed.

Lemma skill_score_range (cs js : list string) :
  NoDup cs -> js <> [] -> in_range (skill_score_of cs js * 100).
Proof.
  intros Hnd Hne. unfold in_range, skill_score_of.
  assert (Hn : (0 < List.length js)%nat) by (destruct js; [congruence | simpl; lia]).
  destruct (ratio_bounds _ _ (intersection_le_right cs js Hnd) Hn) as [H0 H1].
  split; lra.
Qed.

(** X4. A catalog built by the loader never makes the pre-filter raise: every
    job of it has the shape the filter reads, so for every candidate whose
    skills can be read the pre-filter returns a list, and the catalog keeps
    that shape afterwards. *)
Theorem loaded_catalog_filter_returns (file : csv_file) (jobs : list pyval)
    (c : pyval) (cs : list string) :
  forallb loaded_job (_load_jobs_from_csv file) = true /\
  (forallb loaded_job jobs = true ->
   candidate_skills_of c = Ok cs ->
   (exists out, snd (_pre_filter_jobs jobs c) = Ok out) /\
   forallb loaded_job (fst (_pre_filter_jobs jobs c)) = true).
Proof.
  split; [apply load_jobs_loaded |].
  intros Hjobs Hcs.
  assert (Hafter : forallb loaded_job (fst (_pre_filter_jobs jobs c)) = true).
  { pose proof (pre_filter_frame jobs c) as Hf. revert Hjobs.
    induction Hf as [| job job' l l' Hj _ IH]; simpl; [auto |].
    intros H. apply andb_true_iff in H as [H1 H2].
    rewrite (agree_except_loaded _ _ Hj), H1. simpl. auto. }
  split; [| exact Hafter].
  pose proof (Forall2_length_eq _ _ _ (pre_filter_frame jobs c)) as Hlen.
  unfold _pre_filter_jobs in *. rewrite Hcs in *.
  destruct (filter_loop_loaded cs jobs 0 Hjobs) as [kept Hk].
  destruct (filter_loop cs 0 jobs) as [jobs' r] eqn:Hloop. cbn [fst snd] in *.
  subst r. cbn [snd bind].
  destruct (mapM_exists (sort_key jobs') kept) as [keyed Hkeyed].
  { rewrite Forall_forall. intros i Hi.
    destruct (kept_sort_key _ _ _ _ _ Hloop Hi) as (job & js & q & _ & _ & _ & Hq & _).
    eauto. }
  rewrite Hkeyed. cbn [bind].
  destruct (mapM_exists (fun i => debug_skills (deref jobs' i))
              (firstn 5 (firstn 50 (map snd (sort_desc keyed))))) as [dbg Hdbg].
  { rewrite Forall_forall. intros i Hi.
    apply In_firstn, In_firstn in Hi.
    destruct (keyed_refs _ _ _ Hkeyed) as [Hsnd _].
    assert (Hin : In i kept).
    { rewrite <- Hsnd. eapply Permutation_in; [| exact Hi].
      apply Permutation_map, sort_desc_perm. }
    destruct (filter_loop_spec _ _ _ _ _ Hloop) as (_ & Hb & _).
    rewrite Forall_forall in Hb. apply Hb in Hin. simpl in Hin.
    assert (Hl : loaded_job (deref jobs' i) = true).
    { rewrite forallb_forall in Hafter. apply Hafter. unfold deref.
      apply nth_In. lia. }
    destruct (loaded_job_readings _ Hl) as (d & b & js & _ & _ & _ & v & Hv). eauto. }
  rewrite Hdbg. cbn [bind]. eauto.
Qed.

Lemma loaded_catalog_filter_returns_witness :
  forallb loaded_job small_catalog = true /\
  candidate_skills_of experienced_candidate = Ok ["python"; "sql"] /\
  exists out, snd (_pre_filter_jobs small_catalog experienced_candidate) = Ok out.
Proof.
  assert (H1 : forallb loaded_job small_catalog = true) by (vm_compute; reflexivity).
  assert (H2 : candidate_skills_of experienced_candidate = Ok ["python"; "sql"])
    by (vm_compute; reflexivity).
  split; [exact H1 |]. split; [exact H2 |].
  apply (loaded_catalog_filter_returns None small_catalog experienced_candidate
           ["python"; "sql"]); assumption.
Defined.

(** X5. A job whose title and role hold no domain keyword is never among the
    jobs the pre-filter returns, whatever its skills and the candidate's, and
    its dictionary is left untouched. *)
Theorem non_tech_job_never_returned (jobs : list pyval) (c : pyval) (jobs' : list pyval)
    (out : list nat) (i : nat) (job : pyval) :
  _pre_filter_jobs jobs c = (jobs', Ok out) ->
  nth_error jobs i = Some job ->
  is_tech_job job = Ok false ->
  ~ In i out /\ nth_error jobs' i = Some job.
Proof.
  intros Hpf Hjob Htech.
  apply pre_filter_Ok in Hpf as (cs & kept & keyed & _ & Hloop & Hkeyed & ->).
  destruct (filter_loop_spec _ _ _ _ _ Hloop) as (_ & _ & Hpos).
  destruct (Hpos _ _ Hjob) as (o & Ho & Hiff & Hnth). simpl in Hiff.
  assert (o = None) as ->.
  { unfold filter_job in Ho. rewrite Htech in Ho. simpl in Ho. congruence. }
  split; [| exact Hnth].
  intros Hin. apply In_firstn in Hin.
  destruct (keyed_refs _ _ _ Hkeyed) as [Hsnd _].
  assert (Hk : In i kept).
  { rewrite <- Hsnd. eapply Permutation_in; [| exact Hin].
    apply Permutation_map, sort_desc_perm. }
  apply Hiff in Hk. congruence.
Qed.

Lemma non_tech_job_never_returned_witness :
  is_tech_job (deref small_catalog 3) = Ok false /\
  ~ In 3%nat [2; 0; 5; 4]%nat /\
  nth_error (fst (_pre_filter_jobs small_catalog experienced_candidate)) 3
  = Some (deref small_catalog 3).
Proof.
  assert (Ht : is_tech_job (deref small_catalog 3) = Ok false) by (vm_compute; reflexivity).
  split; [exact Ht |].
  apply (non_tech_job_never_returned small_catalog experienced_candidate
           (fst (_pre_filter_jobs small_catalog experienced_candidate))
           [2; 0; 5; 4]%nat 3 (deref small_catalog 3));
    [vm_compute; reflexivity | vm_compute; reflexivity | exact Ht].
Defined.

(** X6. Every job the pre-filter returns carries a preliminary score
    between 0 and 100: 50 when it asks for no skill, and otherwise a hundred
    times the share of its skills found among the candidate's, the
    candidate's skills being a set. *)
Theorem preliminary_score_in_range (jobs : list pyval) (c : pyval) (jobs' : list pyval)
    (out : list nat) (i : nat) :
  _pre_filter_jobs jobs c = (jobs', Ok out) ->
  In i out ->
  exists q : Q, sort_key jobs' i = Ok (q, i) /\ in_range q.
Proof.
  intros Hpf Hin.
  apply pre_filter_Ok in Hpf as (cs & kept & keyed & Hcs & Hloop & Hkeyed & ->).
  apply In_firstn in Hin.
  destruct (keyed_refs _ _ _ Hkeyed) as [Hsnd _].
  assert (Hk : In i kept).
  { rewrite <- Hsnd. eapply Permutation_in; [| exact Hin].
    apply Permutation_map, sort_desc_perm. }
  destruct (kept_sort_key _ _ _ _ _ Hloop Hk) as (job & js & q & _ & _ & _ & Hq & ->).
  eexists. split; [exact Hq |].
  destruct js as [| x js].
  - unfold in_range. split; discriminate.
  - apply skill_score_range; [eapply candidate_skills_NoDup; eassumption | discriminate].
Qed.

Lemma preliminary_score_in_range_witness :
  In 4%nat [2; 0; 5; 4]%nat /\
  exists q : Q,
    sort_key (fst (_pre_filter_jobs small_catalog experienced_candidate)) 4 = Ok (q, 4%nat) /\
    in_range q.
Proof.
  split; [simpl; auto |].
  apply (preliminary_score_in_range small_catalog experienced_candidate _ [2; 0; 5; 4]%nat);
    [vm_compute; reflexivity | simpl; auto].
Defined.

End filter_more2.

Section history.
Import Py data_processor properties examples.
Local Open Scope string_scope.
Local Open Scope list_scope.

Lemma agree_refl (job : pyval) : (agree_except "preliminary_score") job job.
Proof. now left. Qed.

Lemma agree_sym (a b : pyval) : (agree_except "preliminary_score") a b -> (agree_except "preliminary_score") b a.
Proof.
  intros [-> | (d & d' & -> & -> & H)]; [now left |].
  right. exists d', d. repeat split; auto. intros k Hk. symmetry. auto.
Qed.

Lemma agree_trans (a b c : pyval) : (agree_except "preliminary_score") a b -> (agree_except "preliminary_score") b c -> (agree_except "preliminary_score") a c.
Proof.
  intros [-> | (d & d' & -> & -> & H)]; [auto |].
  intros [-> | (e & e' & He & -> & H')].
  - right. exists d, d'. auto.
  - injection He as <-. right. exists d, e'. repeat split; auto.
    intros k Hk. rewrite H' by exact Hk. auto.
Qed.

Lemma Forall2_agree_refl (l : list pyval) : Forall2 (agree_except "preliminary_score") l l.
Proof. induction l; constructor; auto using agree_refl. Qed.

Lemma Forall2_agree_sym (l1 l2 : list pyval) : Forall2 (agree_except "preliminary_score") l1 l2 -> Forall2 (agree_except "preliminary_score") l2 l1.
Proof. induction 1; constructor; auto using agree_sym. Qed.

Lemma Forall2_agree_trans (l1 l2 l3 : list pyval) :
  Forall2 (agree_except "preliminary_score") l1 l2 -> Forall2 (agree_except "preliminary_score") l2 l3 -> Forall2 (agree_except "preliminary_score") l1 l3.
Proof.
  intros H. revert l3. induction H; intros l3 H3; inversion H3; subst; constructor.
  - eapply agree_trans; eassumption.
  - auto.
Qed.

Lemma Forall2_agree_nth (l1 l2 : list pyval) (i : nat) :
  Forall2 (agree_except "preliminary_score") l1 l2 -> (agree_except "preliminary_score") (deref l1 i) (deref l2 i).
Proof.
  unfold deref. intros H. revert i.
  induction H; intros [| i]; simpl; auto using agree_refl.
Qed.

(** Reading any other key of two agreeing jobs gives the same value. *)
Lemma agree_get (a b : pyval) (k : string) (default : pyval) :
  (agree_except "preliminary_score") a b -> k <> "preliminary_score" -> get b k default = get a k default.
Proof.
  intros [-> | (d & d' & -> & -> & H)] Hk; [reflexivity |].
  simpl. now rewrite H.
Qed.

Lemma agree_getitem (a b : pyval) (k : string) :
  (agree_except "preliminary_score") a b -> k <> "preliminary_score" -> getitem b k = getitem a k.
Proof.
  intros [-> | (d & d' & -> & -> & H)] Hk; [reflexivity |].
  simpl. now rewrite H.
Qed.

Lemma agree_is_tech_job (a b : pyval) : (agree_except "preliminary_score") a b -> is_tech_job b = is_tech_job a.
Proof.
  intros H. unfold is_tech_job.
  rewrite (agree_get a b "title") by (auto; discriminate).
  rewrite (agree_get a b "role") by (auto; discriminate). reflexivity.
Qed.

Lemma agree_job_skills (a b : pyval) : (agree_except "preliminary_score") a b -> job_skills_of b = job_skills_of a.
Proof.
  intros H. unfold job_skills_of.
  rewrite (agree_get a b "requirements") by (auto; discriminate). reflexivity.
Qed.

Lemma agree_debug_skills (a b : pyval) : (agree_except "preliminary_score") a b -> debug_skills b = debug_skills a.
Proof.
  intros H. unfold debug_skills.
  rewrite (agree_get a b "requirements") by (auto; discriminate). reflexivity.
Qed.

Lemma agree_match_job (m : ai_processor.JobMatcher) (c a b : pyval) :
  (agree_except "preliminary_score") a b -> match_job m c b = match_job m c a.
Proof.
  intros H. unfold match_job.
  rewrite (agree_debug_skills a b H).
  rewrite (agree_getitem a b "requirements") by (auto; discriminate).
  rewrite !(agree_get a b "title") by (auto; discriminate).
  rewrite (agree_get a b "company") by (auto; discriminate).
  rewrite (agree_get a b "role") by (auto; discriminate).
  rewrite (agree_get a b "salary_range") by (auto; discriminate).
  rewrite (agree_get a b "work_type") by (auto; discriminate).
  rewrite (agree_get a b "requirements") by (auto; discriminate).
  reflexivity.
Qed.

(** The decision of the loop is the same on two agreeing jobs. *)
Lemma agree_filter_job (cs : list string) (a b : pyval) :
  (agree_except "preliminary_score") a b ->
  match filter_job cs a, filter_job cs b with
  | Ok None, Ok None => True
  | Ok (Some _), Ok (Some _) => True
  | Raise e1, Raise e2 => e1 = e2
  | _, _ => False
  end.
Proof.
  intros H. unfold filter_job.
  rewrite (agree_is_tech_job a b H), (agree_job_skills a b H).
  destruct (is_tech_job a) as [[|] | e] eqn:Et; simpl; auto.
  destruct (job_skills_of a) as [js | e]; simpl; auto.
  destruct (preliminary cs js) as [v |]; simpl; auto.
  destruct (is_tech_job_dict _ _ Et) as [d ->].
  destruct H as [-> | (d0 & d' & _ & -> & _)]; simpl; auto.
Qed.

Lemma agree_filter_loop (cs : list string) (jobs1 jobs2 : list pyval) :
  Forall2 (agree_except "preliminary_score") jobs1 jobs2 ->
  forall n : nat, snd (filter_loop cs n jobs2) = snd (filter_loop cs n jobs1).
Proof.
  induction 1 as [| a b l1 l2 Hab _ IH]; intros n; cbn [filter_loop]; [reflexivity |].
  pose proof (agree_filter_job cs a b Hab) as Hj.
  specialize (IH (S n)).
  destruct (filter_job cs a) as [[a' |] | e1], (filter_job cs b) as [[b' |] | e2];
    try contradiction;
    try (destruct (filter_loop cs (S n) l1) as [r1 k1],
                  (filter_loop cs (S n) l2) as [r2 k2]; simpl in *; now rewrite IH).
  simpl. now subst.
Qed.

Lemma mapM_ext_in {A B} (f g : A -> result B) (l : list A) :
  (forall x, In x l -> f x = g x) -> mapM f l = mapM g l.
Proof.
  induction l as [| x l IH]; intros H; simpl; [reflexivity |].
  rewrite (H x) by now left. rewrite IH; [reflexivity |].
  intros y Hy. apply H. now right.
Qed.

(** Two agreeing catalogs give the same filtered list, and (agree_except "preliminary_score") afterwards. *)
Lemma agree_pre_filter (jobs1 jobs2 : list pyval) (c : pyval) :
  Forall2 (agree_except "preliminary_score") jobs1 jobs2 ->
  snd (_pre_filter_jobs jobs2 c) = snd (_pre_filter_jobs jobs1 c) /\
  Forall2 (agree_except "preliminary_score") (fst (_pre_filter_jobs jobs1 c)) (fst (_pre_filter_jobs jobs2 c)).
Proof.
  intros H.
  assert (Hafter : Forall2 (agree_except "preliminary_score") (fst (_pre_filter_jobs jobs1 c))
                           (fst (_pre_filter_jobs jobs2 c))).
  { eapply Forall2_agree_trans; [apply Forall2_agree_sym, pre_filter_frame |].
    eapply Forall2_agree_trans; [exact H | apply pre_filter_frame]. }
  split; [| exact Hafter].
  unfold _pre_filter_jobs in *.
  destruct (candidate_skills_of c) as [cs | e]; [| reflexivity].
  pose proof (agree_filter_loop cs jobs1 jobs2 H 0) as Hsnd.
  destruct (filter_loop cs 0 jobs1) as [jobs1' r1] eqn:E1.
  destruct (filter_loop cs 0 jobs2) as [jobs2' r2] eqn:E2.
  cbn [fst snd] in *. subst r2.
  destruct r1 as [kept | e]; [| reflexivity]. cbn [bind].
  assert (Hkeys : mapM (sort_key jobs2') kept = mapM (sort_key jobs1') kept).
  { apply mapM_ext_in. intros i Hi.
    destruct (kept_sort_key _ _ _ _ _ E1 Hi) as (j1 & js1 & q1 & Hn1 & _ & Hs1 & Hq1 & ->).
    destruct (kept_sort_key _ _ _ _ _ E2 Hi) as (j2 & js2 & q2 & Hn2 & _ & Hs2 & Hq2 & ->).
    assert (Hj : (agree_except "preliminary_score") j1 j2).
    { pose proof (Forall2_agree_nth jobs1 jobs2 i H) as Hd. unfold deref in Hd.
      now rewrite (nth_error_nth _ _ _ Hn1), (nth_error_nth _ _ _ Hn2) in Hd. }
    rewrite (agree_job_skills _ _ Hj) in Hs2.
    assert (js2 = js1) as -> by congruence.
    now rewrite Hq1, Hq2. }
  rewrite Hkeys.
  destruct (mapM (sort_key jobs1') kept) as [keyed | e]; [| reflexivity]. cbn [bind].
  rewrite (mapM_ext_in (fun i => debug_skills (deref jobs2' i))
                       (fun i => debug_skills (deref jobs1' i))); [reflexivity |].
  intros i _. apply agree_debug_skills, Forall2_agree_nth, Hafter.
Qed.

(** X7. Preliminary scores left on the catalog by an earlier call never
    change a later ranking: filtering for a candidate after the catalog was
    filtered for any other candidate returns the list that filtering the
    untouched catalog returns. *)
Theorem filter_ignores_earlier_calls (jobs : list pyval) (c0 c : pyval) :
  snd (_pre_filter_jobs (fst (_pre_filter_jobs jobs c0)) c)
  = snd (_pre_filter_jobs jobs c).
Proof.
  apply agree_pre_filter, pre_filter_frame.
Qed.

End history.

Section orchestrator_more.
Import Py data_processor properties examples.
Local Open Scope string_scope.
Local Open Scope list_scope.

Lemma match_jobs_agree (m : ai_processor.JobMatcher) (c : pyval)
    (jobs1 jobs2 : list pyval) (refs : list nat) :
  Forall2 (agree_except "preliminary_score") jobs1 jobs2 ->
  match_jobs m c (map (deref jobs2) refs) = match_jobs m c (map (deref jobs1) refs).
Proof.
  intros H. induction refs as [| i refs IH]; simpl; [reflexivity |].
  rewrite (agree_match_job m c (deref jobs1 i) (deref jobs2 i))
    by (apply Forall2_agree_nth, H).
  now rewrite IH.
Qed.

(** Accessing the cache of two agreeing processors. *)
Lemma caches_agree_get (p1 p2 : DataProcessor) (w : World) :
  caches_agree p1 p2 ->
  caches_agree (fst (_get_cached_jobs p1 w)) (fst (_get_cached_jobs p2 w)) /\
  Forall2 (agree_except "preliminary_score")
          (snd (_get_cached_jobs p1 w)) (snd (_get_cached_jobs p2 w)).
Proof.
  destruct p1 as [path jm cached1 last dur], p2 as [path2 jm2 cached2 last2 dur2].
  unfold caches_agree; simpl. intros (<- & <- & <- & <- & Hc).
  unfold _get_cached_jobs; simpl.
  destruct cached1 as [jobs1 |], cached2 as [jobs2 |]; try contradiction.
  - destruct (Qle_bool _ _); simpl; repeat split; auto using Forall2_agree_refl.
  - simpl; repeat split; auto using Forall2_agree_refl.
Qed.

(** X8. The result of a match does not depend on the preliminary scores
    earlier matches left on the cached jobs: two processors whose caches
    differ at most in those scores return the same result for the same
    request, and still differ at most in those scores afterwards. *)
Theorem match_ignores_earlier_calls (p1 p2 : DataProcessor) (w : World) (c : pyval)
    (page per_page : Z) (use_ai : bool) :
  caches_agree p1 p2 ->
  snd (match_candidate_with_jobs p1 w c page per_page use_ai)
  = snd (match_candidate_with_jobs p2 w c page per_page use_ai) /\
  caches_agree (fst (match_candidate_with_jobs p1 w c page per_page use_ai))
               (fst (match_candidate_with_jobs p2 w c page per_page use_ai)).
Proof.
  intros Hp. unfold match_candidate_with_jobs.
  destruct (get c "skills" (PList [])) as [skills | e]; [| split; [reflexivity | exact Hp]].
  destruct (caches_agree_get p1 p2 w Hp) as [Hself Hjobs].
  destruct (_get_cached_jobs p1 w) as [s1 jobs1], (_get_cached_jobs p2 w) as [s2 jobs2].
  cbn [fst snd] in Hself, Hjobs.
  destruct (agree_pre_filter jobs1 jobs2 c Hjobs) as [Hr Hafter].
  destruct (_pre_filter_jobs jobs1 c) as [jobs1' r1], (_pre_filter_jobs jobs2 c) as [jobs2' r2].
  cbn [fst snd] in Hr, Hafter. subst r2.
  assert (Hwith : caches_agree (with_cached_jobs s1 jobs1') (with_cached_jobs s2 jobs2')).
  { destruct Hself as (H1 & H2 & H3 & H4 & _).
    unfold caches_agree, with_cached_jobs; simpl. auto. }
  assert (Hm : job_matcher (with_cached_jobs s1 jobs1')
               = job_matcher (with_cached_jobs s2 jobs2')) by apply Hwith.
  destruct r1 as [filtered | e]; [| split; [reflexivity | exact Hwith]].
  destruct (per_page =? 0)%Z; [split; [reflexivity | exact Hwith] |].
  cbn [fst snd]. split; [| exact Hwith].
  rewrite Hm. now rewrite (match_jobs_agree _ c jobs1' jobs2').
Qed.

(** A match leaves the cache it read, up to preliminary scores. *)
Lemma caches_agree_after_match (self : DataProcessor) (w : World) (c skills : pyval)
    (page per_page : Z) (use_ai : bool) :
  get c "skills" (PList []) = Ok skills ->
  caches_agree (fst (_get_cached_jobs self w))
               (fst (match_candidate_with_jobs self w c page per_page use_ai)).
Proof.
  intros Hsk. unfold match_candidate_with_jobs. rewrite Hsk.
  pose proof (get_cached_jobs_cached self w) as Hc.
  destruct (_get_cached_jobs self w) as [self1 jobs]. cbn [fst snd] in *.
  pose proof (pre_filter_frame jobs c) as Hf.
  destruct (_pre_filter_jobs jobs c) as [jobs' r]. cbn [fst] in Hf.
  assert (H : caches_agree self1 (with_cached_jobs self1 jobs')).
  { unfold caches_agree, with_cached_jobs. cbn. rewrite Hc. auto. }
  destruct r as [filtered | e]; [| exact H].
  destruct (per_page =? 0)%Z; exact H.
Qed.

Lemma match_ignores_earlier_calls_witness :
  caches_agree (fst (_get_cached_jobs processor world25))
               (fst (match_candidate_with_jobs processor world25 fresh_candidate 2 5 true)) /\
  snd (match_candidate_with_jobs (fst (_get_cached_jobs processor world25)) world25
         experienced_candidate 1 10 false)
  = snd (match_candidate_with_jobs
           (fst (match_candidate_with_jobs processor world25 fresh_candidate 2 5 true))
           world25 experienced_candidate 1 10 false).
Proof.
  assert (H : caches_agree (fst (_get_cached_jobs processor world25))
                (fst (match_candidate_with_jobs processor world25 fresh_candidate 2 5 true)))
    by (eapply caches_agree_after_match; reflexivity).
  split; [exact H |].
  exact (proj1 (match_ignores_earlier_calls _ _ world25 experienced_candidate 1 10 false H)).
Defined.

(** X9. A page size of zero makes the division raise and the handler answer:
    the result has no match, total 0 and 0 pages, whatever the catalog
    holds. *)
Theorem zero_page_size_gives_empty_result (self : DataProcessor) (w : World) (c : pyval)
    (page : Z) (use_ai : bool) :
  snd (match_candidate_with_jobs self w c page 0 use_ai) = no_matches page 0.
Proof.
  unfold match_candidate_with_jobs.
  destruct (get c "skills" (PList [])); [| reflexivity].
  destruct (_get_cached_jobs self w) as [self1 jobs].
  destruct (_pre_filter_jobs jobs c) as [jobs' [filtered | e]]; reflexivity.
Qed.

Lemma slice_length {A} (l : list A) (start n : Z) :
  (0 <= n)%Z -> (Z.of_nat (List.length (slice l start (start + n))) <= n)%Z.
Proof.
  intros Hn. unfold slice, clamp_index. rewrite length_firstn.
  set (len := Z.of_nat (List.length l)).
  assert (Hlen : (0 <= len)%Z) by (subst len; lia).
  destruct (Z.ltb_spec start 0), (Z.ltb_spec (start + n) 0); lia.
Qed.

Lemma slice_page_zero {A} (l : list A) (n : Z) :
  (0 <= n)%Z -> slice l ((0 - 1) * n) ((0 - 1) * n + n) = [].
Proof.
  intros Hn. unfold slice, clamp_index.
  replace ((0 - 1) * n + n)%Z with 0%Z by lia.
  set (len := Z.of_nat (List.length l)).
  assert (Hlen : (0 <= len)%Z) by (subst len; lia).
  destruct (Z.ltb_spec ((0 - 1) * n) 0), (Z.ltb_spec 0 0); try lia;
    match goal with
    | |- firstn ?k _ = [] => replace k with 0%nat by lia; reflexivity
    end.
Qed.

Lemma match_jobs_length (m : ai_processor.JobMatcher) (c : pyval) (l : list pyval) :
  (List.length (match_jobs m c l) <= List.length l)%nat.
Proof.
  induction l as [| job l IH]; simpl; [lia |].
  destruct (match_job m c job); simpl; lia.
Qed.

(** X10. Page 0 holds no match: its window ends at position 0 of the
    filtered list.  The total and the number of pages are those of any other
    page. *)
Theorem page_zero_is_empty (self : DataProcessor) (w : World) (c : pyval)
    (per_page : Z) (use_ai : bool) :
  (1 <= per_page)%Z ->
  matches (snd (match_candidate_with_jobs self w c 0 per_page use_ai)) = [] /\
  total (pagination (snd (match_candidate_with_jobs self w c 0 per_page use_ai)))
  = total (pagination (snd (match_candidate_with_jobs self w c 1 per_page use_ai))) /\
  total_pages (pagination (snd (match_candidate_with_jobs self w c 0 per_page use_ai)))
  = total_pages (pagination (snd (match_candidate_with_jobs self w c 1 per_page use_ai))).
Proof.
  intros Hpp. unfold match_candidate_with_jobs.
  destruct (get c "skills" (PList [])); [| repeat split].
  destruct (_get_cached_jobs self w) as [self1 jobs].
  destruct (_pre_filter_jobs jobs c) as [jobs' [filtered | e]]; [| repeat split].
  destruct (Z.eqb_spec per_page 0) as [? | _]; [lia |].
  cbn [snd matches pagination total total_pages].
  rewrite slice_page_zero by lia. repeat split.
Qed.

Lemma page_zero_is_empty_witness :
  (1 <= 10)%Z /\
  matches (snd (match_candidate_with_jobs processor world25 experienced_candidate
                  0 10 false)) = [] /\
  total (pagination (snd (match_candidate_with_jobs processor world25
                            experienced_candidate 1 10 false))) = 25%Z.
Proof.
  assert (H : (1 <= 10)%Z) by lia.
  split; [exact H |]. split.
  - exact (proj1 (page_zero_is_empty processor world25 experienced_candidate 10 false H)).
  - vm_compute. reflexivity.
Defined.

(** X11. For a page size of at least one the result never holds more
    matches than the page size, whatever the page number, and its total
    never exceeds 50, nor does its number of pages. *)
Theorem result_sizes_bounded (self : DataProcessor) (w : World) (c : pyval)
    (page per_page : Z) (use_ai : bool) :
  (1 <= per_page)%Z ->
  let result := snd (match_candidate_with_jobs self w c page per_page use_ai) in
  (Z.of_nat (List.length (matches result)) <= per_page)%Z /\
  (0 <= total (pagination result) <= 50)%Z /\
  (0 <= total_pages (pagination result) <= 50)%Z.
Proof.
  intros Hpp. cbv zeta. unfold match_candidate_with_jobs.
  destruct (get c "skills" (PList [])); [| simpl; lia].
  destruct (_get_cached_jobs self w) as [self1 jobs].
  destruct (_pre_filter_jobs jobs c) as [jobs' [filtered | e]] eqn:Epf; [| simpl; lia].
  destruct (Z.eqb_spec per_page 0) as [? | _]; [lia |].
  cbn [snd matches pagination total total_pages].
  assert (H50 : (List.length filtered <= 50)%nat).
  { apply pre_filter_Ok in Epf as (cs & kept & keyed & _ & _ & _ & ->).
    rewrite length_firstn. lia. }
  split; [| split].
  - pose proof (match_jobs_length (job_matcher (with_cached_jobs self1 jobs')) c
                  (map (deref jobs')
                       (slice filtered ((page - 1) * per_page)
                              ((page - 1) * per_page + per_page)))) as Hm.
    rewrite length_map in Hm.
    pose proof (slice_length filtered ((page - 1) * per_page) per_page ltac:(lia)). lia.
  - lia.
  - destruct (ceil_div (Z.of_nat (List.length filtered)) per_page) as [Hlo Hhi]; [lia | lia |].
    split; nia.
Qed.

Lemma result_sizes_bounded_witness :
  (1 <= 10)%Z /\
  (Z.of_nat (List.length (matches (snd (match_candidate_with_jobs processor world25
                                          experienced_candidate (-1) 10 false)))) <= 10)%Z.
Proof.
  assert (H : (1 <= 10)%Z) by lia.
  split; [exact H |].
  exact (proj1 (result_sizes_bounded processor world25 experienced_candidate (-1) 10 false H)).
Defined.

End orchestrator_more.

Section global_matches.
Import Py data_processor properties examples job_matcher.
Local Open Scope string_scope.
Local Open Scope list_scope.

(** The inner loop of [get_highest_education_level] over any table: the
    result is the start value or a value of the table whose name occurs,
    and it is at least the start value and every such value. *)
Lemma level_fold_spec (degree : string) (table : list (string * nat)) (h : nat) :
  let r := fold_left
             (fun highest lv =>
                if PyStr.contains (fst lv) degree && (highest <? snd lv)%nat then snd lv
                else highest) table h in
  (h <= r)%nat /\
  (forall name v, In (name, v) table -> PyStr.contains name degree = true -> (v <= r)%nat) /\
  (r = h \/ exists name, In (name, r) table /\ PyStr.contains name degree = true).
Proof.
  revert h. induction table as [| [name v] table IH]; intros h; cbn [fold_left fst snd].
  - repeat split; auto. intros ? ? [].
  - set (h' := if PyStr.contains name degree && (h <? v)%nat then v else h).
    assert (Hh : (h <= h')%nat /\
                 (PyStr.contains name degree = true -> (v <= h')%nat) /\
                 (h' = h \/ (h' = v /\ PyStr.contains name degree = true))).
    { subst h'. destruct (PyStr.contains name degree); simpl.
      - destruct (Nat.ltb_spec h v); repeat split; auto; lia.
      - repeat split; auto. discriminate. }
    destruct Hh as (Hh1 & Hh2 & Hh3).
    destruct (IH h') as (Hle & Hall & Hor). clearbody h'.
    split; [lia |]. split.
    + intros name' v' [E | Hin] Hc.
      * inversion E; subst name' v'. specialize (Hh2 Hc). lia.
      * eapply Hall; eauto.
    + destruct Hor as [E | (name' & Hin & Hc)].
      * destruct Hh3 as [E' | (E' & Hc)].
        -- left. congruence.
        -- right. exists name. rewrite E, E'. split; [now left | exact Hc].
      * right. exists name'. split; [now right | exact Hc].
Qed.

Lemma raise_level_spec (degree : string) (h : nat) :
  (h <= raise_level h degree)%nat /\
  (forall name v, In (name, v) levels -> PyStr.contains name degree = true ->
                  (v <= raise_level h degree)%nat) /\
  (raise_level h degree = h \/
   exists name, In (name, raise_level h degree) levels /\ PyStr.contains name degree = true).
Proof. exact (level_fold_spec degree levels h). Qed.

Lemma highest_fold_spec (degrees : list string) (h : nat) :
  let r := fold_left raise_level degrees h in
  (h <= r)%nat /\
  (forall degree name v, In degree degrees -> In (name, v) levels ->
                         PyStr.contains name degree = true -> (v <= r)%nat) /\
  (r = h \/ names_level degrees r).
Proof.
  revert h. induction degrees as [| d degrees IH]; intros h; cbn [fold_left].
  - repeat split; auto. intros ? ? ? [].
  - destruct (raise_level_spec d h) as (H1 & H2 & H3).
    destruct (IH (raise_level h d)) as (Hle & Hall & Hor).
    split; [lia |]. split.
    + intros degree name v [<- | Hin] Hl Hc.
      * specialize (H2 name v Hl Hc). lia.
      * eapply Hall; eauto.
    + destruct Hor as [E | (degree & name & Hin & Hl & Hc)].
      * destruct H3 as [E' | (name & Hl & Hc)].
        -- left. congruence.
        -- right. exists d, name. rewrite E. repeat split; auto. now left.
      * right. exists degree, name. repeat split; auto. now right.
Qed.

Lemma highest_education_level_spec (education : pyval) (highest : nat) :
  get_highest_education_level education = Ok highest ->
  exists edus degrees,
    iter education = Ok edus /\
    mapM degree_of edus = Ok degrees /\
    (forall degree name v,
        In degree degrees -> In (name, v) levels ->
        PyStr.contains name degree = true -> (v <= highest)%nat) /\
    (highest = 0%nat \/ names_level degrees highest).
Proof.
  unfold get_highest_education_level. intros H.
  apply bind_Ok in H as (edus & He & H).
  apply bind_Ok in H as (degrees & Hd & H).
  injection H as <-.
  exists edus, degrees.
  destruct (highest_fold_spec degrees 0) as (_ & Hall & Hor).
  repeat split; auto.
Qed.

(** X13. [get_highest_education_level] returns the largest value of
    [levels] whose name occurs in the lower-cased [degree] of some entry,
    and 0 when no name occurs in any of them. *)
Theorem highest_education_level_is_maximum (education : pyval) (highest : nat) :
  get_highest_education_level education = Ok highest ->
  exists edus degrees,
    iter education = Ok edus /\
    mapM degree_of edus = Ok degrees /\
    (forall degree name v,
        In degree degrees -> In (name, v) levels ->
        PyStr.contains name degree = true -> (v <= highest)%nat) /\
    (highest = 0%nat \/ names_level degrees highest).
Proof. exact (highest_education_level_spec education highest). Qed.

Lemma highest_education_level_witness :
  get_highest_education_level two_degrees = Ok 4%nat /\
  exists edus degrees,
    iter two_degrees = Ok edus /\
    mapM degree_of edus = Ok degrees /\
    (forall degree name v,
        In degree degrees -> In (name, v) levels ->
        PyStr.contains name degree = true -> (v <= 4)%nat) /\
    (4%nat = 0%nat \/ names_level degrees 4).
Proof.
  split; [reflexivity |].
  exact (highest_education_level_is_maximum two_degrees 4%nat eq_refl).
Defined.

Lemma highest_education_level_le (education : pyval) (highest : nat) :
  get_highest_education_level education = Ok highest -> (highest <= 5)%nat.
Proof.
  intros H. apply highest_education_level_spec in H
    as (edus & degrees & _ & _ & _ & [-> | (d & name & _ & Hl & _)]); [lia |].
  simpl in Hl.
  repeat (destruct Hl as [E | Hl]; [inversion E; lia |]). destruct Hl.
Qed.


(** The two ways the module counts the tokens of one entry. *)
Lemma period_tokens_entry_years (exp : pyval) (tokens : nat) :
  ai_processor.period_tokens exp = Ok tokens ->
  exists years,
    entry_years exp = Ok years /\
    tokens = (years + (if lacks_period exp then 1 else 0))%nat.
Proof.
  unfold ai_processor.period_tokens, entry_years. intros H.
  apply bind_Ok in H as (period & Hg & H).
  apply bind_Ok in H as (s & Hs & H). injection H as <-.
  destruct exp as [| | | | | | d]; try discriminate Hg.
  cbn [get contains_str getitem lacks_period bind] in *.
  injection Hg as <-.
  destruct (dict_get d "period") as [x |] eqn:Hd; cbn [bind].
  - rewrite Hs. cbn [bind]. eexists; split; [reflexivity | lia].
  - injection Hs as <-. exists 0%nat. split; reflexivity.
Qed.

Lemma mapM_years (exps : list pyval) (tokens : list nat) :
  mapM ai_processor.period_tokens exps = Ok tokens ->
  exists years,
    mapM entry_years exps = Ok years /\
    fold_left Nat.add tokens 0%nat =
      (fold_left Nat.add years 0 + List.length (filter lacks_period exps))%nat.
Proof.
  revert tokens. induction exps as [| exp exps IH]; intros tokens H; cbn [mapM] in *.
  - injection H as <-. exists []. split; reflexivity.
  - apply bind_Ok in H as (t & Ht & H).
    apply bind_Ok in H as (ts & Hts & H). injection H as <-.
    apply period_tokens_entry_years in Ht as (y & Hy & ->).
    apply IH in Hts as (ys & Hys & E).
    exists (y :: ys). rewrite Hy, Hys. cbn [bind]. split; [reflexivity |].
    cbn [fold_left filter].
    rewrite (fold_add_shift ts), (fold_add_shift ys), E.
    destruct (lacks_period exp); cbn [List.length]; lia.
Qed.

(** X14. The module counts a candidate's years in two ways that disagree:
    whenever the count of the scorer is defined, so is the count of
    [calculate_years_of_experience], and the scorer's is larger by the
    number of entries that have no [period]. *)
Theorem year_counts_differ_by_missing_periods (experience : pyval) (candidate_years : nat) :
  ai_processor.candidate_years_of experience = Ok candidate_years ->
  exists exps total_years,
    iter experience = Ok exps /\
    calculate_years_of_experience experience = Ok total_years /\
    candidate_years = (total_years + List.length (filter lacks_period exps))%nat.
Proof.
  unfold ai_processor.candidate_years_of, calculate_years_of_experience. intros H.
  apply bind_Ok in H as (exps & He & H).
  apply bind_Ok in H as (tokens & Ht & H). injection H as <-.
  apply mapM_years in Ht as (years & Hy & E).
  exists exps, (fold_left Nat.add years 0%nat).
  rewrite He. cbn [bind]. rewrite Hy. cbn [bind]. auto.
Qed.

Lemma year_counts_differ_witness :
  ai_processor.candidate_years_of
    (PList [PDict [("title", PStr "Engineer"); ("period", PStr "2019-2021")];
            PDict [("title", PStr "Intern")]]) = Ok 3%nat /\
  exists exps total_years,
    iter (PList [PDict [("title", PStr "Engineer"); ("period", PStr "2019-2021")];
                 PDict [("title", PStr "Intern")]]) = Ok exps /\
    calculate_years_of_experience
      (PList [PDict [("title", PStr "Engineer"); ("period", PStr "2019-2021")];
              PDict [("title", PStr "Intern")]]) = Ok total_years /\
    3%nat = (total_years + List.length (filter lacks_period exps))%nat.
Proof.
  split; [reflexivity |].
  exact (year_counts_differ_by_missing_periods
           (PList [PDict [("title", PStr "Engineer"); ("period", PStr "2019-2021")];
                   PDict [("title", PStr "Intern")]]) 3%nat eq_refl).
Defined.


Lemma education_ok_false (level : nat) (entry : string * CategoryRequirements) :
  (level <= 5)%nat -> In entry global_job_categories ->
  education_ok level (snd entry) = false.
Proof.
  intros Hl Hin.
  assert (E : level = 0%nat \/ level = 1%nat \/ level = 2%nat \/ level = 3%nat \/
              level = 4%nat \/ level = 5%nat) by lia.
  clear Hl.
  destruct E as [-> | [-> | [-> | [-> | [-> | ->]]]]];
    cbn [global_job_categories In] in Hin;
    repeat (destruct Hin as [<- | Hin]; [vm_compute; reflexivity |]);
    destruct Hin.
Qed.

(** X15. The education weight of [generate_global_matches] is never the
    full one: the level is an integer from 0 to 5, and no field of study
    of any category occurs in its decimal form. *)
Theorem education_never_counts (education : pyval) (level : nat)
    (entry : string * CategoryRequirements) :
  get_highest_education_level education = Ok level ->
  In entry global_job_categories ->
  education_ok level (snd entry) = false.
Proof.
  intros H Hin. apply education_ok_false; [| exact Hin].
  exact (highest_education_level_le education level H).
Qed.

Lemma education_never_counts_witness :
  get_highest_education_level two_degrees = Ok 4%nat /\
  In (nth 1 global_job_categories (EmptyString, Build_CategoryRequirements [] [] [] []))
     global_job_categories /\
  education_ok 4
    (snd (nth 1 global_job_categories
            (EmptyString, Build_CategoryRequirements [] [] [] []))) = false.
Proof.
  assert (H1 : get_highest_education_level two_degrees = Ok 4%nat) by reflexivity.
  assert (H2 : In (nth 1 global_job_categories
                     (EmptyString, Build_CategoryRequirements [] [] [] []))
                  global_job_categories) by (right; left; reflexivity).
  split; [exact H1 |]. split; [exact H2 |].
  exact (education_never_counts two_degrees 4%nat _ H1 H2).
Defined.

Lemma experience_weight_spec (years : nat) (entry : string * CategoryRequirements) :
  In entry global_job_categories ->
  mem (determine_experience_level years) (req_experience_levels (snd entry)) =
    (years <? 12)%nat || String.eqb (fst entry) "Data Science".
Proof.
  intros Hin. unfold determine_experience_level.
  destruct (Nat.ltb_spec years 12), (Nat.ltb_spec years 2), (Nat.ltb_spec years 5),
    (Nat.ltb_spec years 8); try lia;
    cbn [global_job_categories In] in Hin;
    repeat (destruct Hin as [<- | Hin]; [vm_compute; reflexivity |]);
    destruct Hin.
Qed.

(** X16. The experience weight of a category is the full one for every
    candidate counted with fewer than 12 years; from 12 years on (level
    Principal) it is the full one for Data Science only. *)
Theorem experience_weight_full_below_twelve_years (years : nat)
    (entry : string * CategoryRequirements) :
  In entry global_job_categories ->
  mem (determine_experience_level years) (req_experience_levels (snd entry)) =
    (years <? 12)%nat || String.eqb (fst entry) "Data Science".
Proof. exact (experience_weight_spec years entry). Qed.

Lemma experience_weight_witness :
  In (nth 3 global_job_categories (EmptyString, Build_CategoryRequirements [] [] [] []))
     global_job_categories /\
  mem (determine_experience_level 15)
      (req_experience_levels
         (snd (nth 3 global_job_categories
                 (EmptyString, Build_CategoryRequirements [] [] [] [])))) =
    (15 <? 12)%nat ||
    String.eqb (fst (nth 3 global_job_categories
                       (EmptyString, Build_CategoryRequirements [] [] [] [])))
               "Data Science".
Proof.
  assert (H : In (nth 3 global_job_categories
                    (EmptyString, Build_CategoryRequirements [] [] [] []))
                 global_job_categories) by (do 3 right; left; reflexivity).
  split; [exact H |].
  exact (experience_weight_full_below_twelve_years 15 _ H).
Defined.


(** Rounding to an integer never crosses an integer. *)
Lemma round_half_even_lower (n : Z) (y : Q) :
  (inject_Z n <= y)%Q -> (n <= round_half_even y)%Z.
Proof.
  intros H. unfold round_half_even.
  assert (Hf : (n <= Qfloor y)%Z).
  { rewrite <- (Qfloor_Z n). now apply Qfloor_resp_le. }
  destruct (Qle_bool _ _); [destruct (Qeq_bool _ _); [destruct (Z.even _) |] |]; lia.
Qed.

Lemma round_half_even_upper (n : Z) (y : Q) :
  (y <= inject_Z n)%Q -> (round_half_even y <= n)%Z.
Proof.
  intros H. unfold round_half_even.
  assert (Hf : (Qfloor y <= n)%Z).
  { rewrite <- (Qfloor_Z n). now apply Qfloor_resp_le. }
  destruct (Z.eq_dec (Qfloor y) n) as [E | NE].
  - assert (Hr : (y - inject_Z (Qfloor y) <= 0)%Q) by (rewrite E; lra).
    destruct (Qle_bool _ _) eqn:Hle.
    + destruct (Qeq_bool _ _) eqn:Heq; [| lia].
      apply Qeq_bool_iff in Heq. lra.
    + assert (Hle' : Qle_bool (y - inject_Z (Qfloor y)) (1 # 2) = true)
        by (apply Qle_bool_iff; lra).
      congruence.
  - destruct (Qle_bool _ _); [destruct (Qeq_bool _ _); [destruct (Z.even _) |] |]; lia.
Qed.

Lemma round2_bounds (x : Q) :
  (25 <= x <= 90)%Q -> (25 <= round2 x <= 90)%Q.
Proof.
  intros [Hlo Hhi]. unfold round2.
  assert (H1 : (2500 <= round_half_even (x * 100))%Z).
  { apply round_half_even_lower. change (inject_Z 2500) with (2500 # 1)%Q. lra. }
  assert (H2 : (round_half_even (x * 100) <= 9000)%Z).
  { apply round_half_even_upper. change (inject_Z 9000) with (9000 # 1)%Q. lra. }
  rewrite Zle_Qle in H1, H2.
  change (inject_Z 2500) with (2500 # 1)%Q in H1.
  change (inject_Z 9000) with (9000 # 1)%Q in H2.
  set (q := inject_Z (round_half_even (x * 100))) in *. clearbody q.
  unfold Qdiv. change (/ 100)%Q with (1 # 100)%Q.
  split; lra.
Qed.

Lemma skill_share_bounds (candidate required : list string) :
  NoDup candidate ->
  (0 <= skill_share (intersection candidate required) required <= 1)%Q.
Proof.
  intros Hnd. unfold skill_share.
  destruct required as [| r rest] eqn:E; [split; lra |].
  rewrite <- E. apply ratio_bounds.
  - now apply intersection_le_right.
  - rewrite E. cbn [List.length]. lia.
Qed.

Lemma weighted_score_bounds (skill_match : Q) (experience_ok : bool) :
  (0 <= skill_match <= 1)%Q ->
  (25 <= weighted_score skill_match experience_ok false <= 90)%Q.
Proof.
  intros [H0 H1]. unfold weighted_score. destruct experience_ok; split; lra.
Qed.

Lemma category_match_Ok (analysis : pyval) (candidate_skill_set : list string)
    (level : string) (education_level : nat) (entry : string * CategoryRequirements)
    (m : GlobalMatch) :
  category_match analysis candidate_skill_set level education_level entry = Ok m ->
  isinstance_dict analysis = true /\
  category m = fst entry /\
  departments m = req_departments (snd entry) /\
  required_skills m = req_skills (snd entry) /\
  experience_level m = level /\
  match_score m =
    round2 (weighted_score
              (skill_share
                 (intersection candidate_skill_set
                    (set_of (map PyStr.lower (req_skills (snd entry)))))
                 (set_of (map PyStr.lower (req_skills (snd entry)))))
              (mem level (req_experience_levels (snd entry)))
              (education_ok education_level (snd entry))).
Proof.
  destruct entry as [c req]. unfold category_match. cbv zeta. intros H.
  apply bind_Ok in H as (a & Ha & H). injection H as <-.
  destruct analysis; try discriminate Ha. cbn. repeat split.
Qed.

Lemma Forall2_In_r {A B} (R : A -> B -> Prop) (l : list A) (l' : list B) (y : B) :
  Forall2 R l l' -> In y l' -> exists x, In x l /\ R x y.
Proof.
  induction 1 as [| a b l l' Hab _ IH]; intros Hin; [destruct Hin |].
  destruct Hin as [<- | Hin].
  - exists a. split; [now left | exact Hab].
  - destruct (IH Hin) as (x & Hx & Hr). exists x. split; [now right | exact Hr].
Qed.

(** What a returning call of [generate_global_matches] went through. *)
Lemma generate_global_matches_Ok (analysis candidate_data : pyval)
    (result : list GlobalMatch) :
  generate_global_matches analysis candidate_data = Ok result ->
  exists candidate_skills experience education years level matches,
    getitem candidate_data "experience" = Ok experience /\
    getitem candidate_data "education" = Ok education /\
    calculate_years_of_experience experience = Ok years /\
    get_highest_education_level education = Ok level /\
    mapM (category_match analysis (set_of candidate_skills)
            (determine_experience_level years) level) global_job_categories
      = Ok matches /\
    result = firstn 5 (map snd (sort_desc (map (fun m => (match_score m, m)) matches))).
Proof.
  unfold generate_global_matches. intros H.
  apply bind_Ok in H as (skills & _ & H).
  apply bind_Ok in H as (items & _ & H).
  apply bind_Ok in H as (candidate_skills & _ & H).
  apply bind_Ok in H as (experience & He & H).
  apply bind_Ok in H as (education & Hd & H).
  apply bind_Ok in H as (years & Hy & H).
  apply bind_Ok in H as (level & Hl & H).
  apply bind_Ok in H as (matches & Hm & H).
  injection H as <-.
  exists candidate_skills, experience, education, years, level, matches.
  repeat split; assumption.
Qed.

Lemma In_sorted_matches (matches : list GlobalMatch) (m : GlobalMatch) :
  In m (firstn 5 (map snd (sort_desc (map (fun m => (match_score m, m)) matches)))) ->
  In m matches.
Proof.
  intros H. apply In_firstn in H. apply in_map_iff in H as ([q m'] & E & H).
  simpl in E. subst m'.
  apply (Permutation_in _ (sort_desc_perm _)) in H.
  apply in_map_iff in H as (m' & E & H). now inversion E; subst.
Qed.

Lemma global_score_range (analysis candidate_data : pyval) (result : list GlobalMatch)
    (m : GlobalMatch) :
  generate_global_matches analysis candidate_data = Ok result ->
  In m result ->
  (25 <= match_score m <= 90)%Q.
Proof.
  intros H Hin.
  apply generate_global_matches_Ok in H
    as (cs & experience & education & years & level & matches & _ & _ & _ & Hl & Hm & ->).
  apply In_sorted_matches in Hin.
  apply mapM_Ok in Hm.
  destruct (Forall2_In_r _ _ _ _ Hm Hin) as (entry & Hentry & Hc).
  apply category_match_Ok in Hc as (_ & _ & _ & _ & _ & ->).
  rewrite (education_ok_false level entry (highest_education_level_le _ _ Hl) Hentry).
  apply round2_bounds, weighted_score_bounds, skill_share_bounds, set_of_NoDup.
Qed.

(** X17. Every score [generate_global_matches] returns lies between 25 and
    90: no candidate reaches the 100 the weights add up to, because the
    education weight is always the half one. *)
Theorem global_scores_between_25_and_90 (analysis candidate_data : pyval)
    (result : list GlobalMatch) :
  generate_global_matches analysis candidate_data = Ok result ->
  Forall (fun m => (25 <= match_score m <= 90)%Q) result.
Proof.
  intros H. apply Forall_forall. intros m Hin.
  exact (global_score_range analysis candidate_data result m H Hin).
Qed.

Lemma global_scores_witness :
  generate_global_matches (PDict []) experienced_candidate = Ok plain_matches /\
  Forall (fun m => (25 <= match_score m <= 90)%Q) plain_matches.
Proof.
  assert (H : generate_global_matches (PDict []) experienced_candidate = Ok plain_matches)
    by (vm_compute; reflexivity).
  split; [exact H |].
  exact (global_scores_between_25_and_90 (PDict []) experienced_candidate plain_matches H).
Defined.

Lemma sorted_map_snd {A} (key : A -> Q) (l : list (Q * A)) :
  (forall x, In x l -> fst x = key (snd x)) ->
  StronglySorted desc l ->
  StronglySorted (fun a b => (key b <= key a)%Q) (map snd l).
Proof.
  intros Hk Hs. induction Hs as [| x l Hs IH Hx]; cbn [map]; constructor.
  - apply IH. intros y Hy. apply Hk. now right.
  - apply Forall_forall. intros b Hb. apply in_map_iff in Hb as (y & <- & Hy).
    rewrite Forall_forall in Hx. specialize (Hx y Hy). unfold desc in Hx.
    rewrite <- (Hk x (or_introl eq_refl)), <- (Hk y (or_intror Hy)). exact Hx.
Qed.

Lemma category_matches_names (analysis : pyval) (cs : list string) (level : string)
    (education_level : nat) (entries : list (string * CategoryRequirements))
    (matches : list GlobalMatch) :
  mapM (category_match analysis cs level education_level) entries = Ok matches ->
  map category matches = map fst entries.
Proof.
  intros H. apply mapM_Ok in H.
  induction H as [| entry m entries matches Hm _ IH]; [reflexivity |].
  cbn [map]. apply category_match_Ok in Hm as (_ & -> & _). now rewrite IH.
Qed.

Lemma global_matches_shape (analysis candidate_data : pyval) (result : list GlobalMatch) :
  generate_global_matches analysis candidate_data = Ok result ->
  Permutation (map category result) (map fst global_job_categories) /\
  StronglySorted score_desc result.
Proof.
  intros H.
  apply generate_global_matches_Ok in H
    as (cs & experience & education & years & level & matches & _ & _ & _ & _ & Hm & ->).
  set (keyed := map (fun m => (match_score m, m)) matches).
  assert (Hlen : List.length (map snd (sort_desc keyed)) = 4%nat).
  { rewrite length_map, (Permutation_length (sort_desc_perm keyed)).
    unfold keyed. rewrite length_map.
    apply category_matches_names in Hm.
    apply (f_equal (@List.length string)) in Hm. rewrite !length_map in Hm.
    exact Hm. }
  rewrite firstn_all2 by lia.
  split.
  - rewrite <- (category_matches_names _ _ _ _ _ _ Hm).
    apply Permutation_map.
    transitivity (map snd keyed).
    + apply Permutation_map, sort_desc_perm.
    + unfold keyed. rewrite map_map. cbn [snd]. now rewrite map_id.
  - apply (sorted_map_snd match_score); [| apply sort_desc_sorted].
    intros x Hx. apply (Permutation_in _ (sort_desc_perm keyed)) in Hx.
    unfold keyed in Hx. apply in_map_iff in Hx as (m & <- & _). reflexivity.
Qed.

(** X18. [generate_global_matches] returns one match for each of the four
    job categories, in an order in which the scores never increase: the
    cut to five entries removes nothing. *)
Theorem global_matches_cover_categories (analysis candidate_data : pyval)
    (result : list GlobalMatch) :
  generate_global_matches analysis candidate_data = Ok result ->
  Permutation (map category result) (map fst global_job_categories) /\
  StronglySorted score_desc result.
Proof. exact (global_matches_shape analysis candidate_data result). Qed.

Lemma global_matches_cover_witness :
  generate_global_matches (PDict []) experienced_candidate = Ok plain_matches /\
  Permutation (map category plain_matches) (map fst global_job_categories) /\
  StronglySorted score_desc plain_matches.
Proof.
  assert (H : generate_global_matches (PDict []) experienced_candidate = Ok plain_matches)
    by (vm_compute; reflexivity).
  split; [exact H |].
  exact (global_matches_cover_categories (PDict []) experienced_candidate plain_matches H).
Defined.

Lemma global_matches_need_dict (analysis candidate_data : pyval) :
  isinstance_dict analysis = false ->
  exists e, generate_global_matches analysis candidate_data = Raise e.
Proof.
  intros Hd.
  destruct (generate_global_matches analysis candidate_data) as [result | e] eqn:H;
    [| now exists e].
  apply generate_global_matches_Ok in H
    as (cs & experience & education & years & level & matches & _ & _ & _ & _ & Hm & _).
  cbn [global_job_categories mapM] in Hm.
  apply bind_Ok in Hm as (m & Hm & _).
  apply category_match_Ok in Hm as (Hd' & _). congruence.
Qed.

(** X19. [generate_global_matches] never returns when the analysis of the
    categories is not a dictionary: a generative model that answers with a
    JSON list, string, number or null makes every call raise. *)
Theorem global_matches_raise_without_dict (analysis candidate_data : pyval) :
  isinstance_dict analysis = false ->
  exists e, generate_global_matches analysis candidate_data = Raise e.
Proof. exact (global_matches_need_dict analysis candidate_data). Qed.

Lemma global_matches_raise_witness :
  isinstance_dict (PList [PStr "Software Development"]) = false /\
  exists e,
    generate_global_matches (PList [PStr "Software Development"]) experienced_candidate
      = Raise e.
Proof.
  split; [reflexivity |].
  exact (global_matches_raise_without_dict
           (PList [PStr "Software Development"]) experienced_candidate eq_refl).
Defined.

End global_matches.

Section resume_scanners.
Import Py data_processor properties examples job_matcher resume_processor.
Local Open Scope string_scope.
Local Open Scope list_scope.

Lemma entry_get_set_other (e : entry) (k k' v : string) :
  k <> k' -> entry_get (entry_set e k v) k' = entry_get e k'.
Proof.
  intros Hk. induction e as [| [k0 v0] e IH]; cbn [entry_set entry_get].
  - destruct (String.eqb_spec k k'); [contradiction | reflexivity].
  - destruct (String.eqb_spec k0 k) as [-> | Hne]; cbn [entry_get].
    + destruct (String.eqb_spec k k'); [contradiction | reflexivity].
    + now rewrite IH.
Qed.

Lemma entry_set_nonempty (e : entry) (k v : string) : entry_set e k v <> [].
Proof. destruct e as [| [k0 v0] e]; cbn [entry_set]; [| destruct (String.eqb k0 k)]; discriminate. Qed.

Lemma periods_app (a b : list entry) : periods (a ++ b) = periods a ++ periods b.
Proof. unfold periods. apply flat_map_app. Qed.

Lemma periods_flush (experience : list entry) (current : entry) :
  periods (flush experience current) =
  periods experience ++ match entry_get current "period" with
                        | Some p => [p]
                        | None => []
                        end.
Proof.
  destruct current as [| kv current]; cbn [flush].
  - cbn [entry_get]. now rewrite app_nil_r.
  - rewrite periods_app. unfold periods at 2. cbn [flat_map]. now rewrite app_nil_r.
Qed.

(** The loop of [extract_experience] from any state. *)
Lemma experience_loop_periods (lines : list string) (state : list entry * entry) :
  let '(experience, current_exp) := fold_left experience_line lines state in
  periods (flush experience current_exp) =
  periods (flush (fst state) (snd state)) ++ filter mentions_year lines.
Proof.
  revert state. induction lines as [| line lines IH]; intros [experience current_exp].
  - cbn [fold_left filter fst snd]. now rewrite app_nil_r.
  - cbn [fold_left filter]. specialize (IH (experience_line (experience, current_exp) line)).
    destruct (fold_left experience_line lines _) as [experience' current'].
    rewrite IH. clear IH. cbn [fst snd].
    unfold experience_line.
    destruct (mentions_year line).
    + cbn [fst snd]. rewrite (periods_flush (flush experience current_exp)).
      cbn [entry_get]. cbn. now rewrite <- app_assoc.
    + f_equal. destruct (mentions_title line); cbn [fst snd].
      * rewrite !periods_flush. f_equal.
        destruct (entry_get current_exp "title"); [reflexivity |].
        now rewrite entry_get_set_other by discriminate.
      * destruct current_exp as [| kv rest] eqn:E; [reflexivity |]. rewrite <- E.
        cbn [fst snd]. rewrite !periods_flush. f_equal.
        destruct (entry_get current_exp "description");
          now rewrite entry_get_set_other by discriminate.
Qed.

Lemma experience_periods (text : string) :
  periods (experience_entries text) = filter mentions_year (PyStr.split newline text).
Proof.
  unfold experience_entries.
  pose proof (experience_loop_periods (PyStr.split newline text) ([], [])) as H.
  destruct (fold_left experience_line _ _) as [experience current_exp].
  exact H.
Qed.

(** X20. The periods of the entries [extract_experience] returns are
    exactly the lines of the text that contain a year from 1990 to 2024,
    in the order of the text; a later [title] or [description] never
    replaces one. *)
Theorem extracted_periods_are_dated_lines (text : string) :
  exists entries,
    extract_experience text = PList (map to_dict entries) /\
    periods entries = filter mentions_year (PyStr.split newline text).
Proof.
  exists (experience_entries text). split; [reflexivity | exact (experience_periods text)].
Qed.

Lemma dict_get_to_dict (e : entry) (k : string) :
  dict_get (map (fun kv => (fst kv, PStr (snd kv))) e) k =
  match entry_get e k with Some v => Some (PStr v) | None => None end.
Proof.
  induction e as [| [k0 v0] e IH]; cbn [map dict_get entry_get fst snd]; [reflexivity |].
  destruct (String.eqb k0 k); [reflexivity | exact IH].
Qed.

Lemma entry_years_to_dict (e : entry) :
  entry_years (to_dict e) =
  Ok (match entry_get e "period" with
      | Some p => S (PyStr.count_char "-" p)
      | None => 0%nat
      end).
Proof.
  unfold entry_years, to_dict. cbn [contains_str getitem bind].
  rewrite dict_get_to_dict.
  destruct (entry_get e "period") as [p |]; cbn [bind as_str]; [| reflexivity].
  now rewrite split_length.
Qed.

Lemma mapM_entry_years (entries : list entry) :
  exists years,
    mapM entry_years (map to_dict entries) = Ok years /\
    list_sum years =
      list_sum (map (fun p => S (PyStr.count_char "-" p)) (periods entries)).
Proof.
  induction entries as [| e entries (years & Hy & Hs)]; cbn [map mapM].
  - exists []. split; reflexivity.
  - rewrite entry_years_to_dict, Hy. cbn [bind]. eexists. split; [reflexivity |].
    unfold periods in *. cbn [flat_map]. rewrite map_app, list_sum_app, <- Hs.
    destruct (entry_get e "period"); simpl; lia.
Qed.

Lemma extracted_years (text : string) :
  calculate_years_of_experience (extract_experience text) =
  Ok (list_sum (map (fun line => S (PyStr.count_char "-" line))
                    (filter mentions_year (PyStr.split newline text)))).
Proof.
  unfold calculate_years_of_experience, extract_experience. cbn [iter bind].
  destruct (mapM_entry_years (experience_entries text)) as (years & Hy & Hs).
  rewrite Hy. cbn [bind]. now rewrite fold_add_list_sum, Hs, experience_periods.
Qed.

(** X21. On the experience [extract_experience] finds in a text,
    [calculate_years_of_experience] always returns, and what it returns is
    no count of years: every line with a year from 1990 to 2024 adds one
    plus the number of its hyphens. *)
Theorem years_of_extracted_experience (text : string) :
  calculate_years_of_experience (extract_experience text) =
  Ok (list_sum (map (fun line => S (PyStr.count_char "-" line))
                    (filter mentions_year (PyStr.split newline text)))).
Proof. exact (extracted_years text). Qed.

Lemma flush_map {A B} (f : list A -> B) (entries : list (list A)) (current : list A) :
  map f (flush entries current) =
  map f entries ++ match current with [] => [] | _ => [f current] end.
Proof.
  destruct current; cbn [flush]; [now rewrite app_nil_r | now rewrite map_app].
Qed.

Lemma flush_map_dict {B} (f : dict -> B) (entries : list dict) (current : dict) :
  map f (flush entries current) =
  map f entries ++ match current with [] => [] | _ => [f current] end.
Proof. exact (flush_map f entries current). Qed.

Lemma dict_set_nonempty (d : dict) (k : string) (v : pyval) : dict_set d k v <> [].
Proof. destruct d as [| [k0 v0] d]; cbn [dict_set]; [| destruct (String.eqb k0 k)]; discriminate. Qed.

(** The loop of [extract_education] from any state. *)
Lemma education_loop_degrees (lines : list string) (state : list dict * dict) :
  let '(education, current_edu) := fold_left education_line lines state in
  map (fun d => (dict_get d "degree", dict_get d "year")) (flush education current_edu) =
  map (fun d => (dict_get d "degree", dict_get d "year")) (flush (fst state) (snd state))
  ++ map (fun line => (Some (PStr line), Some (year_of_line line)))
         (filter mentions_education lines).
Proof.
  revert state. induction lines as [| line lines IH]; intros [education current_edu].
  - cbn [fold_left filter map fst snd]. now rewrite app_nil_r.
  - cbn [fold_left filter]. specialize (IH (education_line (education, current_edu) line)).
    destruct (fold_left education_line lines _) as [education' current'].
    rewrite IH. clear IH. cbn [fst snd].
    unfold education_line.
    destruct (mentions_education line).
    + cbn [fst snd map]. rewrite (flush_map_dict _ (flush education current_edu)).
      now rewrite <- app_assoc.
    + f_equal. destruct current_edu as [| kv rest] eqn:E; [reflexivity |]. rewrite <- E.
      destruct (dict_get current_edu "institution") eqn:Hi; [reflexivity |].
      cbn [fst snd]. rewrite !flush_map_dict. f_equal.
      rewrite !dict_get_set_other by discriminate.
      pose proof (dict_set_nonempty current_edu "institution" (PStr line)) as Hne.
      destruct (dict_set current_edu "institution" (PStr line)); [contradiction |].
      rewrite E. reflexivity.
Qed.

Lemma education_degrees (text : string) :
  map (fun d => (dict_get d "degree", dict_get d "year")) (education_entries text) =
  map (fun line => (Some (PStr line), Some (year_of_line line)))
      (filter mentions_education (PyStr.split newline text)).
Proof.
  unfold education_entries.
  pose proof (education_loop_degrees (PyStr.split newline text) ([], [])) as H.
  destruct (fold_left education_line _ _) as [education current_edu].
  exact H.
Qed.

(** X22. [extract_education] returns one entry for each line of the text
    that contains an education keyword, in the order of the text: its
    [degree] is the whole line and its [year] the first year from 1990 to
    2024, in increasing order, whose digits occur in the line, or [None]. *)
Theorem extracted_degrees_are_keyword_lines (text : string) :
  exists entries,
    extract_education text = PList (map PDict entries) /\
    map (fun d => (dict_get d "degree", dict_get d "year")) entries =
    map (fun line => (Some (PStr line), Some (year_of_line line)))
        (filter mentions_education (PyStr.split newline text)).
Proof.
  exists (education_entries text). split; [reflexivity | exact (education_degrees text)].
Qed.

Lemma mapM_degree_of (entries : list dict) (lines : list string) :
  map (fun d => (dict_get d "degree", dict_get d "year")) entries =
  map (fun line => (Some (PStr line), Some (year_of_line line))) lines ->
  mapM degree_of (map PDict entries) = Ok (map PyStr.lower lines).
Proof.
  revert lines. induction entries as [| d entries IH]; intros [| line lines] H;
    try discriminate H; [reflexivity |].
  cbn [map] in H. injection H as Hd _ H.
  cbn [map mapM]. unfold degree_of at 1. cbn [get bind]. rewrite Hd. cbn [as_str bind].
  now rewrite (IH lines H).
Qed.

Lemma extracted_level (text : string) :
  get_highest_education_level (extract_education text) =
  Ok (fold_left raise_level
        (map PyStr.lower (filter mentions_education (PyStr.split newline text))) 0%nat).
Proof.
  unfold get_highest_education_level, extract_education. cbn [iter bind].
  now rewrite (mapM_degree_of _ _ (education_degrees text)).
Qed.

Lemma mapM_lower_strings (skills : list string) :
  mapM (fun skill => bind (as_str skill) (fun s => Ok (PyStr.lower s))) (map PStr skills)
  = Ok (map PyStr.lower skills).
Proof.
  induction skills as [| s skills IH]; [reflexivity |].
  cbn [map mapM as_str bind]. now rewrite IH.
Qed.

Lemma category_match_dict (analysis : dict) (cs : list string) (level : string)
    (education_level : nat) (entries : list (string * CategoryRequirements)) :
  exists matches,
    mapM (category_match (PDict analysis) cs level education_level) entries = Ok matches.
Proof.
  induction entries as [| [c req] entries (matches & Hm)]; cbn [mapM].
  - now exists [].
  - unfold category_match at 1. cbv zeta. cbn [get bind]. rewrite Hm. cbn [bind].
    eexists. reflexivity.
Qed.

Lemma fallback_profile_matches (analysis : pyval) (skills : list string) (text : string) :
  isinstance_dict analysis = true ->
  exists result,
    generate_global_matches analysis (fallback_profile skills text) = Ok result.
Proof.
  intros Hd. destruct analysis as [| | | | | | analysis]; try discriminate Hd.
  unfold generate_global_matches, fallback_profile.
  cbn [getitem dict_get String.eqb Ascii.eqb Bool.eqb bind iter].
  rewrite mapM_lower_strings. cbn [bind].
  rewrite extracted_years. cbn [bind].
  rewrite extracted_level. cbn [bind].
  destruct (category_match_dict analysis (set_of (map PyStr.lower skills))
              (determine_experience_level
                 (list_sum (map (fun line => S (PyStr.count_char "-" line))
                                (filter mentions_year (PyStr.split newline text)))))
              (fold_left raise_level
                 (map PyStr.lower (filter mentions_education (PyStr.split newline text)))
                 0%nat)
              global_job_categories) as (matches & Hm).
  rewrite Hm. cbn [bind]. eexists. reflexivity.
Qed.

(** X23. The profile built from a text by [extract_experience] and
    [extract_education], with any list of skill names, never makes
    [generate_global_matches] raise when the analysis of the categories is
    a dictionary. *)
Theorem fallback_profile_always_matches (analysis : pyval) (skills : list string)
    (text : string) :
  isinstance_dict analysis = true ->
  exists result,
    generate_global_matches analysis (fallback_profile skills text) = Ok result.
Proof. exact (fallback_profile_matches analysis skills text). Qed.

Lemma fallback_profile_witness :
  isinstance_dict (PDict []) = true /\
  exists result,
    generate_global_matches (PDict []) (fallback_profile ["python"; "sql"] resume_text)
      = Ok result.
Proof.
  split; [reflexivity |].
  exact (fallback_profile_always_matches (PDict []) ["python"; "sql"] resume_text eq_refl).
Defined.

End resume_scanners.

Section upload.
Import Py properties examples resume_processor app.
Local Open Scope list_scope.
Local Open Scope string_scope.

Lemma rsplit_last_None (sep : ascii) (s : string) :
  rsplit_last sep s = None <-> PyStr.contains (String sep EmptyString) s = false.
Proof.
  induction s as [| c s IH]; cbn [rsplit_last PyStr.contains String.prefix].
  - split; reflexivity.
  - destruct (rsplit_last sep s) as [[a b] |].
    + assert (H : PyStr.contains (String sep EmptyString) s = true).
      { destruct (PyStr.contains (String sep EmptyString) s); [reflexivity |].
        destruct IH as [_ IH]. discriminate (IH eq_refl). }
      rewrite H, orb_true_r. split; discriminate.
    + destruct IH as [IH _]. rewrite (IH eq_refl), orb_false_r.
      destruct (ascii_dec sep c) as [-> | Hne].
      * rewrite Ascii.eqb_refl. destruct s; split; discriminate.
      * destruct (Ascii.eqb_spec c sep) as [-> | _]; [contradiction |].
        split; reflexivity.
Qed.

Lemma rsplit_last_app (sep : ascii) (a b : string) :
  rsplit_last sep b = None ->
  rsplit_last sep (a ++ String sep b) = Some (a, b).
Proof.
  intros Hb. induction a as [| c a IH]; cbn [append rsplit_last].
  - now rewrite Hb, Ascii.eqb_refl.
  - now rewrite IH.
Qed.

Lemma rsplit_last_Some (sep : ascii) (s a b : string) :
  rsplit_last sep s = Some (a, b) ->
  s = a ++ String sep b /\ rsplit_last sep b = None.
Proof.
  revert a. induction s as [| c s IH]; intros a; cbn [rsplit_last]; [discriminate |].
  destruct (rsplit_last sep s) as [[a' b'] |] eqn:E.
  - intros H. injection H as <- <-. destruct (IH a' eq_refl) as (-> & Hn).
    split; [reflexivity | exact Hn].
  - destruct (Ascii.eqb_spec c sep) as [-> | _]; [| discriminate].
    intros H. injection H as <- <-. split; [reflexivity | exact E].
Qed.

Lemma endswith_app (suffix s : string) :
  endswith suffix s = true <-> exists stem, s = stem ++ suffix.
Proof.
  induction s as [| c s IH]; cbn [endswith].
  - rewrite orb_false_r. split.
    + intros H. apply String.eqb_eq in H. subst suffix. now exists EmptyString.
    + intros (stem & H). destruct stem; [| discriminate H].
      cbn [append] in H. subst suffix. reflexivity.
  - split.
    + intros H. apply orb_true_iff in H as [H | H].
      * apply String.eqb_eq in H. exists EmptyString. now rewrite H.
      * apply IH in H as (stem & ->). now exists (String c stem).
    + intros (stem & H). apply orb_true_iff. destruct stem as [| c' stem].
      * left. cbn [append] in H. rewrite H. apply String.eqb_refl.
      * right. cbn [append] in H. injection H as _ ->. apply IH. now exists stem.
Qed.

Lemma allowed_file_cut (filename : string) :
  allowed_file filename =
  Some match rsplit_last "." filename with
       | Some (_, extension) => mem (PyStr.lower extension) ALLOWED_EXTENSIONS
       | None => false
       end.
Proof.
  unfold allowed_file, rsplit1.
  destruct (rsplit_last "." filename) as [[a b] |] eqn:E.
  - destruct (PyStr.contains "." filename) eqn:Hc; [reflexivity |].
    apply rsplit_last_None in Hc. congruence.
  - apply rsplit_last_None in E. now rewrite E.
Qed.

Lemma allowed_file_spec (filename : string) :
  (exists b, allowed_file filename = Some b) /\
  (allowed_file filename = Some true <->
   exists stem extension,
     filename = stem ++ "." ++ extension /\
     PyStr.contains "." extension = false /\
     In (PyStr.lower extension) ALLOWED_EXTENSIONS).
Proof.
  rewrite allowed_file_cut. split; [eexists; reflexivity |].
  destruct (rsplit_last "." filename) as [[a b] |] eqn:E.
  - apply rsplit_last_Some in E as (-> & Hb). split.
    + intros H. injection H as H. exists a, b. repeat split.
      * now apply rsplit_last_None.
      * now apply mem_In.
    + intros (stem & extension & Heq & Hc & Hin).
      apply rsplit_last_None in Hc.
      pose proof (rsplit_last_app "." stem extension Hc) as H1.
      pose proof (rsplit_last_app "." a b Hb) as H2.
      change (stem ++ "." ++ extension) with (stem ++ String "." extension) in Heq.
      rewrite Heq in H2. rewrite H1 in H2. injection H2 as _ <-.
      f_equal. now apply mem_In.
  - split; [discriminate |].
    intros (stem & extension & -> & Hc & _).
    apply rsplit_last_None in Hc.
    change (stem ++ "." ++ extension) with (stem ++ String "." extension) in E.
    rewrite (rsplit_last_app "." stem extension Hc) in E. discriminate E.
Qed.

(** X24. [allowed_file] never fails on its subscript, and it accepts
    exactly the names whose part after the last dot is, in lower case,
    [pdf] or [docx]. *)
Theorem allowed_file_accepts_by_last_extension (filename : string) :
  (exists b, allowed_file filename = Some b) /\
  (allowed_file filename = Some true <->
   exists stem extension,
     filename = stem ++ "." ++ extension /\
     PyStr.contains "." extension = false /\
     In (PyStr.lower extension) ALLOWED_EXTENSIONS).
Proof. exact (allowed_file_spec filename). Qed.

Lemma extractor_of_Some (file_path : string) (format : resume_format) :
  extractor_of file_path = Some format ->
  exists stem extension,
    file_path = stem ++ "." ++ extension /\ In extension ALLOWED_EXTENSIONS.
Proof.
  unfold extractor_of.
  destruct (endswith ".pdf" file_path) eqn:Hp.
  - intros _. apply endswith_app in Hp as (stem & ->).
    exists stem, "pdf". split; [reflexivity | now left].
  - destruct (endswith ".docx" file_path) eqn:Hd; [| discriminate].
    intros _. apply endswith_app in Hd as (stem & ->).
    exists stem, "docx". split; [reflexivity | right; now left].
Qed.

Lemma extractor_needs_allowed (file_path : string) (format : resume_format) :
  extractor_of file_path = Some format -> allowed_file file_path = Some true.
Proof.
  intros H. apply extractor_of_Some in H as (stem & extension & -> & Hin).
  apply allowed_file_spec. exists stem, extension.
  split; [reflexivity |].
  destruct Hin as [<- | [<- | []]]; split; try reflexivity; [now left | right; now left].
Qed.

(** X25. Every path for which [analyze_resume_sync] finds a text extractor
    is a name [allowed_file] accepts. *)
Theorem extractor_implies_allowed_file (file_path : string) (format : resume_format) :
  extractor_of file_path = Some format -> allowed_file file_path = Some true.
Proof. exact (extractor_needs_allowed file_path format). Qed.

Lemma extractor_implies_allowed_witness :
  extractor_of "uploads/resume.v2.docx" = Some Docx /\
  allowed_file "uploads/resume.v2.docx" = Some true.
Proof.
  split; [reflexivity |].
  exact (extractor_implies_allowed_file "uploads/resume.v2.docx" Docx eq_refl).
Defined.

Lemma allowed_but_unsupported (stem extension : string) :
  PyStr.contains "." extension = false ->
  In (PyStr.lower extension) ALLOWED_EXTENSIONS ->
  ~ In extension ALLOWED_EXTENSIONS ->
  allowed_file (stem ++ "." ++ extension) = Some true /\
  extractor_of (stem ++ "." ++ extension) = None.
Proof.
  intros Hc Hl Hn. split.
  - apply allowed_file_spec. exists stem, extension. repeat split; assumption.
  - destruct (extractor_of (stem ++ "." ++ extension)) as [format |] eqn:E; [| reflexivity].
    exfalso. apply extractor_of_Some in E as (stem' & extension' & Heq & Hin).
    assert (Hc' : rsplit_last "." extension' = None)
      by (destruct Hin as [<- | [<- | []]]; reflexivity).
    apply rsplit_last_None in Hc.
    pose proof (rsplit_last_app "." stem extension Hc) as H1.
    pose proof (rsplit_last_app "." stem' extension' Hc') as H2.
    change (stem ++ "." ++ extension) with (stem ++ String "." extension) in Heq.
    change (stem' ++ "." ++ extension') with (stem' ++ String "." extension') in Heq.
    rewrite Heq in H1. rewrite H1 in H2. injection H2 as _ <-. contradiction.
Qed.

(** X26. The two checks of a file name disagree on letter case: a name
    whose last extension is [pdf] or [docx] written with a capital letter
    is accepted by [allowed_file], and [analyze_resume_sync] then rejects
    the same name as an unsupported format. *)
Theorem capital_extension_allowed_then_unsupported (stem extension : string) :
  PyStr.contains "." extension = false ->
  In (PyStr.lower extension) ALLOWED_EXTENSIONS ->
  ~ In extension ALLOWED_EXTENSIONS ->
  allowed_file (stem ++ "." ++ extension) = Some true /\
  extractor_of (stem ++ "." ++ extension) = None.
Proof. exact (allowed_but_unsupported stem extension). Qed.

Lemma capital_extension_witness :
  PyStr.contains "." "PDF" = false /\
  In (PyStr.lower "PDF") ALLOWED_EXTENSIONS /\
  ~ In "PDF" ALLOWED_EXTENSIONS /\
  allowed_file ("resume" ++ "." ++ "PDF") = Some true /\
  extractor_of ("resume" ++ "." ++ "PDF") = None.
Proof.
  assert (H1 : PyStr.contains "." "PDF" = false) by reflexivity.
  assert (H2 : In (PyStr.lower "PDF") ALLOWED_EXTENSIONS) by (left; reflexivity).
  assert (H3 : ~ In "PDF" ALLOWED_EXTENSIONS)
    by (intros [H | [H | []]]; discriminate H).
  split; [exact H1 |]. split; [exact H2 |]. split; [exact H3 |].
  exact (capital_extension_allowed_then_unsupported "resume" "PDF" H1 H2 H3).
Defined.

End upload.

Section skills_distribution.
Import Py data_processor properties examples.
Local Open Scope string_scope.
Local Open Scope list_scope.

Lemma class_eqb_refl (a : key_class) : class_eqb a a = true.
Proof.
  destruct a; cbn [class_eqb]; [reflexivity | | apply String.eqb_refl].
  apply Qeq_bool_iff. reflexivity.
Qed.

Lemma class_eqb_sym (a b : key_class) : class_eqb a b = class_eqb b a.
Proof.
  destruct a, b; cbn [class_eqb]; try reflexivity.
  - destruct (Qeq_bool q q0) eqn:E1, (Qeq_bool q0 q) eqn:E2; try reflexivity.
    + apply Qeq_bool_iff in E1. symmetry in E1. apply Qeq_bool_iff in E1. congruence.
    + apply Qeq_bool_iff in E2. symmetry in E2. apply Qeq_bool_iff in E2. congruence.
  - apply String.eqb_sym.
Qed.

Lemma class_eqb_trans (a b c : key_class) :
  class_eqb a b = true -> class_eqb b c = true -> class_eqb a c = true.
Proof.
  destruct a, b, c; cbn [class_eqb]; try discriminate; try reflexivity.
  - intros H1 H2. apply Qeq_bool_iff in H1, H2. apply Qeq_bool_iff.
    now rewrite H1.
  - intros H1 H2. apply String.eqb_eq in H1, H2. subst. apply String.eqb_refl.
Qed.

Lemma key_eqb_refl (a : pyval) : hashable a = true -> key_eqb a a = true.
Proof.
  unfold hashable, key_eqb. destruct (class_of a); [| discriminate].
  intros _. apply class_eqb_refl.
Qed.

Lemma key_eqb_sym (a b : pyval) : key_eqb a b = key_eqb b a.
Proof.
  unfold key_eqb. destruct (class_of a), (class_of b); try reflexivity.
  apply class_eqb_sym.
Qed.

Lemma key_eqb_trans (a b c : pyval) :
  key_eqb a b = true -> key_eqb b c = true -> key_eqb a c = true.
Proof.
  unfold key_eqb. destruct (class_of a), (class_of b), (class_of c); try discriminate.
  apply class_eqb_trans.
Qed.

Lemma key_eqb_hashable (a b : pyval) : key_eqb a b = true -> hashable a = true.
Proof. unfold key_eqb, hashable. destruct (class_of a); [reflexivity | discriminate]. Qed.

(** A key that matches [s] matches what [s] matches, and no more. *)
Lemma key_eqb_congr (a b s : pyval) :
  key_eqb a s = true -> key_eqb b s = key_eqb a b.
Proof.
  intros Ha. destruct (key_eqb b s) eqn:Hb.
  - symmetry. apply (key_eqb_trans a s b Ha). now rewrite key_eqb_sym.
  - destruct (key_eqb a b) eqn:Hab; [| reflexivity].
    rewrite key_eqb_sym in Hab. rewrite (key_eqb_trans b a s Hab Ha) in Hb.
    discriminate Hb.
Qed.

Lemma occurrences_app (skills : list pyval) (s k : pyval) :
  occurrences (skills ++ [s]) k =
  (occurrences skills k + (if key_eqb k s then 1 else 0))%nat.
Proof.
  unfold occurrences. rewrite filter_app, length_app. cbn [filter].
  destruct (key_eqb k s); reflexivity.
Qed.

(** The items of an incremented dictionary. *)
Lemma increment_In (counts : list (pyval * nat)) (s k : pyval) (n : nat) :
  distinct_keys counts ->
  In (k, n) (increment counts s) ->
  (In (k, n) counts /\ key_eqb k s = false) \/
  (exists n0, In (k, n0) counts /\ key_eqb k s = true /\ n = S n0) \/
  (k = s /\ n = 1%nat /\ forall item, In item counts -> key_eqb (fst item) s = false).
Proof.
  induction counts as [| [k0 n0] rest IH]; cbn [increment distinct_keys].
  - intros _ [E | []]. inversion E; subst. right. right. repeat split. intros ? [].
  - intros (Hfresh & Hd). destruct (key_eqb k0 s) eqn:Hk.
    + intros [E | Hin].
      * inversion E; subst. right. left. exists n0. repeat split; [now left | exact Hk].
      * left. split; [now right |].
        rewrite (key_eqb_congr k0 k s Hk). exact (Hfresh (k, n) Hin).
    + intros [E | Hin].
      * inversion E; subst. left. split; [now left | exact Hk].
      * destruct (IH Hd Hin) as [(H1 & H2) | [(m & H1 & H2 & H3) | (H1 & H2 & H3)]].
        -- left. split; [now right | exact H2].
        -- right. left. exists m. repeat split; [now right | exact H2 | exact H3].
        -- right. right. repeat split; try assumption.
           intros item [<- | Hi]; [exact Hk | now apply H3].
Qed.

Lemma increment_keeps (counts : list (pyval * nat)) (s k : pyval) (n : nat) :
  In (k, n) counts -> exists n', In (k, n') (increment counts s).
Proof.
  induction counts as [| [k0 n0] rest IH]; [intros [] |].
  cbn [increment]. intros [E | Hin].
  - inversion E; subst. destruct (key_eqb k s); eexists; left; reflexivity.
  - destruct (key_eqb k0 s).
    + exists n. now right.
    + destruct (IH Hin) as (n' & Hn). exists n'. now right.
Qed.

Lemma increment_enters (counts : list (pyval * nat)) (s : pyval) :
  hashable s = true ->
  exists k n, In (k, n) (increment counts s) /\ key_eqb k s = true.
Proof.
  intros Hs. induction counts as [| [k0 n0] rest (k & n & Hin & Hk)]; cbn [increment].
  - exists s, 1%nat. split; [now left | now apply key_eqb_refl].
  - destruct (key_eqb k0 s) eqn:E.
    + exists k0, (S n0). split; [now left | exact E].
    + exists k, n. split; [now right | exact Hk].
Qed.

Lemma increment_keys (counts : list (pyval * nat)) (s k : pyval) (n : nat) :
  In (k, n) (increment counts s) -> (exists n', In (k, n') counts) \/ k = s.
Proof.
  induction counts as [| [k0 n0] rest IH]; cbn [increment].
  - intros [E | []]. inversion E. now right.
  - destruct (key_eqb k0 s).
    + intros [E | Hin].
      * inversion E; subst. left. exists n0. now left.
      * left. exists n. now right.
    + intros [E | Hin].
      * inversion E; subst. left. exists n. now left.
      * destruct (IH Hin) as [(n' & Hn) | ->]; [left; exists n'; now right | now right].
Qed.

Lemma increment_distinct (counts : list (pyval * nat)) (s : pyval) :
  distinct_keys counts -> distinct_keys (increment counts s).
Proof.
  induction counts as [| [k0 n0] rest IH]; cbn [increment distinct_keys].
  - intros _. split; [intros ? [] | exact I].
  - intros (Hfresh & Hd). destruct (key_eqb k0 s) eqn:Hk; cbn [distinct_keys fst].
    + split; [exact Hfresh | exact Hd].
    + split; [| exact (IH Hd)].
      intros [k n] Hin. cbn [fst].
      destruct (increment_keys rest s k n Hin) as [(n' & Hn) | ->];
        [exact (Hfresh (k, n') Hn) | exact Hk].
Qed.

Lemma increment_sum (counts : list (pyval * nat)) (s : pyval) :
  list_sum (map snd (increment counts s)) = S (list_sum (map snd counts)).
Proof.
  induction counts as [| [k0 n0] rest IH]; cbn [increment]; [reflexivity |].
  destruct (key_eqb k0 s); simpl; [lia |]. simpl in IH. rewrite IH. lia.
Qed.

Lemma occurrences_zero (skills : list pyval) (counts : list (pyval * nat)) (s : pyval) :
  (forall x, In x skills -> exists k n, In (k, n) counts /\ key_eqb k x = true) ->
  (forall item, In item counts -> key_eqb (fst item) s = false) ->
  occurrences skills s = 0%nat.
Proof.
  intros Hcov Hnone. unfold occurrences.
  destruct (filter (key_eqb s) skills) as [| x l] eqn:E; [reflexivity |].
  assert (Hx : In x (filter (key_eqb s) skills)) by (rewrite E; now left).
  apply filter_In in Hx as (Hx & Hsx).
  destruct (Hcov x Hx) as (k & n & Hin & Hk).
  specialize (Hnone (k, n) Hin). cbn [fst] in Hnone.
  rewrite key_eqb_sym in Hsx. rewrite (key_eqb_trans k x s Hk Hsx) in Hnone.
  discriminate Hnone.
Qed.

Lemma tally_increment (skills : list pyval) (counts : list (pyval * nat)) (s : pyval) :
  hashable s = true -> tally skills counts -> tally (skills ++ [s]) (increment counts s).
Proof.
  intros Hs (Hacc & Hcov & Hd & Hsum). repeat split.
  - destruct (increment_In counts s k n Hd H)
      as [(H1 & H2) | [(m & H1 & H2 & ->) | (-> & -> & H3)]].
    + rewrite occurrences_app, H2. destruct (Hacc k n H1). lia.
    + rewrite occurrences_app, H2. destruct (Hacc k m H1). lia.
    + rewrite occurrences_app, (key_eqb_refl s Hs).
      now rewrite (occurrences_zero skills counts s Hcov H3).
  - destruct (increment_In counts s k n Hd H)
      as [(H1 & H2) | [(m & H1 & H2 & ->) | (-> & -> & H3)]];
      [destruct (Hacc k n H1) | |]; lia.
  - intros x Hx. apply in_app_iff in Hx as [Hx | [<- | []]].
    + destruct (Hcov x Hx) as (k & n & Hin & Hk).
      destruct (increment_keeps counts s k n Hin) as (n' & Hn). now exists k, n'.
    + now apply increment_enters.
  - now apply increment_distinct.
  - rewrite increment_sum, Hsum, length_app. cbn [List.length]. lia.
Qed.

Lemma tally_skills (items skills : list pyval) (counts counts' : list (pyval * nat)) :
  foldM count_skill items counts = Ok counts' ->
  tally skills counts -> tally (skills ++ items) counts'.
Proof.
  revert skills counts. induction items as [| s items IH]; intros skills counts; cbn [foldM].
  - intros H. injection H as <-. now rewrite app_nil_r.
  - intros H Ht. apply bind_Ok in H as (c & Hc & H).
    unfold count_skill in Hc. destruct (hashable s) eqn:Hs; [| discriminate Hc].
    injection Hc as <-.
    change (s :: items) with ([s] ++ items). rewrite app_assoc.
    apply (IH _ _ H). now apply tally_increment.
Qed.

Lemma tally_jobs (jobs : list pyval) (skills : list pyval) (counts counts' : list (pyval * nat)) :
  foldM count_job jobs counts = Ok counts' ->
  tally skills counts ->
  exists per_job,
    mapM listed_skills jobs = Ok per_job /\ tally (skills ++ List.concat per_job) counts'.
Proof.
  revert skills counts. induction jobs as [| job jobs IH]; intros skills counts; cbn [foldM mapM].
  - intros H Ht. injection H as <-. exists []. cbn [List.concat]. now rewrite app_nil_r.
  - intros H Ht. apply bind_Ok in H as (c & Hc & H).
    unfold count_job in Hc.
    apply bind_Ok in Hc as (requirements & Hr & Hc).
    apply bind_Ok in Hc as (sk & Hsk & Hc).
    apply bind_Ok in Hc as (items & Hi & Hc).
    destruct (IH (skills ++ items) c H (tally_skills _ _ _ _ Hc Ht)) as (per_job & Hm & Ht').
    exists (items :: per_job). unfold listed_skills at 1.
    rewrite Hr. cbn [bind]. rewrite Hsk. cbn [bind]. rewrite Hi, Hm. cbn [bind List.concat].
    split; [reflexivity |]. now rewrite app_assoc.
Qed.

Lemma tally_nil : tally [] [].
Proof.
  unfold tally. split; [intros k n [] |]. split; [intros s [] |].
  split; [exact I | reflexivity].
Qed.

Lemma Permutation_list_sum (l l' : list nat) :
  Permutation l l' -> list_sum l = list_sum l'.
Proof. induction 1; simpl; lia. Qed.

Lemma sorted_counts_perm (counts : list (pyval * nat)) :
  Permutation
    (map snd (sort_desc (map (fun item => (inject_Z (Z.of_nat (snd item)), item)) counts)))
    counts.
Proof.
  transitivity (map snd (map (fun item : pyval * nat =>
                                (inject_Z (Z.of_nat (snd item)), item)) counts)).
  - apply Permutation_map, sort_desc_perm.
  - rewrite map_map. cbn [snd]. now rewrite map_id.
Qed.

Lemma skills_distribution_tally (self : DataProcessor) (w : World)
    (distribution : list (pyval * nat)) :
  snd (get_skills_distribution self w) = Ok distribution ->
  exists per_job,
    mapM listed_skills (snd (_get_cached_jobs self w)) = Ok per_job /\
    (forall k n, In (k, n) distribution ->
                 n = occurrences (List.concat per_job) k /\ (1 <= n)%nat) /\
    (forall s, In s (List.concat per_job) ->
               exists k n, In (k, n) distribution /\ key_eqb k s = true) /\
    list_sum (map snd distribution) = List.length (List.concat per_job).
Proof.
  unfold get_skills_distribution.
  destruct (_get_cached_jobs self w) as [self' jobs]. cbn [snd].
  intros H. apply bind_Ok in H as (counts & Hc & H). injection H as <-.
  destruct (tally_jobs jobs [] [] counts Hc tally_nil) as (per_job & Hm & Ht).
  cbn [app] in Ht. destruct Ht as (Hacc & Hcov & _ & Hsum).
  pose proof (sorted_counts_perm counts) as Hp.
  exists per_job. split; [exact Hm |]. repeat split.
  - apply (Permutation_in _ Hp) in H. now destruct (Hacc k n H).
  - apply (Permutation_in _ Hp) in H. now destruct (Hacc k n H).
  - intros s Hs. destruct (Hcov s Hs) as (k & n & Hin & Hk).
    exists k, n. split; [| exact Hk]. apply (Permutation_in _ (Permutation_sym Hp) Hin).
  - rewrite <- Hsum. apply Permutation_list_sum, Permutation_map, Hp.
Qed.

(** X27. What [get_skills_distribution] returns is the tally of the skills
    of the cached jobs: every item holds the number of times its key is
    listed, every listed skill has an item, and the numbers add up to the
    number of listed skills. *)
Theorem skills_distribution_counts_listed_skills (self : DataProcessor) (w : World)
    (distribution : list (pyval * nat)) :
  snd (get_skills_distribution self w) = Ok distribution ->
  exists per_job,
    mapM listed_skills (snd (_get_cached_jobs self w)) = Ok per_job /\
    (forall k n, In (k, n) distribution ->
                 n = occurrences (List.concat per_job) k /\ (1 <= n)%nat) /\
    (forall s, In s (List.concat per_job) ->
               exists k n, In (k, n) distribution /\ key_eqb k s = true) /\
    list_sum (map snd distribution) = List.length (List.concat per_job).
Proof. exact (skills_distribution_tally self w distribution). Qed.

Lemma skills_distribution_counts_witness :
  snd (get_skills_distribution processor world25) = Ok distribution25 /\
  exists per_job,
    mapM listed_skills (snd (_get_cached_jobs processor world25)) = Ok per_job /\
    (forall k n, In (k, n) distribution25 ->
                 n = occurrences (List.concat per_job) k /\ (1 <= n)%nat) /\
    (forall s, In s (List.concat per_job) ->
               exists k n, In (k, n) distribution25 /\ key_eqb k s = true) /\
    list_sum (map snd distribution25) = List.length (List.concat per_job).
Proof.
  assert (H : snd (get_skills_distribution processor world25) = Ok distribution25)
    by (vm_compute; reflexivity).
  split; [exact H |].
  exact (skills_distribution_counts_listed_skills processor world25 distribution25 H).
Defined.

Lemma StronglySorted_weaken {A} (R R' : A -> A -> Prop) (l : list A) :
  (forall a b, R a b -> R' a b) -> StronglySorted R l -> StronglySorted R' l.
Proof.
  intros HR. induction 1 as [| a l Hs IH Ha]; constructor; [exact IH |].
  eapply Forall_impl; [| exact Ha]. intros b. apply HR.
Qed.

Lemma tally_hashable (skills : list pyval) (counts : list (pyval * nat)) (k : pyval) (n : nat) :
  tally skills counts -> In (k, n) counts -> hashable k = true.
Proof.
  intros (Hacc & _) Hin. destruct (Hacc k n Hin) as (Hn & Hpos).
  unfold occurrences in Hn.
  destruct (filter (key_eqb k) skills) as [| x l] eqn:E; [cbn in Hn; lia |].
  assert (Hx : In x (filter (key_eqb k) skills)) by (rewrite E; now left).
  apply filter_In in Hx as (_ & Hx). exact (key_eqb_hashable k x Hx).
Qed.

Lemma distinct_keys_unique (counts : list (pyval * nat)) :
  distinct_keys counts ->
  (forall item, In item counts -> hashable (fst item) = true) ->
  NoDup counts /\
  (forall item item', In item counts -> In item' counts ->
                      key_eqb (fst item) (fst item') = true -> item = item').
Proof.
  induction counts as [| item0 rest IH]; cbn [distinct_keys].
  - intros _ _. split; [constructor | intros ? ? []].
  - intros (Hfresh & Hd) Hh.
    destruct (IH Hd (fun item Hi => Hh item (or_intror Hi))) as (Hnd & Hu).
    split.
    + constructor; [| exact Hnd]. intros Hin.
      specialize (Hfresh item0 Hin).
      rewrite (key_eqb_refl (fst item0) (Hh item0 (or_introl eq_refl))) in Hfresh.
      discriminate Hfresh.
    + intros item item' [<- | Hi] [<- | Hi'] Hk.
      * reflexivity.
      * rewrite (Hfresh item' Hi') in Hk. discriminate Hk.
      * rewrite key_eqb_sym, (Hfresh item Hi) in Hk. discriminate Hk.
      * exact (Hu item item' Hi Hi' Hk).
Qed.

Lemma skills_distribution_order (self : DataProcessor) (w : World)
    (distribution : list (pyval * nat)) :
  snd (get_skills_distribution self w) = Ok distribution ->
  StronglySorted (fun item item' => (snd item' <= snd item)%nat) distribution /\
  NoDup distribution /\
  (forall item item', In item distribution -> In item' distribution ->
                      key_eqb (fst item) (fst item') = true -> item = item').
Proof.
  unfold get_skills_distribution.
  destruct (_get_cached_jobs self w) as [self' jobs]. cbn [snd].
  intros H. apply bind_Ok in H as (counts & Hc & H). injection H as <-.
  destruct (tally_jobs jobs [] [] counts Hc tally_nil) as (per_job & _ & Ht).
  pose proof (sorted_counts_perm counts) as Hp.
  assert (Hh : forall item, In item counts -> hashable (fst item) = true).
  { intros [k n] Hin. exact (tally_hashable _ _ k n Ht Hin). }
  destruct Ht as (_ & _ & Hd & _).
  destruct (distinct_keys_unique counts Hd Hh) as (Hnd & Hu).
  split; [| split].
  - apply (StronglySorted_weaken
             (fun a b : pyval * nat =>
                (inject_Z (Z.of_nat (snd b)) <= inject_Z (Z.of_nat (snd a)))%Q)).
    + intros a b Hab. rewrite <- Zle_Qle in Hab. lia.
    + apply (sorted_map_snd (fun item : pyval * nat => inject_Z (Z.of_nat (snd item))));
        [| apply sort_desc_sorted].
      intros y Hy. apply (Permutation_in _ (sort_desc_perm _)) in Hy.
      apply in_map_iff in Hy as (item & <- & _). reflexivity.
  - exact (Permutation_NoDup (Permutation_sym Hp) Hnd).
  - intros item item' Hi Hi'.
    apply (Permutation_in _ Hp) in Hi. apply (Permutation_in _ Hp) in Hi'.
    exact (Hu item item' Hi Hi').
Qed.

(** X28. The items [get_skills_distribution] returns are in an order in
    which the counts never increase, and no key occurs twice, not even as
    two spellings of one key ([1], [1.0] and [True]). *)
Theorem skills_distribution_sorted_without_repeats (self : DataProcessor) (w : World)
    (distribution : list (pyval * nat)) :
  snd (get_skills_distribution self w) = Ok distribution ->
  StronglySorted (fun item item' => (snd item' <= snd item)%nat) distribution /\
  NoDup distribution /\
  (forall item item', In item distribution -> In item' distribution ->
                      key_eqb (fst item) (fst item') = true -> item = item').
Proof. exact (skills_distribution_order self w distribution). Qed.

Lemma skills_distribution_sorted_witness :
  snd (get_skills_distribution processor world25) = Ok distribution25 /\
  StronglySorted (fun item item' => (snd item' <= snd item)%nat) distribution25 /\
  NoDup distribution25 /\
  (forall item item', In item distribution25 -> In item' distribution25 ->
                      key_eqb (fst item) (fst item') = true -> item = item').
Proof.
  assert (H : snd (get_skills_distribution processor world25) = Ok distribution25)
    by (vm_compute; reflexivity).
  split; [exact H |].
  exact (skills_distribution_sorted_without_repeats processor world25 distribution25 H).
Defined.

Lemma get_cached_jobs_loaded (self : DataProcessor) (w : World) :
  cache_loaded self = true ->
  forallb loaded_job (snd (_get_cached_jobs self w)) = true.
Proof.
  unfold cache_loaded, _get_cached_jobs.
  destruct (_cached_jobs self) as [jobs |]; cbn [snd].
  - destruct (Qle_bool _ _); cbn [snd]; [auto | intros _; apply load_jobs_loaded].
  - intros _. apply load_jobs_loaded.
Qed.

Lemma count_strings (items : list pyval) (counts : list (pyval * nat)) :
  forallb is_str items = true -> exists counts', foldM count_skill items counts = Ok counts'.
Proof.
  revert counts. induction items as [| s items IH]; intros counts H; cbn [foldM].
  - now exists counts.
  - cbn [forallb] in H. apply andb_true_iff in H as (Hs & H).
    destruct s; try discriminate Hs. unfold count_skill at 1. cbn [hashable class_of bind].
    apply IH, H.
Qed.

Lemma count_job_loaded (job : pyval) (counts : list (pyval * nat)) :
  loaded_job job = true -> exists counts', count_job counts job = Ok counts'.
Proof.
  unfold loaded_job. destruct job as [| | | | | | d]; try discriminate.
  destruct (dict_get d "title") as [[| | | | t | |] |]; try discriminate.
  destruct (dict_get d "role") as [[| | | | r | |] |]; try discriminate.
  destruct (dict_get d "requirements") as [[| | | | | | rq] |] eqn:Eq; try discriminate.
  destruct (dict_get rq "skills") as [[| | | | | l |] |] eqn:Es; try discriminate.
  intros Hl. unfold count_job. cbn [getitem]. rewrite Eq. cbn [bind getitem].
  rewrite Es. cbn [bind iter]. now apply count_strings.
Qed.

Lemma count_jobs_loaded (jobs : list pyval) (counts : list (pyval * nat)) :
  forallb loaded_job jobs = true -> exists counts', foldM count_job jobs counts = Ok counts'.
Proof.
  revert counts. induction jobs as [| job jobs IH]; intros counts H; cbn [foldM].
  - now exists counts.
  - cbn [forallb] in H. apply andb_true_iff in H as (Hj & H).
    destruct (count_job_loaded job counts Hj) as (c & ->). cbn [bind]. apply IH, H.
Qed.

Lemma skills_distribution_returns (self : DataProcessor) (w : World) :
  cache_loaded self = true ->
  exists distribution, snd (get_skills_distribution self w) = Ok distribution.
Proof.
  intros H. pose proof (get_cached_jobs_loaded self w H) as Hl.
  unfold get_skills_distribution.
  destruct (_get_cached_jobs self w) as [self' jobs]. cbn [snd] in *.
  destruct (count_jobs_loaded jobs [] Hl) as (counts & ->). cbn [bind].
  eexists. reflexivity.
Qed.

(** X29. [get_skills_distribution] never raises on a processor whose
    cache is empty or holds jobs in the shape the loader builds, whatever
    the CSV file holds when the cache is reloaded. *)
Theorem skills_distribution_never_raises_on_loaded_cache (self : DataProcessor) (w : World) :
  cache_loaded self = true ->
  exists distribution, snd (get_skills_distribution self w) = Ok distribution.
Proof. exact (skills_distribution_returns self w). Qed.

Lemma skills_distribution_never_raises_witness :
  cache_loaded processor = true /\
  exists distribution, snd (get_skills_distribution processor world25) = Ok distribution.
Proof.
  split; [reflexivity |].
  exact (skills_distribution_never_raises_on_loaded_cache processor world25 eq_refl).
Defined.

End skills_distribution.

Section scorer_more.
Import Py ai_processor properties examples.
Local Open Scope string_scope.
Local Open Scope list_scope.

Lemma filter_partition {A} (f : A -> bool) (l : list A) :
  Permutation (filter f l ++ filter (fun x => negb (f x)) l) l.
Proof.
  induction l as [| x l IH]; cbn [filter]; [constructor |].
  destruct (f x); cbn [negb app].
  - now constructor.
  - symmetry. apply Permutation_cons_app. now symmetry.
Qed.

Lemma base_analysis_shape (required candidate : list string) (score : Q) :
  let a := base_analysis (intersection required candidate)
             (difference required candidate) required score in
  Permutation (matching_skills a ++ missing_skills a) required /\
  (forall skill, In skill (matching_skills a) -> ~ In skill (missing_skills a)) /\
  (1 <= List.length (recommendations a) <= 3)%nat /\
  (List.length (strengths a) + List.length (gaps a) = List.length required)%nat.
Proof.
  cbv zeta. unfold base_analysis. cbn [matching_skills missing_skills recommendations
                                        strengths gaps].
  split; [apply filter_partition |]. split; [| split].
  - intros skill H1 H2. unfold intersection, difference in *.
    apply filter_In in H1 as (_ & H1). apply filter_In in H2 as (_ & H2).
    rewrite H1 in H2. discriminate H2.
  - destruct (difference required candidate) as [| m missing] eqn:E; cbn [List.length].
    + lia.
    + rewrite length_map. rewrite length_firstn. cbn [List.length]. lia.
  - rewrite !length_map, <- length_app.
    apply Permutation_length, filter_partition.
Qed.

Lemma analysis_shape (self : JobMatcher) (c j : pyval) (r : MatchScore) :
  calculate_match_score_try self c j = Ok r ->
  exists rs required,
    required_skills_of (coerce_requirements j) = Ok rs /\
    lower_set rs = Ok required /\
    let a := ai_analysis r in
    Permutation (matching_skills a ++ missing_skills a) required /\
    (forall skill, In skill (matching_skills a) -> ~ In skill (missing_skills a)) /\
    (1 <= List.length (recommendations a) <= 3)%nat /\
    (List.length required <= List.length (strengths a) + List.length (gaps a)
     <= S (List.length required))%nat.
Proof.
  intros H.
  apply calculate_match_score_try_Ok in H
    as (rs & cs & required & candidate & analysis & Hrs & _ & Hreq & _ & Hadj & ->).
  exists rs, required. split; [exact Hrs |]. split; [exact Hreq |].
  cbv zeta. cbn [ai_analysis].
  destruct (base_analysis_shape required candidate
              (skill_match_score_of (intersection required candidate) required))
    as (H1 & H2 & H3 & H4).
  destruct (experience_adjustment_Ok _ _ _ _ Hadj) as [-> | [[y ->] | [v ->]]];
    cbn [add_strength add_gap matching_skills missing_skills recommendations strengths gaps];
    (split; [exact H1 |]); (split; [exact H2 |]); (split; [exact H3 |]);
    rewrite ?length_app; cbn [List.length]; lia.
Qed.

(** X30. In the analysis of every scoring run that does not fail, each
    required skill (lower-cased) is listed exactly once, as a matching or
    as a missing skill and never as both; there are between one and three
    recommendations; and the strengths and gaps together are one per
    required skill, plus at most one note on experience. *)
Theorem analysis_accounts_for_required_skills (self : JobMatcher) (c j : pyval)
    (r : MatchScore) :
  calculate_match_score_try self c j = Ok r ->
  exists rs required,
    required_skills_of (coerce_requirements j) = Ok rs /\
    lower_set rs = Ok required /\
    let a := ai_analysis r in
    Permutation (matching_skills a ++ missing_skills a) required /\
    (forall skill, In skill (matching_skills a) -> ~ In skill (missing_skills a)) /\
    (1 <= List.length (recommendations a) <= 3)%nat /\
    (List.length required <= List.length (strengths a) + List.length (gaps a)
     <= S (List.length required))%nat.
Proof. exact (analysis_shape self c j r). Qed.

Lemma analysis_accounts_witness :
  calculate_match_score_try matcher experienced_candidate three_skill_requirements
    = Ok (calculate_match_score_sync matcher experienced_candidate three_skill_requirements) /\
  exists rs required,
    required_skills_of (coerce_requirements three_skill_requirements) = Ok rs /\
    lower_set rs = Ok required /\
    let a := ai_analysis
               (calculate_match_score_sync matcher experienced_candidate
                  three_skill_requirements) in
    Permutation (matching_skills a ++ missing_skills a) required /\
    (forall skill, In skill (matching_skills a) -> ~ In skill (missing_skills a)) /\
    (1 <= List.length (recommendations a) <= 3)%nat /\
    (List.length required <= List.length (strengths a) + List.length (gaps a)
     <= S (List.length required))%nat.
Proof.
  assert (H : calculate_match_score_try matcher experienced_candidate
                three_skill_requirements
              = Ok (calculate_match_score_sync matcher experienced_candidate
                      three_skill_requirements)) by (vm_compute; reflexivity).
  split; [exact H |].
  exact (analysis_accounts_for_required_skills matcher experienced_candidate
           three_skill_requirements
           (calculate_match_score_sync matcher experienced_candidate
              three_skill_requirements) H).
Defined.

End scorer_more.
